(** * BAD (Basic Analysis of Data): the cleaning and profiling pipeline

    A shallow embedding of [backend/services/cleaner.py] ([load_and_clean])
    and [backend/services/analyzer.py] ([analyze_dataframe]), together with
    the fragment of pandas' behaviour that these two functions rely on
    ([read_csv] type inference, [astype(str)], [str.strip], [dropna],
    [drop_duplicates], [value_counts], [is_numeric_dtype]).

    Modelling conventions:
    - a pandas cell is [option value]; [None] is a missing cell (NaN/None);
    - numbers held by cells are integral ([Z]); statistics are computed
      exactly over [Q] (floating-point rounding is not modelled);
    - a [frame] is row-major: column labels, one dtype per column, rows;
    - numpy's [argsort], whose order among equal values is unspecified, is
      a parameter of the analyzer;
    - a Python [str] read from a file is held as the [string] of its UTF-8
      bytes;
    - Python exceptions are the [error] alternative of a sum type. *)

From Stdlib Require Import String Ascii List Bool ZArith NArith QArith Qminmax Lia.
From Stdlib Require Import Numbers.DecimalString Sorting.Permutation Sorting.Sorted.
Import ListNotations.
Open Scope string_scope.
Open Scope list_scope.
Open Scope nat_scope.

(** ** Python strings: [str.lower], [str.strip], [str.endswith] *)

(** Whitespace in the sense of Python's [str.strip], on the UTF-8 bytes
    of the string.  One byte: \t \n \v \f \r, the separators
    \x1c..\x1f, and space. *)
Definition is_space (c : ascii) : bool :=
  let n := nat_of_ascii c in
  ((9 <=? n)%nat && (n <=? 13)%nat) || ((28 <=? n)%nat && (n <=? 32)%nat).

(** Two bytes: U+0085 and U+00A0. *)
Definition is_space2 (c d : ascii) : bool :=
  (nat_of_ascii c =? 0xC2)%nat &&
  ((nat_of_ascii d =? 0x85)%nat || (nat_of_ascii d =? 0xA0)%nat).

(** Three bytes: U+1680, U+2000..U+200A, U+2028, U+2029, U+202F, U+205F
    and U+3000. *)
Definition is_space3 (c d e : ascii) : bool :=
  let c := nat_of_ascii c in
  let d := nat_of_ascii d in
  let e := nat_of_ascii e in
  ((c =? 0xE1) && (d =? 0x9A) && (e =? 0x80)) ||
  ((c =? 0xE2) && (d =? 0x80) &&
     (((0x80 <=? e) && (e <=? 0x8A)) || (e =? 0xA8) || (e =? 0xA9) || (e =? 0xAF))) ||
  ((c =? 0xE2) && (d =? 0x81) && (e =? 0x9F)) ||
  ((c =? 0xE3) && (d =? 0x80) && (e =? 0x80)).

(** The string is a sequence of whitespace characters. *)
Fixpoint all_space (s : string) : bool :=
  match s with
  | EmptyString => true
  | String c s1 =>
      if is_space c then all_space s1 else
      match s1 with
      | String d s2 =>
          if is_space2 c d then all_space s2 else
          match s2 with
          | String e s3 => if is_space3 c d e then all_space s3 else false
          | EmptyString => false
          end
      | EmptyString => false
      end
  end.

Fixpoint lstrip (s : string) : string :=
  match s with
  | EmptyString => EmptyString
  | String c s1 =>
      if is_space c then lstrip s1 else
      match s1 with
      | String d s2 =>
          if is_space2 c d then lstrip s2 else
          match s2 with
          | String e s3 => if is_space3 c d e then lstrip s3 else s
          | EmptyString => s
          end
      | EmptyString => s
      end
  end.

(** Drops the longest suffix made of whitespace characters.  A multi-byte
    whitespace character starts with a byte that never occurs inside
    another character, so on UTF-8 text the suffixes tried here start at
    character boundaries. *)
Fixpoint rstrip (s : string) : string :=
  match s with
  | EmptyString => EmptyString
  | String c s' => if all_space s then EmptyString else String c (rstrip s')
  end.

(** [s.strip()] *)
Definition strip (s : string) : string := rstrip (lstrip s).

Definition lower_char (c : ascii) : ascii :=
  let n := nat_of_ascii c in
  if (65 <=? n)%nat && (n <=? 90)%nat then ascii_of_nat (n + 32)%nat else c.

(** [s.lower()] on ASCII strings. *)
Fixpoint lower (s : string) : string :=
  match s with
  | EmptyString => EmptyString
  | String c s' => String (lower_char c) (lower s')
  end.

(** [s.endswith(suf)]: some suffix of [s] equals [suf]. *)
Fixpoint ends_with (suf s : string) : bool :=
  String.eqb s suf ||
  match s with
  | EmptyString => false
  | String _ s' => ends_with suf s'
  end.

(** [Path(p).name]: the last component of a '/'-separated path, where
    pathlib drops the empty components and the "." ones. *)
Definition skip_component (cur : string) : bool :=
  String.eqb cur "" || String.eqb cur ".".

Fixpoint path_name_aux (last cur s : string) : string :=
  match s with
  | EmptyString => if skip_component cur then last else cur
  | String c s' =>
      if Ascii.eqb c "/" then
        path_name_aux (if skip_component cur then last else cur) "" s'
      else path_name_aux last (String.append cur (String c EmptyString)) s'
  end.

Definition path_name (p : string) : string := path_name_aux "" "" p.

(** ** Cells, dtypes and frames *)

Inductive value : Type :=
| VNum (z : Z)
| VBool (b : bool)
| VStr (s : string).

Definition cell := option value.
Definition row := list cell.

Inductive dtype : Type := DInt64 | DFloat64 | DBool | DObject.

Record frame : Type := mkFrame {
  columns : list value;
  dtypes : list dtype;
  rows : list row
}.

Inductive error : Type :=
| UnsupportedFormat      (* ValueError("Unsupported file type ...") *)
| DecodeFailure          (* UnicodeDecodeError *)
| ParseFailure           (* pandas ParserError *)
| ColumnAccessFailure.   (* AttributeError: df[col] is a DataFrame *)

Definition value_eq_dec : forall x y : value, {x = y} + {x <> y}.
Proof. decide equality; auto using Z.eq_dec, bool_dec, string_dec. Defined.

Definition cell_eq_dec : forall x y : cell, {x = y} + {x <> y}.
Proof. decide equality; apply value_eq_dec. Defined.

Definition row_eq_dec : forall x y : row, {x = y} + {x <> y} :=
  list_eq_dec cell_eq_dec.

Definition value_eqb (x y : value) : bool :=
  if value_eq_dec x y then true else false.

Definition dtype_eqb (x y : dtype) : bool :=
  match x, y with
  | DInt64, DInt64 | DFloat64, DFloat64 | DBool, DBool | DObject, DObject => true
  | _, _ => false
  end.

(** [str(v)] for the values a cell holds (integers, booleans, strings). *)
Definition py_str (v : value) : string :=
  match v with
  | VNum z => NilEmpty.string_of_int (Z.to_int z)
  | VBool true => "True"
  | VBool false => "False"
  | VStr s => s
  end.

(** [pd.isna] on a cell. *)
Definition is_missing (c : cell) : bool :=
  match c with None => true | Some _ => false end.

(** ** Column access: [df[col]] *)

(** [df[col]] yields a Series only when exactly one column carries the
    label [col]; with a repeated label it yields a DataFrame, whose
    [.dtype] raises [AttributeError]. *)
Definition col_index (df : frame) (lbl : value) : option nat :=
  match filter (fun p => value_eqb (snd p) lbl)
               (combine (seq 0 (length (columns df))) (columns df)) with
  | [(i, _)] => Some i
  | _ => None
  end.

Definition col_cells (df : frame) (j : nat) : list cell :=
  map (fun r => nth j r None) (rows df).

Fixpoint replace_nth {A} (j : nat) (x : A) (l : list A) : list A :=
  match l, j with
  | [], _ => []
  | _ :: l', O => x :: l'
  | y :: l', S j' => y :: replace_nth j' x l'
  end.

(** [df[col] = f(df[col])] for the column at position [j]. *)
Definition map_col (j : nat) (f : cell -> cell) (df : frame) : frame :=
  mkFrame (columns df) (dtypes df)
          (map (fun r => replace_nth j (f (nth j r None)) r) (rows df)).

(** ** [load_and_clean], cleaning part (lines 22-37) *)

(** [df.columns = [str(c).strip() for c in df.columns]] *)
Definition clean_columns (df : frame) : frame :=
  mkFrame (map (fun c => VStr (strip (py_str c))) (columns df))
          (dtypes df) (rows df).

(** [s.astype(str).str.strip()] on one cell: a missing cell becomes the
    string "nan" under [astype(str)]. *)
Definition trim_cell (c : cell) : cell :=
  Some (VStr (strip (match c with None => "nan" | Some v => py_str v end))).

(** [for col in df.columns:
       if df[col].dtype == "object":
           df[col] = df[col].astype(str).str.strip()] *)
Fixpoint trim_loop (lbls : list value) (df : frame) : error + frame :=
  match lbls with
  | [] => inr df
  | l :: ls =>
      match col_index df l with
      | None => inl ColumnAccessFailure
      | Some j =>
          if dtype_eqb (nth j (dtypes df) DObject) DObject
          then trim_loop ls (map_col j trim_cell df)
          else trim_loop ls df
      end
  end.

(** [df.dropna(how="all")] *)
Definition dropna_all (df : frame) : frame :=
  mkFrame (columns df) (dtypes df)
          (filter (fun r => negb (forallb is_missing r)) (rows df)).

(** [df.drop_duplicates()]: a row is kept when no row seen before equals it
    (missing equals missing, as in pandas' [duplicated]). *)
Fixpoint dedup_seen (seen : list row) (rs : list row) : list row :=
  match rs with
  | [] => []
  | r :: rs' =>
      if in_dec row_eq_dec r seen then dedup_seen seen rs'
      else r :: dedup_seen (r :: seen) rs'
  end.

Definition drop_duplicates (df : frame) : frame :=
  mkFrame (columns df) (dtypes df) (dedup_seen [] (rows df)).

(** Lines 23-29: header normalisation and string trimming. *)
Definition normalize (df : frame) : error + frame :=
  let df := clean_columns df in
  trim_loop (columns df) df.

(** Lines 23-37, applied to the frame the parser returned. *)
Definition clean (df : frame) : error + frame :=
  match normalize df with
  | inl e => inl e
  | inr df => inr (drop_duplicates (dropna_all df))
  end.

(** ** [pd.read_csv]: type inference on the tokenized fields

    The fragment of pandas' default inference used here: a field equal to
    one of the default NA strings is missing; a column of boolean literals
    is [bool] (or [object] when it also has a missing cell, as [bool]
    cannot hold NaN); a column of integer literals (optionally written with
    a point and zero decimals, as [to_csv] writes integral floats) is
    [int64], or [float64] when it has a missing cell or a decimal point; an
    entirely missing column is [float64]; a column with no rows is [object];
    anything else is [object] holding the raw field strings.  Numbers may
    be surrounded by spaces, as the parser's number conversions skip them.
    Exponents and non-integral decimals are outside this fragment (such a
    column is [float64] for pandas and [object] here).  The CSV text layer
    (quoting, delimiters) is the tokenizer's business and is not modelled:
    fields are what [to_csv] writes and what the tokenizer returns. *)

Definition na_values : list string :=
  [""; "#N/A"; "#N/A N/A"; "#NA"; "-1.#IND"; "-1.#QNAN"; "-NaN"; "-nan";
   "1.#IND"; "1.#QNAN"; "<NA>"; "N/A"; "NA"; "NULL"; "NaN"; "None"; "n/a";
   "nan"; "null"].

Definition is_na (f : string) : bool := existsb (String.eqb f) na_values.

(** The parser's [to_boolean]: [strcasecmp] against "TRUE" and "FALSE". *)
Definition bool_lit (f : string) : option bool :=
  if String.eqb (lower f) "true" then Some true
  else if String.eqb (lower f) "false" then Some false
  else None.

(** The parser's [isspace_ascii]: space and \t..\r. *)
Definition is_c_space (c : ascii) : bool :=
  let n := nat_of_ascii c in (n =? 32)%nat || ((9 <=? n)%nat && (n <=? 13)%nat).

Fixpoint skip_c_space (l : list ascii) : list ascii :=
  match l with
  | [] => []
  | c :: l' => if is_c_space c then skip_c_space l' else l
  end.

(** [str_to_int64] and [xstrtod] skip leading and trailing spaces. *)
Definition c_trim (f : string) : string :=
  string_of_list_ascii (rev (skip_c_space (rev (skip_c_space (list_ascii_of_string f))))).

Definition digit_val (c : ascii) : option Z :=
  let n := nat_of_ascii c in
  if (48 <=? n)%nat && (n <=? 57)%nat then Some (Z.of_nat (n - 48)) else None.

Fixpoint all_zeros (s : string) : bool :=
  match s with
  | EmptyString => true
  | String c s' => Ascii.eqb c "0" && all_zeros s'
  end.

(** Digits, then optionally a point followed by zeros; the flag records
    the point. *)
Fixpoint parse_uint (acc : Z) (seen : bool) (s : string) : option (Z * bool) :=
  match s with
  | EmptyString => if seen then Some (acc, false) else None
  | String c s' =>
      match digit_val c with
      | Some d => parse_uint (acc * 10 + d)%Z true s'
      | None =>
          if Ascii.eqb c "." && seen && all_zeros s' then Some (acc, true)
          else None
      end
  end.

Definition parse_num (f0 : string) : option (Z * bool) :=
  let f := c_trim f0 in
  match f with
  | String c s' =>
      if Ascii.eqb c "-" then
        option_map (fun p => (Z.opp (fst p), snd p)) (parse_uint 0 false s')
      else if Ascii.eqb c "+" then parse_uint 0 false s'
      else parse_uint 0 false f
  | EmptyString => None
  end.

Definition has_point (f : string) : bool :=
  match parse_num f with Some (_, true) => true | _ => false end.

(** The dtype and cells pandas infers for one column of fields. *)
Definition infer_column (fs : list string) : dtype * list cell :=
  let nn := filter (fun f => negb (is_na f)) fs in
  let has_na := existsb is_na fs in
  match fs with
  | [] => (DObject, [])
  | _ :: _ =>
      if forallb is_na fs then (DFloat64, map (fun _ => None) fs)
      else if forallb (fun f => if bool_lit f then true else false) nn then
        (if has_na then DObject else DBool,
         map (fun f => if is_na f then None else option_map VBool (bool_lit f)) fs)
      else if forallb (fun f => if parse_num f then true else false) nn then
        (if has_na || existsb has_point nn then DFloat64 else DInt64,
         map (fun f => if is_na f then None
                       else option_map (fun p => VNum (fst p)) (parse_num f)) fs)
      else (DObject, map (fun f => if is_na f then None else Some (VStr f)) fs)
  end.

Definition nat_str (n : nat) : string := NilEmpty.string_of_uint (Nat.to_uint n).

(** Header labels: an empty header becomes ["Unnamed: j"], and a repeated
    header gets the suffix [".k"] for its [k]-th repetition. *)
Fixpoint mangle_aux (seen : list string) (j : nat) (hdr : list string) : list string :=
  match hdr with
  | [] => []
  | h :: t =>
      let h := if String.eqb h "" then String.append "Unnamed: " (nat_str j) else h in
      let k := count_occ string_dec seen h in
      (if (k =? 0)%nat then h else String.append h (String.append "." (nat_str k)))
        :: mangle_aux (h :: seen) (S j) t
  end.

Definition read_csv_fields (hdr : list string) (body : list (list string)) : frame :=
  let n := length hdr in
  let inferred := map (fun j => infer_column (map (fun r => nth j r "") body))
                      (seq 0 n) in
  mkFrame (map VStr (mangle_aux [] 0 hdr))
          (map fst inferred)
          (map (fun i => map (fun col => nth i (snd col) None) inferred)
               (seq 0 (length body))).

(** [df.to_csv(index=False)], at the level of fields: missing cells are
    written empty and integral floats with a trailing [".0"]. *)
Definition render_cell (d : dtype) (c : cell) : string :=
  match c with
  | None => ""
  | Some v =>
      if dtype_eqb d DFloat64 then String.append (py_str v) ".0" else py_str v
  end.

Definition to_csv_fields (df : frame) : list string * list (list string) :=
  (map py_str (columns df),
   map (fun r => map (fun p => render_cell (fst p) (snd p)) (combine (dtypes df) r))
       (rows df)).

(** A frame whose cells fit their column's dtype, as pandas guarantees:
    [int64] holds integers and no missing cell, [float64] numbers or
    missing cells, [bool] booleans only, [object] anything. *)
Definition cell_fits (d : dtype) (c : cell) : bool :=
  match d, c with
  | DInt64, Some (VNum _) => true
  | DFloat64, Some (VNum _) => true
  | DFloat64, None => true
  | DBool, Some (VBool _) => true
  | DObject, _ => true
  | _, _ => false
  end.

Definition well_typed (df : frame) : bool :=
  (length (dtypes df) =? length (columns df))%nat &&
  forallb (fun r => (length r =? length (columns df))%nat &&
                    forallb (fun p => cell_fits (fst p) (snd p)) (combine (dtypes df) r))
          (rows df).

(** ** [analyze_dataframe] (analyzer.py) *)

Inductive stats : Type :=
| Numeric (min max mean : option Q)         (* info["kind"] = "numeric" *)
| Text (top_values : list (string * nat)).  (* info["kind"] = "text" *)

Record profile : Type := mkProfile {
  column : string;
  dtype_name : string;
  missing : nat;
  pstats : stats
}.

Definition dtype_str (d : dtype) : string :=
  match d with
  | DInt64 => "int64" | DFloat64 => "float64" | DBool => "bool" | DObject => "object"
  end.

(** [pandas.api.types.is_numeric_dtype]: booleans count as numeric. *)
Definition is_numeric_dtype (d : dtype) : bool :=
  match d with DObject => false | _ => true end.

(** [float(x)]; a string never reaches it in a well-typed numeric column. *)
Definition py_float (v : value) : option Q :=
  match v with
  | VNum z => Some (inject_Z z)
  | VBool b => Some (if b then 1%Q else 0%Q)
  | VStr _ => None
  end.

(** [s.dropna()] *)
Fixpoint somes (cs : list cell) : list value :=
  match cs with
  | [] => []
  | Some v :: cs' => v :: somes cs'
  | None :: cs' => somes cs'
  end.

Fixpoint all_some {A} (l : list (option A)) : option (list A) :=
  match l with
  | [] => Some []
  | Some x :: l' => option_map (cons x) (all_some l')
  | None :: _ => None
  end.

(** [float(non_null.min())], [float(non_null.max())],
    [float(non_null.mean())], each [None] when [non_null.empty]. The cells
    of the fragment are integers and the mean here is the exact rational;
    pandas computes it in float64, rounded, so only which of the three are
    [None] is meant to match, not the digits of the mean. *)
Definition numeric_stats (qs : list Q) : option Q * option Q * option Q :=
  match qs with
  | [] => (None, None, None)
  | q :: qs' =>
      (Some (fold_left Qmin qs' q), Some (fold_left Qmax qs' q),
       Some (fold_left Qplus qs' q / inject_Z (Z.of_nat (length qs)))%Q)
  end.

(** [value_counts()]: the hash table of [value_counts_internal] lists the
    distinct values in order of first occurrence, each with its number of
    occurrences; [sort_values(ascending=False)] then orders them by
    decreasing count through [nargsort]. *)
Fixpoint uniq_first (seen : list string) (xs : list string) : list string :=
  match xs with
  | [] => []
  | x :: xs' =>
      if in_dec string_dec x seen then uniq_first seen xs'
      else x :: uniq_first (x :: seen) xs'
  end.

Definition counts (xs : list string) : list (string * nat) :=
  map (fun v => (v, count_occ string_dec xs v)) (uniq_first [] xs).

Section Analyzer.

(** numpy's [argsort(kind="quicksort")] on the counts: a permutation of the
    indices that orders the values.  Which of several equal values comes
    first is not specified; it depends on the numpy build and the CPU
    (introsort, or x86-simd-sort), and is not stable in general. *)
Variable argsort : list nat -> list nat.

(** pandas' [nargsort(items, kind="quicksort", ascending=False)] with no
    missing count: it sorts the reversed items and reverses the result, so
    that a stable [argsort] would keep equal counts in their original
    order. *)
Definition nargsort_desc (items : list nat) : list nat :=
  let non_nan_idx := rev (seq 0 (length items)) in
  rev (map (fun k => nth k non_nan_idx 0%nat) (argsort (rev items))).

Definition value_counts (xs : list string) : list (string * nat) :=
  let c := counts xs in
  map (fun i => nth i c (""%string, 0%nat)) (nargsort_desc (map snd c)).

(** [s.dropna().astype(str).value_counts().head(5)] *)
Definition top_values (cs : list cell) : list (string * nat) :=
  firstn 5 (value_counts (map py_str (somes cs))).

Definition count_missing (cs : list cell) : nat :=
  length (filter is_missing cs).

(** The body of the loop for one column [s = df[col]]. *)
Definition analyze_column (lbl : value) (d : dtype) (cs : list cell) : option profile :=
  let mk := mkProfile (py_str lbl) (dtype_str d) (count_missing cs) in
  if is_numeric_dtype d then
    match all_some (map py_float (somes cs)) with
    | None => None
    | Some qs =>
        let '(mn, mx, mean) := numeric_stats qs in Some (mk (Numeric mn mx mean))
    end
  else Some (mk (Text (top_values cs))).

Fixpoint analyze_loop (lbls : list value) (df : frame) : option (list profile) :=
  match lbls with
  | [] => Some []
  | l :: ls =>
      match col_index df l with
      | None => None
      | Some j =>
          match analyze_column l (nth j (dtypes df) DObject) (col_cells df j),
                analyze_loop ls df with
          | Some p, Some ps => Some (p :: ps)
          | _, _ => None
          end
      end
  end.

Definition analyze_dataframe (df : frame) : option (list profile) :=
  analyze_loop (columns df) df.

End Analyzer.

(** ** Decoding: UTF-8, Latin-1 and Windows-1252 *)

Definition is_cont (b : N) : bool := (0x80 <=? b)%N && (b <=? 0xBF)%N.

Definition payload (b : N) : N := N.land b 0x3F.

(** Python's strict [bytes.decode("utf-8")]: overlong forms, surrogates and
    code points above U+10FFFF are rejected. *)
Fixpoint utf8_dec (l : list N) : option (list N) :=
  match l with
  | [] => Some []
  | b0 :: r =>
      if (b0 <? 0x80)%N then option_map (cons b0) (utf8_dec r)
      else if (0xC2 <=? b0)%N && (b0 <=? 0xDF)%N then
        match r with
        | b1 :: r' =>
            if is_cont b1
            then option_map (cons (N.lor (N.shiftl (N.land b0 0x1F) 6) (payload b1)))
                            (utf8_dec r')
            else None
        | _ => None
        end
      else if (0xE0 <=? b0)%N && (b0 <=? 0xEF)%N then
        match r with
        | b1 :: b2 :: r' =>
            let cp := N.lor (N.shiftl (N.land b0 0x0F) 12)
                            (N.lor (N.shiftl (payload b1) 6) (payload b2)) in
            if is_cont b1 && is_cont b2 && (0x800 <=? cp)%N
               && negb ((0xD800 <=? cp)%N && (cp <=? 0xDFFF)%N)
            then option_map (cons cp) (utf8_dec r')
            else None
        | _ => None
        end
      else if (0xF0 <=? b0)%N && (b0 <=? 0xF4)%N then
        match r with
        | b1 :: b2 :: b3 :: r' =>
            let cp := N.lor (N.shiftl (N.land b0 0x07) 18)
                        (N.lor (N.shiftl (payload b1) 12)
                               (N.lor (N.shiftl (payload b2) 6) (payload b3))) in
            if is_cont b1 && is_cont b2 && is_cont b3
               && (0x10000 <=? cp)%N && (cp <=? 0x10FFFF)%N
            then option_map (cons cp) (utf8_dec r')
            else None
        | _ => None
        end
      else None
  end.

(** Windows-1252 for the bytes 0x80..0x9F; 0x81, 0x8D, 0x8F, 0x90 and 0x9D
    are undefined and fail to decode. *)
Definition cp1252_high : list (N * N) :=
  [(0x80, 0x20AC); (0x82, 0x201A); (0x83, 0x0192); (0x84, 0x201E);
   (0x85, 0x2026); (0x86, 0x2020); (0x87, 0x2021); (0x88, 0x02C6);
   (0x89, 0x2030); (0x8A, 0x0160); (0x8B, 0x2039); (0x8C, 0x0152);
   (0x8E, 0x017D); (0x91, 0x2018); (0x92, 0x2019); (0x93, 0x201C);
   (0x94, 0x201D); (0x95, 0x2022); (0x96, 0x2013); (0x97, 0x2014);
   (0x98, 0x02DC); (0x99, 0x2122); (0x9A, 0x0161); (0x9B, 0x203A);
   (0x9C, 0x0153); (0x9E, 0x017E); (0x9F, 0x0178)]%N.

Fixpoint assoc_N (k : N) (t : list (N * N)) : option N :=
  match t with
  | [] => None
  | (k', v) :: t' => if (k =? k')%N then Some v else assoc_N k t'
  end.

Definition cp1252_char (b : N) : option N :=
  if (0x80 <=? b)%N && (b <=? 0x9F)%N then assoc_N b cp1252_high else Some b.

Inductive encoding : Type := UTF8 | Latin1 | CP1252.

Definition decode (e : encoding) (bs : list Byte.byte) : option (list N) :=
  let l := map Byte.to_N bs in
  match e with
  | UTF8 => utf8_dec l
  | Latin1 => Some l
  | CP1252 => all_some (map cp1252_char l)
  end.

(** [str.encode("utf-8")], one code point at a time. *)
Definition utf8_enc1 (cp : N) : list N :=
  if (cp <? 0x80)%N then [cp]
  else if (cp <? 0x800)%N then
    [N.lor 0xC0 (N.shiftr cp 6); N.lor 0x80 (N.land cp 0x3F)]
  else if (cp <? 0x10000)%N then
    [N.lor 0xE0 (N.shiftr cp 12); N.lor 0x80 (N.land (N.shiftr cp 6) 0x3F);
     N.lor 0x80 (N.land cp 0x3F)]
  else
    [N.lor 0xF0 (N.shiftr cp 18); N.lor 0x80 (N.land (N.shiftr cp 12) 0x3F);
     N.lor 0x80 (N.land (N.shiftr cp 6) 0x3F); N.lor 0x80 (N.land cp 0x3F)].

Definition utf8_enc (txt : list N) : list N := flat_map utf8_enc1 txt.

Definition is_some {A} (o : option A) : bool :=
  match o with Some _ => true | None => false end.

(** A field (a byte string) that decodes as UTF-8. *)
Definition utf8_ok (f : string) : bool :=
  is_some (utf8_dec (map N_of_ascii (list_ascii_of_string f))).

(** One step of [utf8_dec] on the encoding of a code point below 256, as
    a boolean test (evaluated over all 256 code points in the lemmas). *)
Definition enc_check (n : N) : bool :=
  match utf8_enc1 n with
  | [b] => (b <? 0x80)%N && (b =? n)%N
  | [h; l] =>
      negb (h <? 0x80)%N && ((0xC2 <=? h)%N && (h <=? 0xDF)%N) && is_cont l &&
      (N.lor (N.shiftl (N.land h 0x1F) 6) (payload l) =? n)%N
  | _ => false
  end.

(** ** [load_and_clean] (cleaner.py, lines 4-37) *)

(** What reading the uploaded file can observe: its bytes, and what
    [pd.read_excel] makes of it (a frame, or a parse failure). *)
Record world : Type := mkWorld {
  file_bytes : list Byte.byte;
  excel_sheet : error + frame
}.

(** The I/O the loader performs, in order. *)
Inductive event : Type :=
| ReadCsv (e : encoding)   (* pd.read_csv(path, encoding=e) *)
| ReadExcel.               (* pd.read_excel(path) *)

Definition res_bind {A B} (r : error + A) (k : A -> error + B) : error + B :=
  match r with inl e => inl e | inr a => k a end.

Section Loader.

(** The C tokenizer of [pd.read_csv] on a byte buffer.  [None]: the
    header rows cannot be tokenized; otherwise the header fields, and the
    data rows or [None] when a later row is malformed ([ParserError], e.g.
    a row with more fields than the header).  Fields are byte strings. *)
Variable tokenize : list N -> option (list string * option (list (list string))).

(** The buffer the C parser tokenizes.  With [encoding="utf-8"] and a path,
    pandas opens the file in binary mode and the parser reads the raw
    bytes; with another encoding it opens the file as text, which decodes
    it, and the parser re-encodes what it reads as UTF-8. *)
Definition read_buffer (e : encoding) (bs : list Byte.byte) : option (list N) :=
  match e with
  | UTF8 => Some (map Byte.to_N bs)
  | Latin1 | CP1252 => option_map utf8_enc (decode e bs)
  end.

(** [pd.read_csv(path, encoding=e)] with the C engine.  Building the reader
    tokenizes the header rows and decodes the header fields as UTF-8
    ([UnicodeDecodeError] on an invalid sequence); reading then tokenizes
    the data rows and decodes their fields.  So a file whose bytes are not
    valid UTF-8 fails with [ParserError], not [UnicodeDecodeError], when
    its data rows are malformed.  (pandas tokenizes and converts the data
    rows in chunks of about 2^19 / (number of columns) rows; the model
    treats them as one chunk.) *)
Definition read_csv (e : encoding) (w : world) : error + frame :=
  match read_buffer e (file_bytes w) with
  | None => inl DecodeFailure
  | Some buf =>
      match tokenize buf with
      | None => inl ParseFailure
      | Some (hdr, body) =>
          if negb (forallb utf8_ok hdr) then inl DecodeFailure
          else match body with
               | None => inl ParseFailure
               | Some rs =>
                   if forallb (forallb utf8_ok) rs then inr (read_csv_fields hdr rs)
                   else inl DecodeFailure
               end
      end
  end.

(** Lines 9-16: UTF-8, on [UnicodeDecodeError] Latin-1, then cp1252. *)
Definition load_csv (w : world) : list event * (error + frame) :=
  match read_csv UTF8 w with
  | inl DecodeFailure =>
      match read_csv Latin1 w with
      | inl DecodeFailure =>
          ([ReadCsv UTF8; ReadCsv Latin1; ReadCsv CP1252], read_csv CP1252 w)
      | r => ([ReadCsv UTF8; ReadCsv Latin1], r)
      end
  | r => ([ReadCsv UTF8], r)
  end.

Definition load_and_clean (w : world) (path : string) : list event * (error + frame) :=
  let name := lower (path_name path) in
  if ends_with ".csv" name then
    let '(ev, r) := load_csv w in (ev, res_bind r clean)
  else if ends_with ".xlsx" name then
    ([ReadExcel], res_bind (excel_sheet w) clean)
  else ([], inl UnsupportedFormat).

End Loader.

(** A comma/newline tokenizer on bytes, used to run examples: empty lines
    are skipped, and a data row with more fields than the header is a
    parse error. *)
Fixpoint split_on (sep : N) (l : list N) : list (list N) :=
  match l with
  | [] => [[]]
  | c :: l' =>
      let parts := split_on sep l' in
      if (c =? sep)%N then [] :: parts
      else match parts with
           | p :: ps => (c :: p) :: ps
           | [] => [[c]]
           end
  end.

Definition string_of_codes (l : list N) : string :=
  string_of_list_ascii (map (fun n => ascii_of_N n) l).

Definition simple_tokenize (buf : list N)
    : option (list string * option (list (list string))) :=
  if negb (forallb (fun b => (b <? 256)%N) buf) then None else
  let lines := filter (fun l => negb (length l =? 0)%nat) (split_on 10 buf) in
  match map (fun l => map string_of_codes (split_on 44 l)) lines with
  | [] => None
  | h :: b =>
      if existsb (fun r => (length h <? length r)%nat) b then Some (h, None)
      else Some (h, Some b)
  end.

(** The inverse of [split_on]: the pieces joined by the separator. *)
Fixpoint join_on (sep : N) (ps : list (list N)) : list N :=
  match ps with
  | [] => []
  | [p] => p
  | p :: ps' => p ++ sep :: join_on sep ps'
  end.

Definition bytes_of_string (s : string) : list Byte.byte :=
  map byte_of_ascii (list_ascii_of_string s).

Definition ex_csv : string :=
  "name,age
 Alice ,30
Bob,
Bob,
".

Definition w_empty : world := mkWorld [] (inl ParseFailure).

(** "caf\xe9,n\nx,1\n": Latin-1 for "café", not valid UTF-8. *)
Definition ex_latin1_bytes : list Byte.byte :=
  bytes_of_string "caf" ++ [Byte.xe9] ++ bytes_of_string ",n
x,1
".


(** "name,age\nBob,1\n,2\n": the second name is missing. *)
Definition ex_nan_csv : string :=
  "name,age
Bob,1
,2
".

(** "name,age\nBob,1\n,\n": the second row is entirely missing. *)
Definition ex_empty_row_csv : string :=
  "name,age
Bob,1
,
".

Definition load_text (path s : string) : list event * (error + frame) :=
  load_and_clean simple_tokenize (mkWorld (bytes_of_string s) (inl ParseFailure)) path.

(** The end-to-end example of the specification. *)
Example spec_example :
  let w := mkWorld (bytes_of_string ex_csv) (inl ParseFailure) in
  load_and_clean simple_tokenize w "uploads/people.csv" =
    ([ReadCsv UTF8],
     inr (mkFrame [VStr "name"; VStr "age"] [DObject; DFloat64]
                  [[Some (VStr "Alice"); Some (VNum 30)]; [Some (VStr "Bob"); None]])).
Proof. vm_compute. reflexivity. Qed.

(** ** Predicates used in the statements *)

(** What the CSV tokenizer does to UTF-8: it only cuts at, and removes,
    ASCII bytes (delimiters, quotes, line ends) and a leading byte-order
    mark, so a buffer is valid UTF-8 exactly when the fields it yields
    are. *)
Definition tokenizer_utf8
    (tok : list N -> option (list string * option (list (list string)))) : Prop :=
  forall buf hdr r, tok buf = Some (hdr, r) ->
    (utf8_dec buf <> None ->
       forallb utf8_ok hdr = true /\
       forall rs, r = Some rs -> forallb (forallb utf8_ok) rs = true) /\
    (forall rs, r = Some rs -> forallb utf8_ok hdr = true ->
       forallb (forallb utf8_ok) rs = true -> utf8_dec buf <> None).

(** A cell a numeric-dtype column can hold: no string. *)
Definition num_ok (d : dtype) (c : cell) : bool :=
  negb (is_numeric_dtype d) || match c with Some (VStr _) => false | _ => true end.

Definition numeric_cells_ok (df : frame) : Prop :=
  forall r j, In r (rows df) -> num_ok (nth j (dtypes df) DObject) (nth j r None) = true.

(** Column [j] holds, in every row that has a cell there, a string that
    [strip] leaves unchanged. *)
Definition col_trimmed (df : frame) (j : nat) : Prop :=
  forall r, In r (rows df) -> (j < length r)%nat ->
  exists s, nth j r None = Some (VStr s) /\ strip s = s.

Definition row_eqb (x y : row) : bool := if row_eq_dec x y then true else false.

(** The specification's reading of deduplication: row [i] is kept exactly
    when none of the rows before it is equal to it; kept rows stay in
    order. *)
Definition spec_drop_duplicates (rs : list row) : list row :=
  map snd (filter (fun p => negb (existsb (row_eqb (snd p)) (firstn (fst p) rs)))
                  (combine (seq 0 (length rs)) rs)).

(** Index of the first occurrence of [v] in [xs]. *)
Fixpoint first_occ (v : string) (xs : list string) : nat :=
  match xs with
  | [] => 0
  | x :: xs' => if String.eqb x v then 0 else S (first_occ v xs')
  end.

(** What numpy promises of [argsort]: a permutation of the indices that
    lists the values in increasing order. *)
Definition argsort_spec (argsort : list nat -> list nat) : Prop :=
  forall v, Permutation (argsort v) (seq 0 (length v)) /\
            Sorted (fun i j => nth i v 0 <= nth j v 0) (argsort v).

(** Sorting indices by insertion: [le i j] tells whether index [i] goes
    before index [j]. *)
Fixpoint insert_idx (le : nat -> nat -> bool) (i : nat) (l : list nat) : list nat :=
  match l with
  | [] => [i]
  | j :: l' => if le i j then i :: j :: l' else j :: insert_idx le i l'
  end.

Fixpoint isort_idx (le : nat -> nat -> bool) (l : list nat) : list nat :=
  match l with
  | [] => []
  | i :: l' => insert_idx le i (isort_idx le l')
  end.

(** Two sorts that meet [argsort_spec]: one keeps equal values in index
    order (a stable sort), the other puts them in reverse index order. *)
Definition argsort_stable (v : list nat) : list nat :=
  isort_idx (fun i j => nth i v 0 <=? nth j v 0) (seq 0 (length v)).

Definition argsort_ties_reversed (v : list nat) : list nat :=
  isort_idx (fun i j => nth i v 0 <? nth j v 0) (seq 0 (length v)).

(** Frames used by the witnesses below. *)

Definition ex_text_cells : list cell :=
  [Some (VStr "b"); Some (VStr "a"); None; Some (VStr "a"); Some (VStr "c");
   Some (VStr "b"); Some (VStr "d"); Some (VStr "e"); Some (VStr "f")].

Definition ex_dup_frame : frame :=
  read_csv_fields ["a"; "b"] [[" x"; "1"]; ["x "; "1"]; ["x"; "2"]].

Definition frame_of (r : error + frame) : frame :=
  match r with inr d => d | inl _ => mkFrame [] [] [] end.

Definition ex_empty_numeric : frame :=
  read_csv_fields ["id"; "score"] [["1"; ""]; ["2"; "NA"]].

Definition ex_edge_frame : frame :=
  read_csv_fields [" name"; "empty"; "flag"] [["Bob "; ""; "True"]; [""; ""; "False"]].


(** * The web application (backend/main.py) *)

(** ** Paths and the data directory *)

(** The '/'-separated components of a path string. *)
Fixpoint path_comps (s : string) : list string :=
  match s with
  | EmptyString => [EmptyString]
  | String c s' =>
      let r := path_comps s' in
      if Ascii.eqb c "/" then EmptyString :: r
      else match r with
           | h :: t => String c h :: t
           | [] => [String c EmptyString]
           end
  end.

(** [PurePosixPath(s).parts] without the root: empty and "." components
    are dropped, ".." is kept. *)
Definition path_parts (s : string) : list string :=
  filter (fun c => negb (String.eqb c "") && negb (String.eqb c ".")) (path_comps s).

(** [Path(a) / b]: an absolute [b] replaces [a]. *)
Definition path_join (a b : string) : string :=
  match b with
  | String c _ => if Ascii.eqb c "/" then b else String.append a (String "/" b)
  | EmptyString => a
  end.

(** Python's [sub in s] on strings. *)
Fixpoint contains (sub s : string) : bool :=
  String.prefix sub s ||
  match s with
  | EmptyString => false
  | String _ s' => contains sub s'
  end.

(** The file system as the handlers see it: the regular files, keyed by
    their path parts; which paths are directories; and whether
    [open(p, "wb")] succeeds at a path (the parent directory exists and
    may be written). *)
Record fs : Type := mkFs {
  fs_files : list (list string * list Byte.byte);
  fs_is_dir : list string -> bool;
  fs_writable : list string -> bool
}.

Fixpoint lookup_file (p : list string) (l : list (list string * list Byte.byte))
  : option (list Byte.byte) :=
  match l with
  | [] => None
  | (q, b) :: l' => if list_eq_dec string_dec p q then Some b else lookup_file p l'
  end.

Definition remove_file (p : list string) (l : list (list string * list Byte.byte))
  : list (list string * list Byte.byte) :=
  filter (fun e => if list_eq_dec string_dec p (fst e) then false else true) l.

(** [open(p, "wb").write(b)] *)
Definition fs_write (p : string) (b : list Byte.byte) (f : fs) : option fs :=
  let k := path_parts p in
  if fs_writable f k
  then Some (mkFs ((k, b) :: remove_file k (fs_files f)) (fs_is_dir f) (fs_writable f))
  else None.

(** [p.unlink(missing_ok=True)] inside [try: ... except Exception: pass] *)
Definition fs_unlink (p : string) (f : fs) : fs :=
  mkFs (remove_file (path_parts p) (fs_files f)) (fs_is_dir f) (fs_writable f).

(** [p.exists()] *)
Definition fs_exists (p : string) (f : fs) : bool :=
  fs_is_dir f (path_parts p) ||
  match lookup_file (path_parts p) (fs_files f) with Some _ => true | None => false end.

(** ** Database rows (SQLAlchemy models); datetimes are UTC seconds *)

Module User.
Record t : Type := mk {
  id : string;
  email : string;
  name : option string;
  hashed_password : string;
  created_at : Z
}.
End User.

Module UploadedFile.
Record t : Type := mk {
  id : string;
  user_id : option string;
  filename : string;
  rows : option nat;
  cols : option nat;
  cleaned_path : option string;
  report_path : option string;
  columns_json : option string;
  created_at : Z
}.
End UploadedFile.

(** The two tables, each in insertion order. *)
Record db : Type := mkDb {
  users : list User.t;
  uploaded_files : list UploadedFile.t
}.

(** ** Handler results *)

Record http_exception : Type := HTTPException {
  status_code : nat;
  detail : string
}.

(** A handler returns, raises an [HTTPException], or raises another
    exception, which FastAPI answers with a bare 500. *)
Inductive api (A : Type) : Type :=
| Ok (a : A)
| Raise (e : http_exception)
| Crash.

Arguments Ok {A} a.
Arguments Raise {A} e.
Arguments Crash {A}.

(** JWT claims: the ["sub"] entry of the data dict and ["exp"]. *)
Record claims : Type := mkClaims {
  sub : option string;
  exp : Z
}.

Definition ACCESS_TOKEN_EXPIRE_MINUTES : Z := 60 * 24 * 7.

(** The exceptions the upload handler's [try] turns into
    [HTTPException(500, detail=str(e))]. *)
Inductive upload_exc : Type :=
| ExcLoad (e : error)   (* load_and_clean *)
| ExcAnalyze            (* analyze_dataframe *)
| ExcExcel              (* df.to_excel *)
| ExcReport             (* generate_pdf_report *)
| ExcDb.                (* db.commit(): IntegrityError *)

Record upload_response : Type := mkUploadResponse {
  resp_id : string;
  resp_rows : nat;
  resp_cols : nat;
  preview : list (list (string * value));
  resp_columns : list profile;
  cleanedFile : string;
  reportPdf : string
}.

Inductive upload_result : Type :=
| Uploaded (r : upload_response)
| Rejected (e : http_exception)     (* HTTPException(400, ...) *)
| ServerError (e : upload_exc)      (* HTTPException(500, detail=str(e)) *)
| Unhandled.                        (* open(input_path, "wb") raised *)

(** The side effects of the upload handler, in order. *)
Inductive io : Type :=
| IOWrite (p : list string)
| IOLoad (e : event)
| IOUnlink (p : list string)
| IOCommit.

(** [df.head(10).fillna("").to_dict(orient="records")] *)
Definition fillna_empty (c : cell) : value :=
  match c with None => VStr "" | Some v => v end.

Definition preview_of (df : frame) : list (list (string * value)) :=
  map (fun r => combine (map py_str (columns df)) (map fillna_empty r)) (firstn 10 (rows df)).

Definition opt_bind {A B} (o : option A) (k : A -> option B) : option B :=
  match o with Some a => k a | None => None end.

Definition owned_by (uid : string) (r : UploadedFile.t) : bool :=
  match UploadedFile.user_id r with Some x => String.eqb x uid | None => false end.

Section App.

(** [DATA_DIR] *)
Variable DATA_DIR : string.
(** The libraries the handlers call: the CSV tokenizer of [pd.read_csv],
    [pd.read_excel] on the uploaded bytes, [df.to_excel] (the bytes
    written, or [None] when it raises), [generate_pdf_report] (from
    backend/services/report.py), [json.dumps] on the insights, the JWT
    codec at a given time (decoding fails on a bad signature or once
    ["exp"] has passed), and bcrypt's [verify]. *)
Variable tokenize : list N -> option (list string * option (list (list string))).
Variable read_excel : list Byte.byte -> error + frame.
Variable to_excel : frame -> option (list Byte.byte).
Variable generate_pdf_report : frame -> list profile -> string -> option (list Byte.byte).
Variable json_dumps : list profile -> string.
Variable argsort : list nat -> list nat.
Variable jwt_encode : claims -> string.
Variable jwt_decode : Z -> string -> option claims.
Variable verify_password : string -> string -> bool.
(** [json.loads] on a stored insights string, into a JSON type [J] with
    the empty list [[]]. *)
Variable J : Type.
Variable json_loads : string -> option J.
Variable json_empty_list : J.

(** ** Authentication *)

(** [create_access_token({"sub": sub})] at time [now] *)
Definition create_access_token (s : option string) (now : Z) : string :=
  jwt_encode (mkClaims s (now + ACCESS_TOKEN_EXPIRE_MINUTES * 60)).

Definition get_current_user (token : option string) (now : Z) (d : db) : option User.t :=
  match token with
  | None | Some EmptyString => None
  | Some t =>
      match jwt_decode now t with
      | None => None
      | Some c =>
          match sub c with
          | None => None
          | Some uid => find (fun u => String.eqb (User.id u) uid) (users d)
          end
      end
  end.

Definition require_user (cu : option User.t) : api User.t :=
  match cu with
  | None => Raise (HTTPException 401 "Not authenticated")
  | Some u => Ok u
  end.

(** [register]: [hashed] is [hash_password(req.password)], [new_id] the
    [uuid4().hex] default of [User.id]; a repeated id fails the commit. *)
Definition register (email : string) (name : option string) (hashed new_id : string)
    (now : Z) (d : db) : db * api string :=
  if existsb (fun u => String.eqb (User.email u) email) (users d)
  then (d, Raise (HTTPException 400 "Email already registered"))
  else if existsb (fun u => String.eqb (User.id u) new_id) (users d) then (d, Crash)
  else (mkDb (users d ++ [User.mk new_id email name hashed now]) (uploaded_files d),
        Ok (create_access_token (Some new_id) now)).

Definition login (username password : string) (now : Z) (d : db) : api string :=
  match find (fun u => String.eqb (User.email u) username) (users d) with
  | Some u =>
      if verify_password password (User.hashed_password u)
      then Ok (create_access_token (Some (User.id u)) now)
      else Raise (HTTPException 401 "Incorrect email or password")
  | None => Raise (HTTPException 401 "Incorrect email or password")
  end.

(** ** Upload *)

(** Lines 218-256: the body of the [try]. *)
Definition upload_body (fn : string) (content : list Byte.byte) (cu : option User.t)
    (uid rec_id : string) (now : Z) (input_path : string) (f : fs) (d : db)
    : list io * fs * db * upload_result :=
  let '(evs, r) := load_and_clean tokenize (mkWorld content (read_excel content)) input_path in
  let tr := map IOLoad evs in
  match r with
  | inl e => (tr, f, d, ServerError (ExcLoad e))
  | inr df =>
    match analyze_dataframe argsort df with
    | None => (tr, f, d, ServerError ExcAnalyze)
    | Some insights =>
      let excel_path := path_join DATA_DIR (String.append uid "_cleaned.xlsx") in
      match opt_bind (to_excel df) (fun b => fs_write excel_path b f) with
      | None => (tr, f, d, ServerError ExcExcel)
      | Some f1 =>
        let tr1 := tr ++ [IOWrite (path_parts excel_path)] in
        let pdf_path := path_join DATA_DIR (String.append uid "_report.pdf") in
        match opt_bind (generate_pdf_report df insights fn)
                          (fun b => fs_write pdf_path b f1) with
        | None => (tr1, f1, d, ServerError ExcReport)
        | Some f2 =>
          let tr2 := tr1 ++ [IOWrite (path_parts pdf_path)] in
          let cleaned := String.append "/download/" (path_name excel_path) in
          let report := String.append "/download/" (path_name pdf_path) in
          let resp := fun i => mkUploadResponse i (length (rows df)) (length (columns df))
                                                (preview_of df) insights cleaned report in
          match cu with
          | None => (tr2, f2, d, Uploaded (resp uid))
          | Some u =>
            if existsb (fun r => String.eqb (UploadedFile.id r) rec_id) (uploaded_files d)
            then (tr2, f2, d, ServerError ExcDb)
            else
              let record := UploadedFile.mk rec_id (Some (User.id u)) fn
                              (Some (length (rows df))) (Some (length (columns df)))
                              (Some cleaned) (Some report) (Some (json_dumps insights)) now in
              (tr2 ++ [IOCommit], f2, mkDb (users d) (uploaded_files d ++ [record]),
               Uploaded (resp rec_id))
          end
        end
      end
    end
  end.

(** [upload]: [uid] is [uuid.uuid4().hex], [rec_id] the id the database
    gives the new [UploadedFile] row. *)
Definition upload (filename : option string) (content : list Byte.byte) (cu : option User.t)
    (uid rec_id : string) (now : Z) (f : fs) (d : db) : list io * fs * db * upload_result :=
  match filename with
  | None | Some EmptyString => ([], f, d, Rejected (HTTPException 400 "No file uploaded"))
  | Some fn =>
    let name := lower fn in
    if negb (ends_with ".csv" name || ends_with ".xlsx" name)
    then ([], f, d, Rejected (HTTPException 400 "Only CSV or XLSX files are supported"))
    else
      let input_path := path_join DATA_DIR (String.append uid (String.append "_" fn)) in
      match fs_write input_path content f with
      | None => ([], f, d, Unhandled)
      | Some f1 =>
        let '(tr, f2, d2, res) := upload_body fn content cu uid rec_id now input_path f1 d in
        (IOWrite (path_parts input_path) :: tr ++ [IOUnlink (path_parts input_path)],
         fs_unlink input_path f2, d2, res)
      end
  end.

(** ** File history, deletion and download *)

Record history_item : Type := mkHistoryItem {
  h_id : string;
  h_filename : string;
  h_rows : option nat;
  h_cols : option nat;
  h_cleanedFile : option string;
  h_reportPdf : option string;
  h_created_at : Z;
  h_columns : option J    (* the "columns" key, absent when None *)
}.

Definition history_item_of (r : UploadedFile.t) : history_item :=
  mkHistoryItem (UploadedFile.id r) (UploadedFile.filename r) (UploadedFile.rows r)
    (UploadedFile.cols r) (UploadedFile.cleaned_path r) (UploadedFile.report_path r)
    (UploadedFile.created_at r)
    (match UploadedFile.columns_json r with
     | None | Some EmptyString => None
     | Some s => Some (match json_loads s with Some j => j | None => json_empty_list end)
     end).

(** [file_history]: [order_desc] is the database's
    [order_by(UploadedFile.created_at.desc())]. *)
Definition file_history (order_desc : list UploadedFile.t -> list UploadedFile.t)
    (cu : User.t) (d : db) : list history_item :=
  map history_item_of
      (firstn 20 (order_desc (filter (owned_by (User.id cu)) (uploaded_files d)))).

Definition delete_file (file_id : string) (cu : User.t) (d : db) : db * api bool :=
  match find (fun r => String.eqb (UploadedFile.id r) file_id && owned_by (User.id cu) r)
             (uploaded_files d) with
  | None => (d, Raise (HTTPException 404 "File not found"))
  | Some r =>
      (mkDb (users d)
            (filter (fun r' => negb (String.eqb (UploadedFile.id r') (UploadedFile.id r)))
                    (uploaded_files d)),
       Ok true)
  end.

(** [download]; [open] on a directory raises. *)
Definition download (filename : string) (f : fs) : api (list Byte.byte) :=
  if contains ".." filename || contains "/" filename
  then Raise (HTTPException 400 "Invalid filename")
  else
    let file_path := path_join DATA_DIR filename in
    if negb (fs_exists file_path f) then Raise (HTTPException 404 "File not found")
    else match lookup_file (path_parts file_path) (fs_files f) with
         | Some b => Ok b
         | None => Crash
         end.

End App.

(** ** Instances used by the examples below

    A data directory, an Excel reader returning a one-column sheet,
    writers returning fixed bytes, a readable token format for the JWT
    codec ("exp|sub", unsigned) and a password check against
    "hashed:" followed by the password. *)

Definition ex_dir : string := "/srv/data".

Definition ex_read_excel (b : list Byte.byte) : error + frame :=
  inr (read_csv_fields ["name"] [["Ada"]]).

Definition ex_to_excel (df : frame) : option (list Byte.byte) := Some (bytes_of_string "xlsx").

Definition ex_pdf (df : frame) (ps : list profile) (fn : string) : option (list Byte.byte) :=
  Some (bytes_of_string "pdf").

Definition ex_json_dumps (ps : list profile) : string := "[]".

Definition ex_fs : fs := mkFs [] (fun _ => false) (fun _ => true).

Definition ex_user : User.t := User.mk "u1" "ada@example.com" (Some "Ada") "hashed:pw" 0.

Definition ex_db : db := mkDb [ex_user] [].

Definition ex_upload (fn : option string) (cu : option User.t) : list io * fs * db * upload_result :=
  upload ex_dir simple_tokenize ex_read_excel ex_to_excel ex_pdf ex_json_dumps argsort_stable
         fn (bytes_of_string ex_csv) cu "ab12" "f1" 100 ex_fs ex_db.

Definition out_tr (o : list io * fs * db * upload_result) : list io := fst (fst (fst o)).
Definition out_fs (o : list io * fs * db * upload_result) : fs := snd (fst (fst o)).
Definition out_db (o : list io * fs * db * upload_result) : db := snd (fst o).
Definition out_resp (o : list io * fs * db * upload_result) : upload_response :=
  match snd o with Uploaded r => r | _ => mkUploadResponse "" 0 0 [] [] "" "" end.

Fixpoint split_bar (s : string) : string * string :=
  match s with
  | EmptyString => (EmptyString, EmptyString)
  | String c s' =>
      if Ascii.eqb c "|" then (EmptyString, s')
      else let '(a, b) := split_bar s' in (String c a, b)
  end.

Definition ex_jwt_encode (c : claims) : string :=
  String.append (NilEmpty.string_of_int (Z.to_int (exp c)))
    (String "|" (match sub c with Some s => s | None => EmptyString end)).

Definition ex_jwt_decode (now : Z) (tok : string) : option claims :=
  let '(a, b) := split_bar tok in
  match NilEmpty.int_of_string a with
  | Some i => if (Z.of_int i <? now)%Z then None else Some (mkClaims (Some b) (Z.of_int i))
  | None => None
  end.

Definition ex_verify (pw hashed : string) : bool := String.eqb hashed (String.append "hashed:" pw).

Definition ex_up_user : list io * fs * db * upload_result :=
  ex_upload (Some "people.csv") (Some ex_user).

Definition ex_up_lost : list io * fs * db * upload_result :=
  ex_upload (Some "cleaned.xlsx") None.

Definition ex_reg : db * api string :=
  register ex_jwt_encode "bob@example.com" (Some "Bob") "hashed:pw2" "u2" 100 ex_db.

Definition ex_file (id owner : string) (t : Z) : UploadedFile.t :=
  UploadedFile.mk id (Some owner) "data.csv" (Some 1) (Some 1) None None None t.

Definition ex_files_db : db :=
  mkDb [ex_user] [ex_file "f3" "u1" 30; ex_file "f2" "u9" 20; ex_file "f1" "u1" 10].

(** * Lemmas *)

(** ** Strings *)

Lemma string_app_assoc : forall a b c : string,
  String.append a (String.append b c) = String.append (String.append a b) c.
Proof. induction a; intros; simpl; [reflexivity | now rewrite IHa]. Qed.

Lemma lower_app : forall a b,
  lower (String.append a b) = String.append (lower a) (lower b).
Proof. induction a; intros; simpl; [reflexivity | now rewrite IHa]. Qed.

Lemma ends_with_app : forall suf x, ends_with suf (String.append x suf) = true.
Proof.
  intros suf x; induction x as [|c x IH]; simpl.
  - destruct suf as [|a s]; [reflexivity|]. cbn [ends_with].
    now rewrite String.eqb_refl.
  - now rewrite IH, orb_true_r.
Qed.

Lemma ends_with_split : forall suf s,
  ends_with suf s = true -> exists pre, s = String.append pre suf.
Proof.
  intros suf s; induction s as [|c s IH]; cbn [ends_with]; intro H.
  - apply orb_true_iff in H as [H|H]; [|discriminate].
    apply String.eqb_eq in H; subst. now exists "".
  - apply orb_true_iff in H as [H|H].
    + apply String.eqb_eq in H; subst. now exists "".
    + destruct (IH H) as [pre ->]. now exists (String c pre).
Qed.

Lemma app_last_char : forall a b c d,
  String.append a (String c "") = String.append b (String d "") -> c = d.
Proof.
  induction a as [|x a IH]; intros [|y b] c d H; simpl in H.
  - now inversion H.
  - inversion H; subst. destruct b; discriminate.
  - inversion H; subst. destruct a; discriminate.
  - inversion H; subst. eauto.
Qed.

Lemma xlsx_not_csv : forall stem,
  ends_with ".csv" (String.append stem ".xlsx") = false.
Proof.
  intro stem. destruct (ends_with ".csv" _) eqn:E; [|reflexivity].
  apply ends_with_split in E as [pre E].
  change ".xlsx" with (String.append ".xls" "x") in E.
  change ".csv" with (String.append ".cs" "v") in E.
  rewrite string_app_assoc, (string_app_assoc pre) in E.
  apply app_last_char in E. discriminate.
Qed.

(** * Claims *)

(** ** Format dispatch *)

(** C7: a file name that, lower-cased, ends in neither ".csv" nor ".xlsx"
    is rejected with [UnsupportedFormat] and no I/O event at all; a name
    ending in ".csv" (in any letter case) starts with [pd.read_csv] in
    UTF-8, and a name ending in ".xlsx" (in any letter case) performs
    exactly one [pd.read_excel] and cleans its result. *)
Theorem load_and_clean_dispatch : forall tok w path,
  (ends_with ".csv" (lower (path_name path)) = false ->
   ends_with ".xlsx" (lower (path_name path)) = false ->
   load_and_clean tok w path = ([], inl UnsupportedFormat)) /\
  (forall stem ext, path_name path = String.append stem ext -> lower ext = ".csv" ->
   exists evs, fst (load_and_clean tok w path) = ReadCsv UTF8 :: evs) /\
  (forall stem ext, path_name path = String.append stem ext -> lower ext = ".xlsx" ->
   load_and_clean tok w path = ([ReadExcel], res_bind (excel_sheet w) clean)).
Proof.
  intros tok w path; split; [|split].
  - intros H1 H2. unfold load_and_clean. now rewrite H1, H2.
  - intros stem ext Hp He. unfold load_and_clean.
    rewrite Hp, lower_app, He, ends_with_app. unfold load_csv.
    destruct (read_csv tok UTF8 w) as [[]|]; try (eexists; reflexivity).
    destruct (read_csv tok Latin1 w) as [[]|]; eexists; reflexivity.
  - intros stem ext Hp He. unfold load_and_clean.
    rewrite Hp, lower_app, He, xlsx_not_csv, ends_with_app. reflexivity.
Qed.

Lemma load_and_clean_dispatch_witness :
  load_and_clean simple_tokenize w_empty "in/notes.TXT" = ([], inl UnsupportedFormat) /\
  (exists evs, fst (load_and_clean simple_tokenize w_empty "in/Data.CsV")
                 = ReadCsv UTF8 :: evs) /\
  load_and_clean simple_tokenize w_empty "Book.XLSX"
    = ([ReadExcel], res_bind (excel_sheet w_empty) clean).
Proof.
  split; [|split].
  - apply (proj1 (load_and_clean_dispatch simple_tokenize w_empty "in/notes.TXT"));
      reflexivity.
  - apply (proj1 (proj2 (load_and_clean_dispatch simple_tokenize w_empty "in/Data.CsV"))
             "Data" ".CsV"); reflexivity.
  - apply (proj2 (proj2 (load_and_clean_dispatch simple_tokenize w_empty "Book.XLSX"))
             "Book" ".XLSX"); reflexivity.
Defined.

(** ** Encoding fallback *)

Lemma trim_loop_error : forall ls df e, trim_loop ls df = inl e -> e = ColumnAccessFailure.
Proof.
  induction ls as [|l ls IH]; simpl; intros df e H; [discriminate|].
  destruct (col_index df l); [|congruence].
  destruct (dtype_eqb _ _); eauto.
Qed.


(** *** UTF-8 and ASCII separators *)

Ltac sep_fail Hc s Hs :=
  rewrite ?(Hc s Hs); cbn [andb]; rewrite ?andb_false_r; cbn [andb];
  try reflexivity;
  match goal with |- context [match ?b with _ => _ end] => destruct b as [|? [|? ?]] end;
  cbn [andb]; rewrite ?(Hc s Hs), ?andb_false_r; reflexivity.

(** An ASCII byte is never inside a multi-byte sequence: decoding
    [a ++ s :: b] decodes [a] and [b] separately. *)
Lemma utf8_dec_app_sep : forall n a s b,
  length a <= n -> (s <? 0x80)%N = true ->
  utf8_dec (a ++ s :: b) =
    match utf8_dec a, utf8_dec b with
    | Some x, Some y => Some (x ++ s :: y)
    | _, _ => None
    end.
Proof.
  assert (Hc : forall s, (s <? 0x80)%N = true -> is_cont s = false).
  { intros s Hs. unfold is_cont. apply N.ltb_lt in Hs.
    destruct (0x80 <=? s)%N eqn:E; [apply N.leb_le in E; lia | reflexivity]. }
  induction n as [|n IH]; intros a s b Hl Hs.
  - destruct a; [|simpl in Hl; lia]. simpl. rewrite Hs.
    destruct (utf8_dec b); reflexivity.
  - destruct a as [|b0 r]; [simpl; rewrite Hs; destruct (utf8_dec b); reflexivity|].
    simpl in Hl. cbn [app utf8_dec].
    destruct (b0 <? 0x80)%N.
    { rewrite (IH r s b) by (lia || assumption).
      destruct (utf8_dec r), (utf8_dec b); reflexivity. }
    destruct ((0xC2 <=? b0)%N && (b0 <=? 0xDF)%N).
    { destruct r as [|b1 r]; cbn [app].
      - rewrite (Hc s Hs). reflexivity.
      - destruct (is_cont b1); [|reflexivity].
        rewrite (IH r s b) by (simpl in Hl; lia || assumption).
        destruct (utf8_dec r), (utf8_dec b); reflexivity. }
    destruct ((0xE0 <=? b0)%N && (b0 <=? 0xEF)%N).
    { destruct r as [|b1 [|b2 r]]; cbn [app].
      - sep_fail Hc s Hs.
      - sep_fail Hc s Hs.
      - destruct (_ && _); [|reflexivity].
        rewrite (IH r s b) by (simpl in Hl; lia || assumption).
        destruct (utf8_dec r), (utf8_dec b); reflexivity. }
    destruct ((0xF0 <=? b0)%N && (b0 <=? 0xF4)%N); [|reflexivity].
    { destruct r as [|b1 [|b2 [|b3 r]]]; cbn [app].
      - sep_fail Hc s Hs.
      - sep_fail Hc s Hs.
      - sep_fail Hc s Hs.
      - destruct (_ && _); [|reflexivity].
        rewrite (IH r s b) by (simpl in Hl; lia || assumption).
        destruct (utf8_dec r), (utf8_dec b); reflexivity. }
Qed.

Lemma split_on_nil : forall sep l, split_on sep l <> [].
Proof.
  intros sep [|c l]; simpl; [discriminate|].
  destruct (c =? sep)%N; [discriminate|]. destruct (split_on sep l); discriminate.
Qed.

Lemma join_on_cons_app : forall sep c p ps,
  join_on sep ((c :: p) :: ps) = c :: join_on sep (p :: ps).
Proof. intros sep c p [|q ps]; reflexivity. Qed.

Lemma join_split_on : forall sep l, join_on sep (split_on sep l) = l.
Proof.
  intros sep l; induction l as [|c l IH]; [reflexivity|]. simpl.
  destruct (c =? sep)%N eqn:E.
  - apply N.eqb_eq in E; subst. destruct (split_on sep l) as [|p ps] eqn:Es.
    + exfalso; exact (split_on_nil _ _ Es).
    + simpl. rewrite <- IH. reflexivity.
  - destruct (split_on sep l) as [|p ps] eqn:Es.
    + exfalso; exact (split_on_nil _ _ Es).
    + rewrite join_on_cons_app, IH. reflexivity.
Qed.

Lemma In_split_on : forall sep l p x, In p (split_on sep l) -> In x p -> In x l.
Proof.
  intros sep l; induction l as [|c l IH]; intros p x Hp Hx; simpl in Hp.
  - destruct Hp as [<-|[]]; destruct Hx.
  - destruct (c =? sep)%N.
    + destruct Hp as [<-|Hp]; [destruct Hx|]. right; eauto.
    + destruct (split_on sep l) as [|q ps] eqn:Es.
      * destruct Hp as [<-|[]]. destruct Hx as [<-|[]]. left; reflexivity.
      * destruct Hp as [<-|Hp].
        -- destruct Hx as [<-|Hx]; [left; reflexivity|]. right. apply (IH q); simpl; auto.
        -- right. apply (IH p); simpl; auto.
Qed.

Lemma utf8_join_on : forall sep, (sep <? 0x80)%N = true -> forall ps,
  is_some (utf8_dec (join_on sep ps)) = forallb (fun p => is_some (utf8_dec p)) ps.
Proof.
  intros sep Hs ps; induction ps as [|p [|q ps] IH];
    [reflexivity | simpl; now rewrite andb_true_r |].
  change (join_on sep (p :: q :: ps)) with (p ++ sep :: join_on sep (q :: ps)).
  rewrite (utf8_dec_app_sep (length p)) by (lia || assumption).
  change (forallb (fun p => is_some (utf8_dec p)) (p :: q :: ps))
    with (is_some (utf8_dec p) && forallb (fun p => is_some (utf8_dec p)) (q :: ps)).
  rewrite <- IH. destruct (utf8_dec p), (utf8_dec (join_on sep (q :: ps))); reflexivity.
Qed.

Lemma forallb_map_eq {A B} (f : A -> B) (g : B -> bool) : forall l,
  forallb g (map f l) = forallb (fun x => g (f x)) l.
Proof. induction l as [|x l IH]; simpl; [reflexivity|]. now rewrite IH. Qed.

Lemma forallb_ext_in_eq {A} (f g : A -> bool) : forall l,
  (forall x, In x l -> f x = g x) -> forallb f l = forallb g l.
Proof.
  induction l as [|x l IH]; intro H; simpl; [reflexivity|].
  rewrite H by (left; reflexivity). f_equal. apply IH. intros y Hy. apply H. right; exact Hy.
Qed.

Lemma forallb_filter_skip {A} (f g : A -> bool) : forall l,
  (forall x, g x = false -> f x = true) -> forallb f (filter g l) = forallb f l.
Proof.
  induction l as [|x l IH]; intro H; simpl; [reflexivity|].
  destruct (g x) eqn:E; simpl; rewrite IH by exact H; [reflexivity|].
  now rewrite (H x E).
Qed.

Lemma is_some_iff {A} (o : option A) : is_some o = true <-> o <> None.
Proof. destruct o; simpl; split; congruence. Qed.

Lemma utf8_ok_codes : forall p, Forall (fun b => (b < 256)%N) p ->
  utf8_ok (string_of_codes p) = is_some (utf8_dec p).
Proof.
  intros p Hp. unfold utf8_ok, string_of_codes.
  rewrite list_ascii_of_string_of_list_ascii, map_map.
  rewrite (map_ext_in _ (fun n => n)), map_id; [reflexivity|].
  intros n Hn. apply N_ascii_embedding. rewrite Forall_forall in Hp. auto.
Qed.

Lemma utf8_line : forall l, Forall (fun b => (b < 256)%N) l ->
  forallb utf8_ok (map string_of_codes (split_on 44 l)) = is_some (utf8_dec l).
Proof.
  intros l Hl. rewrite <- (join_split_on 44 l) at 2.
  rewrite (utf8_join_on 44 eq_refl), forallb_map_eq.
  apply forallb_ext_in_eq. intros p Hp. apply utf8_ok_codes.
  rewrite Forall_forall in *. intros x Hx. apply Hl. eapply In_split_on; eauto.
Qed.

(** The example tokenizer cuts at ASCII bytes only. *)
Lemma simple_tokenize_utf8 : tokenizer_utf8 simple_tokenize.
Proof.
  intros buf hdr r H. unfold simple_tokenize in H.
  destruct (forallb (fun b => (b <? 256)%N) buf) eqn:Hb; simpl in H; [|discriminate].
  assert (Hbytes : forall l, In l (split_on 10 buf) -> Forall (fun b => (b < 256)%N) l).
  { intros l Hl. apply Forall_forall. intros x Hx.
    apply (In_split_on 10 buf l x Hl) in Hx. rewrite forallb_forall in Hb.
    apply N.ltb_lt, Hb, Hx. }
  assert (Hkey : is_some (utf8_dec buf) =
    forallb (forallb utf8_ok)
      (map (fun l => map string_of_codes (split_on 44 l))
           (filter (fun l => negb (length l =? 0)) (split_on 10 buf)))).
  { rewrite forallb_map_eq, forallb_filter_skip.
    - rewrite <- (join_split_on 10 buf) at 1. rewrite (utf8_join_on 10 eq_refl).
      apply forallb_ext_in_eq. intros l Hl. rewrite utf8_line by (apply Hbytes; exact Hl).
      reflexivity.
    - intros l E. destruct l; [reflexivity | discriminate]. }
  destruct (map (fun l => map string_of_codes (split_on 44 l))
                (filter (fun l => negb (length l =? 0)) (split_on 10 buf))) as [|h b];
    [discriminate|].
  simpl in Hkey.
  destruct (existsb _ b); inversion H; subst; clear H.
  - split.
    + intro Hv. apply is_some_iff in Hv. rewrite Hkey in Hv.
      apply andb_true_iff in Hv as [Hv _]. split; [exact Hv | discriminate].
    + discriminate.
  - split.
    + intro Hv. apply is_some_iff in Hv. rewrite Hkey in Hv.
      apply andb_true_iff in Hv as [Hv1 Hv2]. split; [exact Hv1|].
      intros rs E; inversion E; subst; exact Hv2.
    + intros rs E H1 H2. inversion E; subst. apply is_some_iff. rewrite Hkey, H1, H2.
      reflexivity.
Qed.

Lemma enc_check_all : forall n, (n < 256)%N -> enc_check n = true.
Proof.
  intros n Hn.
  assert (H : forallb enc_check (map N.of_nat (seq 0 256)) = true) by (vm_compute; reflexivity).
  rewrite forallb_forall in H. apply H. apply in_map_iff. exists (N.to_nat n).
  split; [apply N2Nat.id|]. apply in_seq. lia.
Qed.

Lemma utf8_dec_enc1 : forall n rest, (n < 256)%N ->
  utf8_dec (utf8_enc1 n ++ rest) = option_map (cons n) (utf8_dec rest).
Proof.
  intros n rest Hn. pose proof (enc_check_all n Hn) as H. unfold enc_check in H.
  destruct (utf8_enc1 n) as [|b [|l [|? ?]]]; try discriminate.
  - apply andb_true_iff in H as [H1 H2]. apply N.eqb_eq in H2; subst.
    cbn [app utf8_dec]. now rewrite H1.
  - apply andb_true_iff in H as [H H4]. apply andb_true_iff in H as [H H3].
    apply andb_true_iff in H as [H1 H2]. apply negb_true_iff in H1.
    apply N.eqb_eq in H4. cbn [app utf8_dec]. rewrite H1, H2, H3, H4. reflexivity.
Qed.

(** Latin-1 text re-encoded as UTF-8 decodes back to itself. *)
Lemma utf8_dec_enc_bytes : forall l, Forall (fun n => (n < 256)%N) l ->
  utf8_dec (utf8_enc l) = Some l.
Proof.
  induction l as [|n l IH]; intro H; [reflexivity|].
  inversion H; subst. unfold utf8_enc. cbn [flat_map].
  rewrite utf8_dec_enc1 by assumption. fold (utf8_enc l). rewrite IH by assumption.
  reflexivity.
Qed.

Lemma bytes_bounded : forall bs, Forall (fun n => (n < 256)%N) (map Byte.to_N bs).
Proof.
  intro bs. apply Forall_forall. intros n Hn. apply in_map_iff in Hn as [b [<- _]].
  pose proof (Byte.to_N_bounded b). lia.
Qed.

(** *** The reads *)

(** The Latin-1 read parses the Latin-1 text re-encoded as UTF-8; it
    fails only to tokenize, never to decode. *)
Lemma read_csv_latin1 : forall tok w, tokenizer_utf8 tok ->
  read_csv tok Latin1 w =
    match tok (utf8_enc (map Byte.to_N (file_bytes w))) with
    | Some (hdr, Some rs) => inr (read_csv_fields hdr rs)
    | _ => inl ParseFailure
    end.
Proof.
  intros tok w Htok. unfold read_csv, read_buffer. cbn [decode option_map].
  destruct (tok (utf8_enc (map Byte.to_N (file_bytes w)))) as [[hdr r]|] eqn:T;
    [|reflexivity].
  destruct (Htok _ _ _ T) as [Hv _].
  rewrite utf8_dec_enc_bytes in Hv by apply bytes_bounded.
  destruct (Hv ltac:(discriminate)) as [Hh Hr]. rewrite Hh. cbn [negb].
  destruct r as [rs|]; [|reflexivity]. rewrite (Hr rs eq_refl). reflexivity.
Qed.


(** The loader of a ".csv" file reads it in UTF-8, and again in Latin-1
    only when the UTF-8 read fails to decode; the Latin-1 read never does,
    so cp1252 is never tried. *)
Lemma load_csv_reads : forall tok w path,
  tokenizer_utf8 tok ->
  ends_with ".csv" (lower (path_name path)) = true ->
  load_and_clean tok w path =
    match read_csv tok UTF8 w with
    | inl DecodeFailure =>
        ([ReadCsv UTF8; ReadCsv Latin1], res_bind (read_csv tok Latin1 w) clean)
    | r => ([ReadCsv UTF8], res_bind r clean)
    end.
Proof.
  intros tok w path Htok Hcsv. pose proof (read_csv_latin1 tok w Htok) as Hlat.
  unfold load_and_clean. rewrite Hcsv. unfold load_csv.
  destruct (read_csv tok UTF8 w) as [[]|]; try reflexivity.
  rewrite Hlat. destruct (tok (utf8_enc _)) as [[? [?|]]|]; reflexivity.
Qed.

(** The UTF-8 read fails to decode only a file whose bytes are not valid
    UTF-8. *)
Lemma read_csv_utf8_valid : forall tok w, tokenizer_utf8 tok ->
  decode UTF8 (file_bytes w) <> None -> read_csv tok UTF8 w <> inl DecodeFailure.
Proof.
  intros tok w Htok Hd. unfold decode in Hd. unfold read_csv, read_buffer.
  destruct (tok (map Byte.to_N (file_bytes w))) as [[hdr r]|] eqn:T; [|discriminate].
  destruct (Htok _ _ _ T) as [Hv _]. destruct (Hv Hd) as [Hh Hr].
  rewrite Hh. cbn [negb]. destruct r as [rs|]; [|discriminate].
  rewrite (Hr rs eq_refl). discriminate.
Qed.




(** ** Missing cells in text columns *)

(** C1 (evaluation of the code at a failing input): in "name,age\nBob,1\n,2\n"
    the parser yields a missing name in the second row; after
    [load_and_clean] that cell holds the string "nan". *)
Theorem clean_turns_missing_into_nan :
  read_csv simple_tokenize UTF8 (mkWorld (bytes_of_string ex_nan_csv) (inl ParseFailure))
    = inr (mkFrame [VStr "name"; VStr "age"] [DObject; DInt64]
                   [[Some (VStr "Bob"); Some (VNum 1)]; [None; Some (VNum 2)]]) /\
  load_text "t.csv" ex_nan_csv
    = ([ReadCsv UTF8],
       inr (mkFrame [VStr "name"; VStr "age"] [DObject; DInt64]
                    [[Some (VStr "Bob"); Some (VNum 1)];
                     [Some (VStr "nan"); Some (VNum 2)]])).
Proof. split; vm_compute; reflexivity. Qed.

(** C2 (evaluation of the code at a failing input): in "name,age\nBob,1\n,\n"
    the parser yields a second row whose cells are all missing; after
    [load_and_clean] that row is still present, as ["nan", missing]. *)
Theorem clean_keeps_empty_row :
  read_csv simple_tokenize UTF8
           (mkWorld (bytes_of_string ex_empty_row_csv) (inl ParseFailure))
    = inr (mkFrame [VStr "name"; VStr "age"] [DObject; DFloat64]
                   [[Some (VStr "Bob"); Some (VNum 1)]; [None; None]]) /\
  load_text "t.csv" ex_empty_row_csv
    = ([ReadCsv UTF8],
       inr (mkFrame [VStr "name"; VStr "age"] [DObject; DFloat64]
                    [[Some (VStr "Bob"); Some (VNum 1)]; [Some (VStr "nan"); None]])).
Proof. split; vm_compute; reflexivity. Qed.

(** ** Boolean columns *)


(** ** Re-saving as CSV *)

(** C9 counterexample: "a,b\n ,\n1,2\n".  The first pass trims the
    whitespace-only text cell to the empty string and keeps both rows;
    written back as CSV that cell is an empty field, which the parser reads
    as missing, so column [a] becomes [float64] and the first row, now
    entirely missing, is removed by the second pass. *)
Lemma resave_changes_table :
  match clean (read_csv_fields ["a"; "b"] [[" "; ""]; ["1"; "2"]]) with
  | inr df1 =>
      rows df1 = [[Some (VStr ""); None]; [Some (VStr "1"); Some (VNum 2)]] /\
      match clean (read_csv_fields (fst (to_csv_fields df1)) (snd (to_csv_fields df1))) with
      | inr df2 => dtypes df2 = [DFloat64; DFloat64] /\
                   rows df2 = [[Some (VNum 1); Some (VNum 2)]] /\
                   rows df2 <> rows df1
      | inl _ => False
      end
  | inl _ => False
  end.
Proof.
  vm_compute. split; [reflexivity|]. split; [reflexivity|]. split; [reflexivity|].
  discriminate.
Qed.

(** ** Lists *)

Lemma length_replace_nth {A} : forall j (x : A) l, length (replace_nth j x l) = length l.
Proof. induction j; destruct l; simpl; auto. Qed.

Lemma nth_replace_nth_other {A} : forall j k (x d : A) l,
  k <> j -> nth k (replace_nth j x l) d = nth k l d.
Proof.
  induction j; intros [|k] x d [|y l] H; simpl; auto; try lia;
    apply IHj; lia.
Qed.

Lemma nth_replace_nth_same {A} : forall j (x d : A) l,
  (j < length l)%nat -> nth j (replace_nth j x l) d = x.
Proof. induction j; intros x d [|y l] H; simpl in *; auto; try lia; apply IHj; lia. Qed.

Lemma replace_nth_id {A} : forall j (d : A) l, replace_nth j (nth j l d) l = l.
Proof. induction j; intros d [|y l]; simpl; auto. now rewrite IHj. Qed.

Lemma In_combine_seq {A} : forall (l : list A) j d,
  (j < length l)%nat -> In (j, nth j l d) (combine (seq 0 (length l)) l).
Proof.
  intros l j d H.
  assert (E : nth j (seq 0 (length l)) 0 = j) by (rewrite seq_nth; lia).
  rewrite <- E at 1.
  rewrite <- combine_nth by (now rewrite length_seq).
  apply nth_In. rewrite length_combine, length_seq. lia.
Qed.

Lemma ForallOrdPairs_nth {A} (R : A -> A -> Prop) : forall l i j a b,
  ForallOrdPairs R l -> (i < j)%nat -> nth_error l i = Some a -> nth_error l j = Some b ->
  R a b.
Proof.
  induction l as [|x l IH]; intros i j a b H Hij Hi Hj; [destruct i; discriminate|].
  inversion H as [|? ? HF HP]; subst.
  destruct i as [|i], j as [|j]; simpl in *; try lia.
  - inversion Hi; subst. apply nth_error_In in Hj.
    rewrite Forall_forall in HF. auto.
  - apply (IH i j); auto; lia.
Qed.

Lemma In_firstn {A} : forall n (x : A) l, In x (firstn n l) -> In x l.
Proof.
  intros n x l H. rewrite <- (firstn_skipn n l). apply in_or_app. now left.
Qed.

Lemma ForallOrdPairs_firstn {A} (R : A -> A -> Prop) : forall n l,
  ForallOrdPairs R l -> ForallOrdPairs R (firstn n l).
Proof.
  induction n; intros [|x l] H; simpl; try apply FOP_nil.
  inversion H as [|? ? HF HP]; subst. apply FOP_cons; [|auto].
  apply Forall_forall. intros y Hy. rewrite Forall_forall in HF.
  apply HF. eapply In_firstn; eauto.
Qed.

Lemma ForallOrdPairs_impl {A} (R R' : A -> A -> Prop) : forall l,
  (forall a b, In a l -> In b l -> R a b -> R' a b) ->
  ForallOrdPairs R l -> ForallOrdPairs R' l.
Proof.
  induction l as [|x l IH]; intros Himp H; [apply FOP_nil|].
  inversion H as [|? ? HF HP]; subst. apply FOP_cons.
  - apply Forall_forall. rewrite Forall_forall in HF. intros y Hy.
    apply Himp; simpl; auto.
  - apply IH; auto. intros a b Ha Hb. apply Himp; simpl; auto.
Qed.

Lemma ForallOrdPairs_map {A B} (R : B -> B -> Prop) (f : A -> B) : forall l,
  ForallOrdPairs (fun a b => R (f a) (f b)) l -> ForallOrdPairs R (map f l).
Proof.
  induction l as [|x l IH]; intro H; simpl; [apply FOP_nil|].
  inversion H as [|? ? HF HP]; subst. apply FOP_cons; auto.
  apply Forall_map. exact HF.
Qed.

Lemma StronglySorted_FOP {A} (R : A -> A -> Prop) : forall l,
  StronglySorted R l -> ForallOrdPairs R l.
Proof.
  induction l as [|x l IH]; intro H; [apply FOP_nil|].
  inversion H; subst. apply FOP_cons; auto.
Qed.

Lemma ForallOrdPairs_app {A} (R : A -> A -> Prop) : forall l1 l2,
  ForallOrdPairs R l1 -> ForallOrdPairs R l2 ->
  (forall a b, In a l1 -> In b l2 -> R a b) -> ForallOrdPairs R (l1 ++ l2).
Proof.
  induction l1 as [|x l1 IH]; intros l2 H1 H2 H; [exact H2|].
  inversion H1 as [|? ? HF HP]; subst. simpl. apply FOP_cons.
  - apply Forall_app. split; [exact HF|]. apply Forall_forall. intros b Hb.
    apply H; simpl; auto.
  - apply IH; auto. intros a b Ha Hb. apply H; simpl; auto.
Qed.

Lemma ForallOrdPairs_app_inv {A} (R : A -> A -> Prop) : forall l1 l2 a b,
  ForallOrdPairs R (l1 ++ l2) -> In a l1 -> In b l2 -> R a b.
Proof.
  induction l1 as [|x l1 IH]; intros l2 a b H Ha Hb; [contradiction|].
  inversion H as [|? ? HF HP]; subst. destruct Ha as [<-|Ha].
  - rewrite Forall_forall in HF. apply HF, in_or_app. now right.
  - eapply IH; eauto.
Qed.

Lemma ForallOrdPairs_rev {A} (R : A -> A -> Prop) : forall l,
  ForallOrdPairs R l -> ForallOrdPairs (fun a b => R b a) (rev l).
Proof.
  induction l as [|x l IH]; intro H; [apply FOP_nil|].
  inversion H as [|? ? HF HP]; subst. simpl. apply ForallOrdPairs_app.
  - apply IH, HP.
  - apply FOP_cons; [constructor | apply FOP_nil].
  - intros a b Ha [<-|[]]. rewrite Forall_forall in HF. apply HF. now apply in_rev.
Qed.

Lemma NoDup_firstn {A} : forall n (l : list A), NoDup l -> NoDup (firstn n l).
Proof.
  induction n as [|n IH]; intros [|x l] H; simpl; try constructor.
  - inversion H; subst. intro Hx. apply In_firstn in Hx. contradiction.
  - inversion H; subst. apply IH. assumption.
Qed.

Lemma map_nth_seq_id {A} : forall (l : list A) d,
  map (fun k => nth k l d) (seq 0 (length l)) = l.
Proof.
  induction l as [|x l IH]; intro d; [reflexivity|].
  simpl. f_equal. rewrite <- seq_shift, map_map. apply IH.
Qed.

Lemma nth_rev_seq : forall n k, k < n -> nth k (rev (seq 0 n)) 0 = n - 1 - k.
Proof.
  intros n k Hk. rewrite rev_nth by (rewrite length_seq; lia).
  rewrite length_seq, seq_nth by lia. lia.
Qed.

Lemma nth_map_snd : forall i (l : list (string * nat)),
  nth i (map snd l) 0 = snd (nth i l (""%string, 0)).
Proof. induction i; intros [|p l]; simpl; auto. Qed.

(** ** Sorting indices *)

Lemma insert_idx_perm : forall le i l, Permutation (insert_idx le i l) (i :: l).
Proof.
  intros le i l; induction l as [|j l IH]; simpl; [apply Permutation_refl|].
  destruct (le i j); [apply Permutation_refl|].
  eapply perm_trans; [apply perm_skip, IH | apply perm_swap].
Qed.

Lemma isort_idx_perm : forall le l, Permutation (isort_idx le l) l.
Proof.
  intros le l; induction l as [|i l IH]; simpl; [apply Permutation_refl|].
  eapply perm_trans; [apply insert_idx_perm | apply perm_skip, IH].
Qed.

Section InsertionSort.

Variable w : list nat.
Variable le : nat -> nat -> bool.
Hypothesis le_true : forall i j, le i j = true -> nth i w 0 <= nth j w 0.
Hypothesis le_false : forall i j, le i j = false -> nth j w 0 <= nth i w 0.

Lemma insert_idx_sorted : forall i l,
  Sorted (fun i j => nth i w 0 <= nth j w 0) l ->
  Sorted (fun i j => nth i w 0 <= nth j w 0) (insert_idx le i l).
Proof.
  intros i l; induction l as [|j l IH]; intro H; simpl; [repeat constructor|].
  destruct (le i j) eqn:E.
  - constructor; [exact H|]. constructor. apply le_true, E.
  - inversion H as [|? ? Hs Hh]; subst. constructor; [apply IH, Hs|].
    destruct l as [|k l]; simpl.
    + constructor. apply le_false, E.
    + destruct (le i k); constructor; [apply le_false, E | inversion Hh; assumption].
Qed.

Lemma isort_idx_sorted : forall l,
  Sorted (fun i j => nth i w 0 <= nth j w 0) (isort_idx le l).
Proof.
  induction l as [|i l IH]; simpl; [constructor|]. apply insert_idx_sorted, IH.
Qed.

End InsertionSort.

Lemma argsort_isort_spec : forall (le : list nat -> nat -> nat -> bool),
  (forall v i j, le v i j = true -> nth i v 0 <= nth j v 0) ->
  (forall v i j, le v i j = false -> nth j v 0 <= nth i v 0) ->
  argsort_spec (fun v => isort_idx (le v) (seq 0 (length v))).
Proof.
  intros le Ht Hf v. split; [apply isort_idx_perm|]. apply isort_idx_sorted; auto.
Qed.

Lemma argsort_stable_spec : argsort_spec argsort_stable.
Proof.
  apply (argsort_isort_spec (fun v i j => nth i v 0 <=? nth j v 0));
    intros v i j H; [apply Nat.leb_le in H | apply Nat.leb_gt in H]; lia.
Qed.

Lemma argsort_ties_reversed_spec : argsort_spec argsort_ties_reversed.
Proof.
  apply (argsort_isort_spec (fun v i j => nth i v 0 <? nth j v 0));
    intros v i j H; [apply Nat.ltb_lt in H | apply Nat.ltb_ge in H]; lia.
Qed.

(** Settles the tests [x =? v] of [first_occ] when [v] is known to
    differ from [x] through the hypotheses. *)
Ltac occ_ne :=
  repeat match goal with
  | |- context [String.eqb ?x ?x] => rewrite String.eqb_refl
  | |- context [String.eqb ?x ?y] =>
      destruct (String.eqb_spec x y); [subst; simpl in *; tauto|]
  end.

Lemma uniq_first_spec : forall xs seen,
  ForallOrdPairs (fun a b => first_occ a xs < first_occ b xs) (uniq_first seen xs) /\
  (forall v, In v (uniq_first seen xs) -> In v xs /\ ~ In v seen).
Proof.
  induction xs as [|x xs IH]; intro seen; simpl.
  - split; [apply FOP_nil | tauto].
  - destruct (in_dec string_dec x seen) as [Hx|Hx].
    + destruct (IH seen) as [Hord Hmem]. split.
      * eapply ForallOrdPairs_impl; [|exact Hord].
        intros a b Ha Hb Hab.
        destruct (Hmem a Ha), (Hmem b Hb). occ_ne. cbv beta in Hab. lia.
      * intros v Hv. destruct (Hmem v Hv). auto.
    + destruct (IH (x :: seen)) as [Hord Hmem]. split.
      * apply FOP_cons.
        -- apply Forall_forall. intros b Hb. destruct (Hmem b Hb).
           occ_ne. lia.
        -- eapply ForallOrdPairs_impl; [|exact Hord].
           intros a b Ha Hb Hab.
           destruct (Hmem a Ha), (Hmem b Hb). occ_ne. cbv beta in Hab. lia.
      * intros v [<-|Hv]; [simpl; auto|].
        destruct (Hmem v Hv) as [H1 H2]. split; [auto|]. intro; apply H2; simpl; auto.
Qed.

Lemma counts_ordered : forall xs,
  ForallOrdPairs (fun a b => first_occ (fst a) xs < first_occ (fst b) xs) (counts xs).
Proof.
  intro xs. unfold counts. apply ForallOrdPairs_map. simpl.
  apply (proj1 (uniq_first_spec xs [])).
Qed.

Lemma In_counts : forall xs a,
  In a (counts xs) -> snd a = count_occ string_dec xs (fst a) /\ In (fst a) xs.
Proof.
  unfold counts. intros xs a Ha. apply in_map_iff in Ha as [v [<- Hv]].
  simpl. split; [reflexivity|]. apply (proj2 (uniq_first_spec xs [])) in Hv. tauto.
Qed.

Lemma uniq_first_nodup : forall xs seen, NoDup (uniq_first seen xs).
Proof.
  induction xs as [|x xs IH]; intro seen; simpl; [constructor|].
  destruct (in_dec string_dec x seen); [apply IH|].
  constructor; [|apply IH].
  intro Hx. apply (proj2 (uniq_first_spec xs (x :: seen))) in Hx as [_ Hx].
  apply Hx. left; reflexivity.
Qed.

Lemma uniq_first_complete : forall xs seen v,
  In v xs -> ~ In v seen -> In v (uniq_first seen xs).
Proof.
  induction xs as [|x xs IH]; intros seen v Hv Hs; [contradiction|]. simpl.
  destruct (in_dec string_dec x seen) as [Hx|Hx].
  - destruct Hv as [<-|Hv]; [contradiction|]. apply IH; auto.
  - destruct (string_dec x v) as [<-|Hne]; [left; reflexivity|].
    right. destruct Hv as [<-|Hv]; [contradiction|].
    apply IH; [exact Hv|]. intros [E|E]; [congruence|contradiction].
Qed.

Lemma counts_fst : forall xs, map fst (counts xs) = uniq_first [] xs.
Proof.
  intro xs. unfold counts. rewrite map_map. simpl. apply map_id.
Qed.

Lemma In_counts_complete : forall xs v,
  In v xs -> In (v, count_occ string_dec xs v) (counts xs).
Proof.
  intros xs v Hv. unfold counts. apply in_map_iff. exists v. split; [reflexivity|].
  apply uniq_first_complete; auto.
Qed.

Section ValueCounts.

Variable argsort : list nat -> list nat.
Hypothesis argsort_ok : argsort_spec argsort.

(** [nargsort] with a correct [argsort] lists every index once, by
    decreasing value. *)
Lemma nargsort_desc_spec : forall v,
  Permutation (nargsort_desc argsort v) (seq 0 (length v)) /\
  ForallOrdPairs (fun i j => nth j v 0 <= nth i v 0) (nargsort_desc argsort v).
Proof.
  intro v. unfold nargsort_desc. set (n := length v).
  destruct (argsort_ok (rev v)) as [Hp Hs]. rewrite length_rev in Hp. fold n in Hp.
  assert (Hlt : forall k, In k (argsort (rev v)) -> k < n).
  { intros k Hk. apply (Permutation_in _ Hp) in Hk. apply in_seq in Hk. lia. }
  split.
  - eapply perm_trans; [apply Permutation_sym, Permutation_rev|].
    eapply perm_trans; [apply Permutation_map, Hp|].
    pose proof (map_nth_seq_id (rev (seq 0 n)) 0) as E.
    rewrite length_rev, length_seq in E. rewrite E.
    apply Permutation_sym, Permutation_rev.
  - apply (ForallOrdPairs_rev (fun i j => nth i v 0 <= nth j v 0)).
    apply ForallOrdPairs_map.
    apply Sorted_StronglySorted in Hs; [|intros x y z; lia].
    apply StronglySorted_FOP in Hs.
    eapply ForallOrdPairs_impl; [|exact Hs].
    intros a b Ha Hb H. cbv beta in H |- *.
    pose proof (Hlt a Ha). pose proof (Hlt b Hb).
    rewrite !nth_rev_seq by assumption.
    rewrite !rev_nth in H by (unfold n in *; lia). fold n in H.
    replace (n - 1 - a) with (n - S a) by lia.
    replace (n - 1 - b) with (n - S b) by lia. exact H.
Qed.

(** [value_counts] lists each distinct value once, with its count, by
    decreasing count. *)
Lemma value_counts_spec : forall xs,
  Permutation (value_counts argsort xs) (counts xs) /\
  ForallOrdPairs (fun a b => snd b <= snd a) (value_counts argsort xs).
Proof.
  intro xs. unfold value_counts. set (c := counts xs).
  destruct (nargsort_desc_spec (map snd c)) as [Hp Ho]. rewrite length_map in Hp.
  split.
  - eapply perm_trans; [apply Permutation_map, Hp|].
    rewrite map_nth_seq_id. apply Permutation_refl.
  - apply ForallOrdPairs_map. eapply ForallOrdPairs_impl; [|exact Ho].
    intros i j _ _ H. cbv beta in H |- *. rewrite !nth_map_snd in H. exact H.
Qed.

End ValueCounts.

(** ** Text profiles *)

(** C4 (as amended): for a text column, [top_values] has at most five
    entries; each entry is a distinct value of the column with its number
    of occurrences; entries are in decreasing order of count; a value left
    out occurs no more often than any listed one; fewer than five entries
    list every value; and a column with no non-missing value yields an
    empty list.  This holds for every [argsort] numpy may use: the order
    among equal counts is whatever that [argsort] makes of it. *)
Theorem text_top_values : forall argsort lbl d cs p,
  argsort_spec argsort ->
  is_numeric_dtype d = false ->
  analyze_column argsort lbl d cs = Some p ->
  let xs := map py_str (somes cs) in
  exists top, pstats p = Text top /\
    length top <= 5 /\
    (forall i j a b, i < j -> nth_error top i = Some a -> nth_error top j = Some b ->
       snd b <= snd a) /\
    (forall a, In a top -> snd a = count_occ string_dec xs (fst a) /\ In (fst a) xs) /\
    NoDup (map fst top) /\
    (forall v a, In v xs -> ~ In v (map fst top) -> In a top ->
       count_occ string_dec xs v <= snd a) /\
    (length top < 5 -> forall v, In v xs -> In v (map fst top)) /\
    (somes cs = [] -> top = []).
Proof.
  intros argsort lbl d cs p Hsort Hd Hp xs. unfold analyze_column in Hp. rewrite Hd in Hp.
  inversion Hp; subst; clear Hp. exists (top_values argsort cs). simpl.
  unfold top_values. fold xs.
  destruct (value_counts_spec argsort Hsort xs) as [Hperm Hord].
  set (vc := value_counts argsort xs) in *.
  assert (Hin : forall a, In a vc -> In a (counts xs))
    by (intros a Ha; exact (Permutation_in _ Hperm Ha)).
  split; [reflexivity|]. split; [apply firstn_le_length|]. split; [|split; [|split; [|split; [|split]]]].
  - intros i j a b Hij Ha Hb.
    exact (ForallOrdPairs_nth _ _ _ _ _ _ (ForallOrdPairs_firstn _ 5 _ Hord) Hij Ha Hb).
  - intros a Ha. apply In_counts, Hin. eapply In_firstn; eauto.
  - rewrite <- firstn_map. apply NoDup_firstn.
    apply (Permutation_NoDup (Permutation_map fst (Permutation_sym Hperm))).
    rewrite counts_fst. apply uniq_first_nodup.
  - intros v a Hv Hnot Ha.
    assert (Hvc : In (v, count_occ string_dec xs v) vc)
      by (apply (Permutation_in _ (Permutation_sym Hperm)), In_counts_complete, Hv).
    rewrite <- (firstn_skipn 5 vc) in Hvc, Hord. apply in_app_or in Hvc as [Hvc|Hvc].
    + exfalso. apply Hnot. apply in_map_iff. exists (v, count_occ string_dec xs v). auto.
    + exact (ForallOrdPairs_app_inv _ _ _ _ _ Hord Ha Hvc).
  - intros Hlen v Hv.
    assert (Hall : firstn 5 vc = vc)
      by (apply firstn_all2; rewrite length_firstn in Hlen; lia).
    rewrite Hall. apply in_map_iff. exists (v, count_occ string_dec xs v).
    split; [reflexivity|].
    apply (Permutation_in _ (Permutation_sym Hperm)), In_counts_complete, Hv.
  - intro E. assert (Exs : xs = []) by (unfold xs; rewrite E; reflexivity).
    rewrite Exs in Hperm. apply Permutation_sym, Permutation_nil in Hperm.
    change (firstn 5 vc = []). rewrite Hperm. reflexivity.
Qed.

Lemma text_top_values_witness :
  argsort_spec argsort_stable /\
  is_numeric_dtype DObject = false /\
  analyze_column argsort_stable (VStr "code") DObject ex_text_cells
    = Some (mkProfile "code" "object" 1
              (Text [("b", 2); ("a", 2); ("c", 1); ("d", 1); ("e", 1)])) /\
  exists top, Text [("b", 2); ("a", 2); ("c", 1); ("d", 1); ("e", 1)] = Text top /\
              length top <= 5.
Proof.
  assert (H : analyze_column argsort_stable (VStr "code") DObject ex_text_cells
    = Some (mkProfile "code" "object" 1
              (Text [("b", 2); ("a", 2); ("c", 1); ("d", 1); ("e", 1)])))
    by (vm_compute; reflexivity).
  split; [exact argsort_stable_spec|]. split; [reflexivity|]. split; [exact H|].
  destruct (text_top_values argsort_stable (VStr "code") DObject ex_text_cells _
              argsort_stable_spec eq_refl H) as [top [Ht [Hl _]]].
  exists top. split; [exact Ht|exact Hl].
Defined.

(** C4 counterexample: in the column a, b, c, c, d, d the value c occurs
    first, yet an [argsort_ties_reversed] that meets numpy's contract but puts equal
    values in reverse index order makes [value_counts] list d before c (and
    b before a); the stable [argsort_stable] lists them in order of first
    occurrence. *)
Lemma top_values_tie_order :
  let cs := [Some (VStr "a"); Some (VStr "b"); Some (VStr "c"); Some (VStr "c");
             Some (VStr "d"); Some (VStr "d")] in
  argsort_spec argsort_ties_reversed /\
  first_occ "c" (map py_str (somes cs)) < first_occ "d" (map py_str (somes cs)) /\
  top_values argsort_ties_reversed cs = [("d", 2); ("c", 2); ("b", 1); ("a", 1)] /\
  top_values argsort_stable cs = [("c", 2); ("d", 2); ("a", 1); ("b", 1)].
Proof.
  intro cs. split; [exact argsort_ties_reversed_spec|].
  vm_compute. split; [lia|]. split; reflexivity.
Qed.

(** ** [drop_duplicates] *)

Lemma existsb_row_eqb : forall x l, existsb (row_eqb x) l = true <-> In x l.
Proof.
  intros x l. rewrite existsb_exists. split.
  - intros [y [Hy E]]. unfold row_eqb in E. destruct (row_eq_dec x y); congruence.
  - intro H. exists x. split; [exact H|]. unfold row_eqb. now destruct (row_eq_dec x x).
Qed.

Lemma existsb_row_eqb_ext : forall x l1 l2,
  (In x l1 <-> In x l2) -> existsb (row_eqb x) l1 = existsb (row_eqb x) l2.
Proof.
  intros x l1 l2 H.
  destruct (existsb (row_eqb x) l1) eqn:E1, (existsb (row_eqb x) l2) eqn:E2; auto.
  - apply existsb_row_eqb in E1. apply H, existsb_row_eqb in E1. congruence.
  - apply existsb_row_eqb in E2. apply H, existsb_row_eqb in E2. congruence.
Qed.

Lemma combine_map_l {A B} : forall (f : A -> A) (l1 : list A) (l2 : list B),
  combine (map f l1) l2 = map (fun p => (f (fst p), snd p)) (combine l1 l2).
Proof. induction l1; intros [|y l2]; simpl; f_equal; auto. Qed.

Lemma dedup_seen_index : forall rs seen,
  dedup_seen seen rs =
  map snd (filter (fun p => negb (existsb (row_eqb (snd p)) (seen ++ firstn (fst p) rs)))
                  (combine (seq 0 (length rs)) rs)).
Proof.
  induction rs as [|r rs IH]; intro seen; [reflexivity|].
  cbn [length seq combine]. rewrite <- seq_shift, combine_map_l.
  cbn [filter fst snd firstn]. rewrite app_nil_r, filter_map_swap.
  cbn [dedup_seen].
  destruct (in_dec row_eq_dec r seen) as [Hr|Hr].
  - assert (E : existsb (row_eqb r) seen = true) by (now apply existsb_row_eqb).
    rewrite E. cbn [negb]. rewrite (IH seen), map_map. f_equal.
    apply filter_ext. intros [i y]. cbn [fst snd firstn]. f_equal.
    apply existsb_row_eqb_ext. rewrite !in_app_iff. simpl.
    split; intros [H|H]; auto; destruct H as [<-|H]; auto.
  - assert (E : existsb (row_eqb r) seen = false).
    { destruct (existsb _ _) eqn:E; auto. apply existsb_row_eqb in E. contradiction. }
    rewrite E. cbn [negb map snd]. f_equal. rewrite (IH (r :: seen)), map_map. f_equal.
    apply filter_ext. intros [i y]. cbn [fst snd firstn]. f_equal.
    apply existsb_row_eqb_ext. rewrite !in_app_iff. simpl. tauto.
Qed.

Lemma In_dedup_seen : forall rs seen r,
  In r (dedup_seen seen rs) <-> In r rs /\ ~ In r seen.
Proof.
  induction rs as [|x rs IH]; intros seen r; simpl; [tauto|].
  destruct (in_dec row_eq_dec x seen) as [Hx|Hx].
  - rewrite IH. split; [tauto|]. intros [[<-|H] Hn]; [contradiction|auto].
  - simpl. rewrite IH. simpl. split.
    + intros [<-|[H1 H2]]; [auto|]. split; [auto|]. tauto.
    + intros [[<-|H1] H2]; [auto|].
      destruct (row_eq_dec x r); [left; auto | right; split; [auto|]].
      intros [|]; [congruence|contradiction].
Qed.

Lemma NoDup_dedup_seen : forall rs seen, NoDup (dedup_seen seen rs).
Proof.
  induction rs as [|x rs IH]; intro seen; simpl; [constructor|].
  destruct (in_dec row_eq_dec x seen); [auto|].
  constructor; [|auto]. rewrite In_dedup_seen. simpl. tauto.
Qed.

Lemma dedup_seen_id : forall rs seen,
  NoDup rs -> (forall r, In r rs -> ~ In r seen) -> dedup_seen seen rs = rs.
Proof.
  induction rs as [|x rs IH]; intros seen Hnd Hs; simpl; [reflexivity|].
  inversion Hnd as [|? ? Hx Hnd']; subst.
  destruct (in_dec row_eq_dec x seen) as [Hin|Hin].
  - exfalso. apply (Hs x); simpl; auto.
  - f_equal. apply IH; auto. intros r Hr [<-|H]; [contradiction|].
    apply (Hs r); simpl; auto.
Qed.

(** C5: the rows [load_and_clean] returns are the rows left after
    normalisation and empty-row removal, minus exactly those equal (in
    every column) to an earlier row: the first occurrence is kept and the
    order is preserved.  In particular no two returned rows are equal, and
    every distinct row (so each of two rows that differ in some cell) is
    retained. *)
Theorem clean_drop_duplicates : forall df0 df1 df,
  normalize df0 = inr df1 ->
  clean df0 = inr df ->
  let pre := rows (dropna_all df1) in
  rows df = spec_drop_duplicates pre /\
  NoDup (rows df) /\
  (forall r, In r (rows df) <-> In r pre).
Proof.
  intros df0 df1 df Hn Hc pre. unfold clean in Hc. rewrite Hn in Hc.
  inversion Hc; subst; clear Hc. simpl. fold pre.
  split; [|split].
  - rewrite dedup_seen_index. reflexivity.
  - apply NoDup_dedup_seen.
  - intro r. rewrite In_dedup_seen. simpl. tauto.
Qed.

Lemma clean_drop_duplicates_witness :
  normalize ex_dup_frame = inr (frame_of (normalize ex_dup_frame)) /\
  clean ex_dup_frame = inr (frame_of (clean ex_dup_frame)) /\
  rows (frame_of (clean ex_dup_frame))
    = spec_drop_duplicates (rows (dropna_all (frame_of (normalize ex_dup_frame)))) /\
  rows (frame_of (clean ex_dup_frame))
    = [[Some (VStr "x"); Some (VNum 1)]; [Some (VStr "x"); Some (VNum 2)]].
Proof.
  assert (H1 : normalize ex_dup_frame = inr (frame_of (normalize ex_dup_frame)))
    by (vm_compute; reflexivity).
  assert (H2 : clean ex_dup_frame = inr (frame_of (clean ex_dup_frame)))
    by (vm_compute; reflexivity).
  split; [exact H1|]. split; [exact H2|]. split.
  - exact (proj1 (clean_drop_duplicates _ _ _ H1 H2)).
  - vm_compute. reflexivity.
Defined.

(** ** Column access and the analyzer loop *)

Lemma value_eqb_refl : forall v, value_eqb v v = true.
Proof. intro v. unfold value_eqb. now destruct (value_eq_dec v v). Qed.

Lemma col_index_pos : forall df j d i,
  j < length (columns df) -> col_index df (nth j (columns df) d) = Some i -> i = j.
Proof.
  intros df j d i Hj. unfold col_index.
  pose proof (In_combine_seq (columns df) j d Hj) as Hin.
  assert (Hf : In (j, nth j (columns df) d)
                  (filter (fun p => value_eqb (snd p) (nth j (columns df) d))
                          (combine (seq 0 (length (columns df))) (columns df)))).
  { apply filter_In. split; [exact Hin|]. apply value_eqb_refl. }
  destruct (filter _ _) as [|[i' x] [|y t]]; try discriminate.
  intro H. inversion H; subst. destruct Hf as [E|[]]. now inversion E.
Qed.

Lemma col_index_columns : forall df df' l,
  columns df = columns df' -> col_index df l = col_index df' l.
Proof. intros df df' l E. unfold col_index. now rewrite E. Qed.

Lemma Forall2_nth_error {A B} (R : A -> B -> Prop) : forall l1 l2 j a,
  Forall2 R l1 l2 -> nth_error l1 j = Some a -> exists b, nth_error l2 j = Some b /\ R a b.
Proof.
  intros l1 l2 j a H; revert j. induction H as [|x y l1 l2 Hxy H IH]; intros [|j] E;
    simpl in *; try discriminate.
  - inversion E; subst. eauto.
  - eauto.
Qed.

Lemma analyze_loop_inv {argsort : list nat -> list nat} : forall ls df ps,
  analyze_loop argsort ls df = Some ps ->
  Forall2 (fun l p => exists i, col_index df l = Some i /\
             analyze_column argsort l (nth i (dtypes df) DObject) (col_cells df i) = Some p) ls ps.
Proof.
  induction ls as [|l ls IH]; intros df ps H; simpl in H.
  - inversion H; constructor.
  - destruct (col_index df l) as [i|] eqn:Ei; [|discriminate].
    destruct (analyze_column argsort _ _ _) as [p|] eqn:Ep; [|discriminate].
    destruct (analyze_loop argsort ls df) as [ps'|] eqn:Eps; [|discriminate].
    inversion H; subst. constructor; eauto.
Qed.

Lemma analyze_loop_complete {argsort : list nat -> list nat} : forall ls df,
  (forall l, In l ls -> exists i p, col_index df l = Some i /\
     analyze_column argsort l (nth i (dtypes df) DObject) (col_cells df i) = Some p) ->
  exists ps, analyze_loop argsort ls df = Some ps.
Proof.
  induction ls as [|l ls IH]; intros df H; simpl; [eauto|].
  destruct (H l (or_introl eq_refl)) as [i [p [Ei Ep]]]. rewrite Ei, Ep.
  destruct (IH df) as [ps Hps]; [intros; apply H; simpl; auto|]. rewrite Hps. eauto.
Qed.

(** What the analyzer reports for column [j], when it succeeds. *)
Lemma analyze_nth {argsort : list nat -> list nat} : forall df ps j,
  analyze_dataframe argsort df = Some ps -> j < length (columns df) ->
  exists p, nth_error ps j = Some p /\
    analyze_column argsort (nth j (columns df) (VStr "")) (nth j (dtypes df) DObject)
                   (col_cells df j) = Some p.
Proof.
  intros df ps j H Hj. apply analyze_loop_inv in H.
  destruct (Forall2_nth_error _ _ _ j (nth j (columns df) (VStr "")) H) as [p [Hp [i [Ei Ep]]]].
  - now apply nth_error_nth'.
  - apply col_index_pos in Ei; [subst; eauto | exact Hj].
Qed.

Lemma analyze_length {argsort : list nat -> list nat} : forall df ps,
  analyze_dataframe argsort df = Some ps -> length ps = length (columns df).
Proof.
  intros df ps H. apply analyze_loop_inv in H. symmetry. eapply Forall2_length; eauto.
Qed.

Lemma analyze_column_fields {argsort : list nat -> list nat} : forall lbl d cs p,
  analyze_column argsort lbl d cs = Some p ->
  column p = py_str lbl /\ dtype_name p = dtype_str d /\ missing p = count_missing cs.
Proof.
  unfold analyze_column. intros lbl d cs p H.
  destruct (is_numeric_dtype d).
  - destruct (all_some _) as [qs|]; [|discriminate].
    destruct (numeric_stats qs) as [[mn mx] mean]. inversion H; subst; auto.
  - inversion H; subst; auto.
Qed.

Lemma all_some_map {A B} (f : A -> option B) : forall l,
  (forall x, In x l -> f x <> None) -> exists l', all_some (map f l) = Some l'.
Proof.
  induction l as [|x l IH]; intro H; simpl; [eauto|].
  destruct (f x) as [y|] eqn:E; [|exfalso; apply (H x); simpl; auto].
  destruct IH as [l' Hl']; [intros; apply H; simpl; auto|]. rewrite Hl'. simpl. eauto.
Qed.

Lemma analyze_column_some {argsort : list nat -> list nat} : forall lbl d cs,
  (is_numeric_dtype d = true -> forall v, In v (somes cs) -> py_float v <> None) ->
  exists p, analyze_column argsort lbl d cs = Some p.
Proof.
  intros lbl d cs H. unfold analyze_column.
  destruct (is_numeric_dtype d); [|eauto].
  destruct (all_some_map py_float (somes cs)) as [qs Hqs]; [auto|].
  rewrite Hqs. destruct (numeric_stats qs) as [[mn mx] mean]. eauto.
Qed.

Lemma In_somes : forall cs v, In v (somes cs) <-> In (Some v) cs.
Proof.
  induction cs as [|[c|] cs IH]; intro v; simpl; [tauto| |].
  - rewrite IH. split; intros [H|H]; auto; left; congruence.
  - rewrite IH. split; [auto|]. intros [H|H]; [discriminate|auto].
Qed.

Lemma somes_all_missing : forall cs, forallb is_missing cs = true -> somes cs = [].
Proof. induction cs as [|[c|] cs IH]; simpl; intro H; auto; discriminate. Qed.

Lemma count_missing_all : forall cs, forallb is_missing cs = true -> count_missing cs = length cs.
Proof.
  unfold count_missing. induction cs as [|[c|] cs IH]; simpl; intro H; auto; discriminate.
Qed.

(** ** Numeric profiles *)

(** C3: a numeric-dtype column whose cells are all missing is reported
    with min, max and mean all absent ([None]) and with its missing count
    (every row). *)
Theorem numeric_all_missing_null : forall argsort df ps j,
  analyze_dataframe argsort df = Some ps ->
  j < length (columns df) ->
  is_numeric_dtype (nth j (dtypes df) DObject) = true ->
  forallb is_missing (col_cells df j) = true ->
  nth_error ps j =
    Some (mkProfile (py_str (nth j (columns df) (VStr "")))
                    (dtype_str (nth j (dtypes df) DObject))
                    (length (rows df)) (Numeric None None None)).
Proof.
  intros argsort df ps j H Hj Hnum Hmiss.
  destruct (analyze_nth df ps j H Hj) as [p [Hp Ep]]. rewrite Hp. f_equal.
  unfold analyze_column in Ep. rewrite Hnum, (somes_all_missing _ Hmiss) in Ep.
  simpl in Ep. inversion Ep. f_equal.
  rewrite count_missing_all by exact Hmiss. unfold col_cells. apply length_map.
Qed.

Lemma numeric_all_missing_null_witness :
  analyze_dataframe argsort_stable ex_empty_numeric
    = Some [mkProfile "id" "int64" 0 (Numeric (Some 1%Q) (Some 2%Q) (Some (3 # 2)%Q));
            mkProfile "score" "float64" 2 (Numeric None None None)] /\
  nth_error [mkProfile "id" "int64" 0 (Numeric (Some 1%Q) (Some 2%Q) (Some (3 # 2)%Q));
             mkProfile "score" "float64" 2 (Numeric None None None)] 1
    = Some (mkProfile "score" "float64" 2 (Numeric None None None)).
Proof.
  assert (H : analyze_dataframe argsort_stable ex_empty_numeric
    = Some [mkProfile "id" "int64" 0 (Numeric (Some 1%Q) (Some 2%Q) (Some (3 # 2)%Q));
            mkProfile "score" "float64" 2 (Numeric None None None)])
    by (vm_compute; reflexivity).
  split; [exact H|].
  exact (numeric_all_missing_null argsort_stable ex_empty_numeric _ 1 H
           ltac:(vm_compute; reflexivity) ltac:(vm_compute; reflexivity)
           ltac:(vm_compute; reflexivity)).
Defined.

(** ** What cleaning preserves *)

Lemma dtype_eqb_object : forall d, dtype_eqb d DObject = true -> d = DObject.
Proof. intros []; simpl; congruence. Qed.

Lemma trim_loop_shape : forall ls df df',
  trim_loop ls df = inr df' -> columns df' = columns df /\ dtypes df' = dtypes df.
Proof.
  induction ls as [|l ls IH]; intros df df' H; simpl in H.
  - inversion H; auto.
  - destruct (col_index df l) as [i|]; [|discriminate].
    destruct (dtype_eqb _ _); apply IH in H; exact H.
Qed.

Lemma trim_loop_labels : forall ls df df',
  trim_loop ls df = inr df' -> forall l, In l ls -> exists i, col_index df l = Some i.
Proof.
  induction ls as [|l ls IH]; intros df df' H l' Hl; simpl in H; [contradiction|].
  destruct (col_index df l) as [i|] eqn:Ei; [|discriminate].
  destruct Hl as [<-|Hl]; [eauto|].
  destruct (dtype_eqb _ _); apply IH with (l := l') in H; auto;
    destruct H as [i' Hi']; exists i'; rewrite <- Hi'; apply col_index_columns; reflexivity.
Qed.

Lemma map_col_numeric_ok : forall j f df,
  nth j (dtypes df) DObject = DObject ->
  numeric_cells_ok df -> numeric_cells_ok (map_col j f df).
Proof.
  intros j f df Hd H r k Hr. simpl in *.
  apply in_map_iff in Hr as [r0 [<- Hr0]].
  destruct (Nat.eq_dec k j) as [->|Hne].
  - rewrite Hd. reflexivity.
  - rewrite nth_replace_nth_other by exact Hne. apply H, Hr0.
Qed.

Lemma trim_loop_numeric_ok : forall ls df df',
  trim_loop ls df = inr df' -> numeric_cells_ok df -> numeric_cells_ok df'.
Proof.
  induction ls as [|l ls IH]; intros df df' H Hok; simpl in H.
  - inversion H; subst; exact Hok.
  - destruct (col_index df l) as [i|]; [|discriminate].
    destruct (dtype_eqb _ _) eqn:E; apply IH in H; auto.
    apply map_col_numeric_ok; auto. now apply dtype_eqb_object.
Qed.

Lemma cell_fits_num_ok : forall d c, cell_fits d c = true -> num_ok d c = true.
Proof. intros [] [[]|]; simpl; auto. Qed.

Lemma well_typed_numeric_ok : forall df, well_typed df = true -> numeric_cells_ok df.
Proof.
  intros df H r j Hr. unfold well_typed in H.
  apply andb_true_iff in H as [Hlen Hrows]. apply Nat.eqb_eq in Hlen.
  rewrite forallb_forall in Hrows. specialize (Hrows r Hr).
  apply andb_true_iff in Hrows as [Hr1 Hr2]. apply Nat.eqb_eq in Hr1.
  rewrite forallb_forall in Hr2.
  destruct (Nat.lt_ge_cases j (length r)) as [Hj|Hj].
  - apply cell_fits_num_ok.
    apply (Hr2 (nth j (dtypes df) DObject, nth j r None)).
    rewrite <- combine_nth by lia. apply nth_In. rewrite length_combine. lia.
  - rewrite (nth_overflow r) by exact Hj. destruct (nth j (dtypes df) DObject); reflexivity.
Qed.

(** The frame [clean] returns: that of the trimming step, with the same
    labels and dtypes and a subset of its rows, none entirely missing. *)
Lemma clean_inv : forall df0 df,
  clean df0 = inr df ->
  exists df2, trim_loop (columns (clean_columns df0)) (clean_columns df0) = inr df2 /\
    columns df = columns df2 /\ dtypes df = dtypes df2 /\
    columns df2 = columns (clean_columns df0) /\ dtypes df2 = dtypes df0 /\
    (forall r, In r (rows df) -> In r (rows df2) /\ forallb is_missing r = false).
Proof.
  intros df0 df H. unfold clean, normalize in H.
  destruct (trim_loop _ _) as [e|df2] eqn:E; [discriminate|].
  inversion H; subst; clear H. exists df2.
  destruct (trim_loop_shape _ _ _ E) as [Hc Hd].
  do 5 (split; [auto|]).
  intros r Hr. simpl in Hr. apply In_dedup_seen in Hr as [Hr _].
  apply filter_In in Hr as [Hr Hm]. split; [exact Hr|]. now apply negb_true_iff.
Qed.

Lemma clean_numeric_ok : forall df0 df,
  clean df0 = inr df -> numeric_cells_ok df0 -> numeric_cells_ok df.
Proof.
  intros df0 df H Hok.
  destruct (clean_inv _ _ H) as [df2 [Et [Hc [Hd [Hc2 [Hd2 Hrows]]]]]].
  apply trim_loop_numeric_ok in Et; [|exact Hok].
  intros r j Hr. rewrite Hd. apply Et, Hrows, Hr.
Qed.

Lemma clean_labels : forall df0 df,
  clean df0 = inr df -> forall l, In l (columns df) -> exists i, col_index df l = Some i.
Proof.
  intros df0 df H l Hl.
  destruct (clean_inv _ _ H) as [df2 [Et [Hc [Hd [Hc2 [Hd2 Hrows]]]]]].
  rewrite Hc, Hc2 in Hl. destruct (trim_loop_labels _ _ _ Et l Hl) as [i Hi].
  exists i. rewrite <- Hi. apply col_index_columns. congruence.
Qed.

(** On a cleaned frame the analyzer succeeds. *)
Lemma analyze_clean_some {argsort : list nat -> list nat} : forall df0 df,
  numeric_cells_ok df0 -> clean df0 = inr df -> exists ps, analyze_dataframe argsort df = Some ps.
Proof.
  intros df0 df Hok H. apply analyze_loop_complete. intros l Hl.
  destruct (clean_labels _ _ H l Hl) as [i Hi]. exists i.
  destruct (@analyze_column_some argsort l (nth i (dtypes df) DObject) (col_cells df i)) as [p Hp].
  - intros Hnum v Hv. apply In_somes in Hv. unfold col_cells in Hv.
    apply in_map_iff in Hv as [r [Hrv Hr]].
    pose proof (clean_numeric_ok _ _ H Hok r i Hr) as Hn.
    assert (Hn2 : num_ok (nth i (dtypes df) DObject) (Some v) = true) by (rewrite <- Hrv; exact Hn).
    unfold num_ok in Hn2. rewrite Hnum in Hn2. clear Hn. destruct v; simpl in *; discriminate.
  - eauto.
Qed.

(** ** Totality of the analyzer *)

(** C8: for every frame the cleaner returns (from a parsed frame whose
    cells fit their dtypes), the analyzer succeeds and returns one profile
    per column, in column order, each naming its column and carrying the
    number of missing cells of that column. *)
Theorem analyze_clean_total : forall argsort df0 df,
  well_typed df0 = true ->
  clean df0 = inr df ->
  exists ps, analyze_dataframe argsort df = Some ps /\
    length ps = length (columns df) /\
    forall j, j < length (columns df) ->
      exists p, nth_error ps j = Some p /\
        column p = py_str (nth j (columns df) (VStr "")) /\
        missing p = count_missing (col_cells df j).
Proof.
  intros argsort df0 df Hwt H.
  destruct (@analyze_clean_some argsort df0 df (well_typed_numeric_ok _ Hwt) H) as [ps Hps].
  exists ps. split; [exact Hps|]. split; [exact (analyze_length df ps Hps)|].
  intros j Hj. destruct (analyze_nth df ps j Hps Hj) as [p [Hp Ep]].
  exists p. split; [exact Hp|]. apply analyze_column_fields in Ep. tauto.
Qed.

Lemma analyze_clean_total_witness :
  well_typed ex_edge_frame = true /\
  clean ex_edge_frame = inr (frame_of (clean ex_edge_frame)) /\
  exists ps, analyze_dataframe argsort_stable (frame_of (clean ex_edge_frame)) = Some ps /\
             length ps = 3.
Proof.
  assert (H1 : well_typed ex_edge_frame = true) by (vm_compute; reflexivity).
  assert (H2 : clean ex_edge_frame = inr (frame_of (clean ex_edge_frame)))
    by (vm_compute; reflexivity).
  split; [exact H1|]. split; [exact H2|].
  destruct (analyze_clean_total argsort_stable _ _ H1 H2) as [ps [Hps [Hlen _]]].
  exists ps. split; [exact Hps|]. rewrite Hlen. vm_compute. reflexivity.
Defined.

(** ** Boolean columns *)



(** ** Cleaning twice *)

Lemma all_space_app : forall n x y, String.length x <= n ->
  all_space x = true -> all_space (x ++ y)%string = all_space y.
Proof.
  induction n as [|n IH]; intros x y Hl H; (destruct x as [|c x1]; [reflexivity|]);
    [simpl in Hl; lia|].
  simpl in Hl. cbn [append all_space] in *.
  destruct (is_space c); [apply IH; [lia|exact H]|].
  destruct x1 as [|d x2]; [discriminate|]. cbn [append] in *.
  destruct (is_space2 c d); [apply IH; [simpl in Hl; lia|exact H]|].
  destruct x2 as [|e x3]; [discriminate|]. cbn [append] in *.
  destruct (is_space3 c d e); [apply IH; [simpl in Hl; lia|exact H]|discriminate].
Qed.

Lemma rstrip_split : forall s, exists t, s = (rstrip s ++ t)%string /\ all_space t = true.
Proof.
  induction s as [|c s IH]; [exists ""; split; reflexivity|].
  cbn [rstrip]. destruct (all_space (String c s)) eqn:E.
  - exists (String c s). split; [reflexivity|exact E].
  - destruct IH as [t [Ht Hs]]. exists t. split; [|exact Hs].
    cbn [append]. rewrite <- Ht. reflexivity.
Qed.

Lemma rstrip_idem : forall s, rstrip (rstrip s) = rstrip s.
Proof.
  induction s as [|c s IH]; [reflexivity|]. cbn [rstrip].
  destruct (all_space (String c s)) eqn:E; [reflexivity|].
  cbn [rstrip]. rewrite IH.
  destruct (all_space (String c (rstrip s))) eqn:E'; [|reflexivity].
  exfalso. destruct (rstrip_split s) as [t [Ht Hs]].
  rewrite Ht in E.
  change (String c (rstrip s ++ t)%string) with ((String c (rstrip s)) ++ t)%string in E.
  rewrite (all_space_app (String.length (String c (rstrip s)))) in E by (lia || exact E').
  congruence.
Qed.

Lemma lstrip_length : forall s, String.length (lstrip s) <= String.length s.
Proof.
  fix IH 1. intros [|c s1]; [simpl; lia|]. cbn [lstrip].
  destruct (is_space c); [simpl; specialize (IH s1); lia|].
  destruct s1 as [|d s2]; [simpl; lia|].
  destruct (is_space2 c d); [simpl; specialize (IH s2); lia|].
  destruct s2 as [|e s3]; [simpl; lia|].
  destruct (is_space3 c d e); [simpl; specialize (IH s3); lia|simpl; lia].
Qed.

Lemma lstrip_idem : forall s, lstrip (lstrip s) = lstrip s.
Proof.
  fix IH 1. intros [|c s1]; [reflexivity|]. cbn [lstrip].
  destruct (is_space c) eqn:E1; [apply IH|].
  destruct s1 as [|d s2]; [cbn [lstrip]; rewrite E1; reflexivity|].
  destruct (is_space2 c d) eqn:E2; [apply IH|].
  destruct s2 as [|e s3]; [cbn [lstrip]; rewrite E1, E2; reflexivity|].
  destruct (is_space3 c d e) eqn:E3; [apply IH|].
  cbn [lstrip]. rewrite E1, E2, E3. reflexivity.
Qed.

(** A prefix of a string with no leading whitespace has none either. *)
Lemma lstrip_prefix : forall p t, lstrip (p ++ t)%string = (p ++ t)%string -> lstrip p = p.
Proof.
  intros [|c s1] t H; [reflexivity|]. cbn [append lstrip] in *.
  destruct (is_space c).
  { exfalso. pose proof (lstrip_length (s1 ++ t)) as L. rewrite H in L. simpl in L; lia. }
  destruct s1 as [|d s2]; [reflexivity|]. cbn [append] in *.
  destruct (is_space2 c d).
  { exfalso. pose proof (lstrip_length (s2 ++ t)) as L. rewrite H in L. simpl in L; lia. }
  destruct s2 as [|e s3]; [reflexivity|]. cbn [append] in *.
  destruct (is_space3 c d e); [|reflexivity].
  exfalso. pose proof (lstrip_length (s3 ++ t)) as L. rewrite H in L. simpl in L; lia.
Qed.

Lemma strip_idem : forall s, strip (strip s) = strip s.
Proof.
  intro s. unfold strip.
  destruct (rstrip_split (lstrip s)) as [t [Ht _]].
  assert (H : lstrip (rstrip (lstrip s)) = rstrip (lstrip s)).
  { apply (lstrip_prefix _ t). rewrite <- Ht. apply lstrip_idem. }
  rewrite H. apply rstrip_idem.
Qed.

Lemma replace_nth_oob {A} : forall j (x : A) l, length l <= j -> replace_nth j x l = l.
Proof. induction j; intros x [|y l] H; simpl in *; auto; try lia. f_equal. apply IHj; lia. Qed.

Lemma trim_cell_trimmed : forall c, exists s, trim_cell c = Some (VStr s) /\ strip s = s.
Proof. intro c. unfold trim_cell. eexists; split; [reflexivity|]. apply strip_idem. Qed.

Lemma map_col_trim_keeps : forall j k df,
  col_trimmed df k -> col_trimmed (map_col j trim_cell df) k.
Proof.
  intros j k df H r Hr Hk. simpl in Hr. apply in_map_iff in Hr as [r0 [<- Hr0]].
  rewrite length_replace_nth in Hk.
  destruct (Nat.eq_dec k j) as [->|Hne].
  - rewrite nth_replace_nth_same by exact Hk. apply trim_cell_trimmed.
  - rewrite nth_replace_nth_other by exact Hne. apply H; auto.
Qed.

Lemma map_col_trim_trimmed : forall j df, col_trimmed (map_col j trim_cell df) j.
Proof.
  intros j df r Hr Hj. simpl in Hr. apply in_map_iff in Hr as [r0 [<- Hr0]].
  rewrite length_replace_nth in Hj.
  rewrite nth_replace_nth_same by exact Hj. apply trim_cell_trimmed.
Qed.

Lemma trim_loop_trimmed : forall ls df df',
  trim_loop ls df = inr df' ->
  (forall k, col_trimmed df k -> col_trimmed df' k) /\
  (forall l i, In l ls -> col_index df l = Some i ->
     nth i (dtypes df) DObject = DObject -> col_trimmed df' i).
Proof.
  induction ls as [|l ls IH]; intros df df' H; simpl in H.
  - inversion H; subst. split; [auto | intros ? ? []].
  - destruct (col_index df l) as [i0|] eqn:Ei0; [|discriminate].
    destruct (dtype_eqb (nth i0 (dtypes df) DObject) DObject) eqn:Ed.
    + destruct (IH _ _ H) as [Hkeep Hlab]. split.
      * intros k Hk. apply Hkeep, map_col_trim_keeps, Hk.
      * intros l' i [<-|Hl'] Ei Hd.
        -- rewrite Ei0 in Ei. inversion Ei; subst.
           apply Hkeep, map_col_trim_trimmed.
        -- apply (Hlab l' i Hl'); [|exact Hd].
           rewrite <- Ei. apply col_index_columns. reflexivity.
    + destruct (IH _ _ H) as [Hkeep Hlab]. split; [exact Hkeep|].
      intros l' i [<-|Hl'] Ei Hd.
      * rewrite Ei0 in Ei. inversion Ei; subst. rewrite Hd in Ed. discriminate.
      * eauto.
Qed.

Lemma col_trimmed_subset : forall df df' k,
  (forall r, In r (rows df') -> In r (rows df)) -> col_trimmed df k -> col_trimmed df' k.
Proof. intros df df' k Hs H r Hr. apply H, Hs, Hr. Qed.

Lemma map_col_trimmed_id : forall j df, col_trimmed df j -> map_col j trim_cell df = df.
Proof.
  intros j [cols dts rs] H. unfold map_col. cbn [columns dtypes rows]. f_equal.
  rewrite <- (map_id rs) at 2. apply map_ext_in. intros r Hr.
  destruct (Nat.lt_ge_cases j (length r)) as [Hj|Hj].
  - destruct (H r Hr Hj) as [s [Es Hs]].
    assert (Et : trim_cell (nth j r None) = nth j r None).
    { unfold cell in *. rewrite Es. unfold trim_cell. simpl. now rewrite Hs. }
    etransitivity; [|apply (replace_nth_id j None r)]. f_equal. exact Et.
  - apply replace_nth_oob, Hj.
Qed.

Lemma trim_loop_id : forall ls df,
  (forall l, In l ls -> exists i, col_index df l = Some i /\
     (nth i (dtypes df) DObject = DObject -> col_trimmed df i)) ->
  trim_loop ls df = inr df.
Proof.
  induction ls as [|l ls IH]; intros df H; simpl; [reflexivity|].
  destruct (H l (or_introl eq_refl)) as [i [Ei Ht]]. rewrite Ei.
  destruct (dtype_eqb _ _) eqn:Ed.
  - rewrite map_col_trimmed_id by (apply Ht, dtype_eqb_object, Ed).
    apply IH. intros; apply H; simpl; auto.
  - apply IH. intros; apply H; simpl; auto.
Qed.

(** C9 (as amended): running the cleaning steps of [load_and_clean]
    (header trimming, string trimming, empty-row removal, deduplication)
    again on the frame they returned changes nothing. *)
Theorem clean_idempotent : forall df0 df, clean df0 = inr df -> clean df = inr df.
Proof.
  intros df0 df H. unfold clean, normalize in H. cbv zeta in H.
  destruct (trim_loop _ _) as [e|df2] eqn:Et; [discriminate|].
  inversion H; subst df; clear H.
  set (D := drop_duplicates (dropna_all df2)).
  destruct (trim_loop_shape _ _ _ Et) as [Hc2 Hd2].
  destruct (trim_loop_trimmed _ _ _ Et) as [_ Hlab].
  assert (Hsub : forall r, In r (rows D) -> In r (rows df2) /\ forallb is_missing r = false).
  { intros r Hr. unfold D in Hr. simpl in Hr. apply In_dedup_seen in Hr as [Hr _].
    apply filter_In in Hr as [Hr Hm]. split; [exact Hr|]. now apply negb_true_iff. }
  assert (Ecols : clean_columns D = D).
  { unfold D, clean_columns, drop_duplicates, dropna_all. cbn [columns dtypes rows].
    f_equal. rewrite Hc2. simpl. rewrite map_map. apply map_ext. intro c.
    simpl. now rewrite strip_idem. }
  assert (Etrim : trim_loop (columns D) D = inr D).
  { apply trim_loop_id. intros l Hl.
    assert (Hl' : In l (columns (clean_columns df0))) by (rewrite <- Hc2; exact Hl).
    destruct (trim_loop_labels _ _ _ Et l Hl') as [i Ei].
    exists i. split.
    - rewrite <- Ei. apply col_index_columns. simpl. exact Hc2.
    - intro Hd. apply (col_trimmed_subset df2); [intros r Hr; apply Hsub, Hr|].
      apply (Hlab l i Hl' Ei). rewrite <- Hd2. exact Hd. }
  assert (Hnd : NoDup (rows D)) by apply NoDup_dedup_seen.
  clearbody D.
  assert (Edrop : dropna_all D = D).
  { destruct D as [c d rs]. unfold dropna_all. cbn [columns dtypes rows]. f_equal.
    rewrite (filter_ext_in _ (fun _ => true)); [apply filter_true|].
    intros r Hr. apply negb_true_iff. apply (Hsub r). exact Hr. }
  assert (Ededup : drop_duplicates D = D).
  { destruct D as [c d rs]. unfold drop_duplicates. cbn [columns dtypes rows].
    f_equal. apply dedup_seen_id; [exact Hnd | intros r _ []]. }
  unfold clean, normalize. cbv zeta. rewrite Ecols, Etrim, Edrop, Ededup. reflexivity.
Qed.

Lemma clean_idempotent_witness :
  clean ex_edge_frame = inr (frame_of (clean ex_edge_frame)) /\
  clean (frame_of (clean ex_edge_frame)) = inr (frame_of (clean ex_edge_frame)).
Proof.
  assert (H : clean ex_edge_frame = inr (frame_of (clean ex_edge_frame)))
    by (vm_compute; reflexivity).
  split; [exact H | exact (clean_idempotent _ _ H)].
Defined.

(** ** Boolean columns, cleaned and profiled *)





(** After cleaning, the cells of an [object] column are strings that
    [strip] leaves unchanged. *)
Lemma clean_object_trimmed : forall df0 df j r,
  clean df0 = inr df ->
  j < length (columns df) -> nth j (dtypes df) DObject = DObject ->
  In r (rows df) -> j < length r ->
  exists s, nth j r None = Some (VStr s) /\ strip s = s.
Proof.
  intros df0 df j r H Hj Hd Hr Hjr.
  unfold clean, normalize in H. cbv zeta in H.
  destruct (trim_loop _ _) as [e|df2] eqn:Et; [discriminate|].
  inversion H; subst df; clear H.
  destruct (trim_loop_shape _ _ _ Et) as [Hc Hd2].
  destruct (trim_loop_trimmed _ _ _ Et) as [_ Hlab].
  simpl in Hj, Hd, Hr. rewrite Hc in Hj.
  set (l := nth j (columns (clean_columns df0)) (VStr "")).
  assert (Hl : In l (columns (clean_columns df0))) by (apply nth_In; exact Hj).
  destruct (trim_loop_labels _ _ _ Et l Hl) as [i Ei].
  pose proof (col_index_pos _ _ _ _ Hj Ei) as ->.
  apply In_dedup_seen in Hr as [Hr _]. apply filter_In in Hr as [Hr _].
  apply (Hlab l j Hl Ei); [|exact Hr|exact Hjr].
  rewrite <- Hd2. exact Hd.
Qed.



(** * Further properties of the loader, the cleaner and the analyzer *)

(** ** Encoding fallback *)

(** A CSV file is read in UTF-8, and read a second time, in Latin-1, only
    when that read fails to decode, which happens only to bytes that are not
    valid UTF-8; Latin-1 decodes every byte string, so the third encoding,
    cp1252, is never tried.  A file whose bytes are valid UTF-8 is read
    once. *)
Theorem load_csv_encodings : forall tok w path,
  tokenizer_utf8 tok ->
  ends_with ".csv" (lower (path_name path)) = true ->
  load_and_clean tok w path =
    match read_csv tok UTF8 w with
    | inl DecodeFailure =>
        ([ReadCsv UTF8; ReadCsv Latin1], res_bind (read_csv tok Latin1 w) clean)
    | r => ([ReadCsv UTF8], res_bind r clean)
    end /\
  (read_csv tok UTF8 w = inl DecodeFailure -> decode UTF8 (file_bytes w) = None) /\
  (decode UTF8 (file_bytes w) <> None -> fst (load_and_clean tok w path) = [ReadCsv UTF8]).
Proof.
  intros tok w path Htok Hcsv.
  pose proof (load_csv_reads tok w path Htok Hcsv) as Hload.
  pose proof (read_csv_utf8_valid tok w Htok) as Hvalid.
  split; [exact Hload|split].
  - intro E. destruct (decode UTF8 (file_bytes w)) eqn:Ed; [|reflexivity].
    exfalso. apply (Hvalid ltac:(discriminate) E).
  - intro Hd. rewrite Hload.
    destruct (read_csv tok UTF8 w) as [[]|] eqn:E; try reflexivity.
    exfalso. exact (Hvalid Hd eq_refl).
Qed.

Lemma load_csv_encodings_witness :
  tokenizer_utf8 simple_tokenize /\
  ends_with ".csv" (lower (path_name "upload/cafe.csv")) = true /\
  fst (load_and_clean simple_tokenize (mkWorld ex_latin1_bytes (inl ParseFailure))
         "upload/cafe.csv") = [ReadCsv UTF8; ReadCsv Latin1] /\
  fst (load_and_clean simple_tokenize (mkWorld (bytes_of_string ex_csv) (inl ParseFailure))
         "upload/cafe.csv") = [ReadCsv UTF8].
Proof.
  split; [exact simple_tokenize_utf8|]. split; [reflexivity|]. split.
  - destruct (load_csv_encodings simple_tokenize (mkWorld ex_latin1_bytes (inl ParseFailure))
                "upload/cafe.csv" simple_tokenize_utf8 eq_refl) as [H _].
    rewrite H. vm_compute. reflexivity.
  - destruct (load_csv_encodings simple_tokenize (mkWorld (bytes_of_string ex_csv) (inl ParseFailure))
                "upload/cafe.csv" simple_tokenize_utf8 eq_refl) as [_ [_ H]].
    apply H. vm_compute. discriminate.
Defined.

(** ** Repeated column labels *)

Lemma col_index_dup : forall df i j d,
  i < j -> j < length (columns df) ->
  nth i (columns df) d = nth j (columns df) d ->
  col_index df (nth j (columns df) d) = None.
Proof.
  intros df i j d Hij Hj E. unfold col_index.
  assert (Hi : In (i, nth i (columns df) d)
                 (filter (fun p => value_eqb (snd p) (nth j (columns df) d))
                         (combine (seq 0 (length (columns df))) (columns df)))).
  { apply filter_In. split; [apply In_combine_seq; lia|]. simpl. rewrite E. apply value_eqb_refl. }
  assert (Hj' : In (j, nth j (columns df) d)
                 (filter (fun p => value_eqb (snd p) (nth j (columns df) d))
                         (combine (seq 0 (length (columns df))) (columns df)))).
  { apply filter_In. split; [apply In_combine_seq; lia|]. simpl. apply value_eqb_refl. }
  destruct (filter _ _) as [|[k v] [|q l]]; [contradiction| |reflexivity].
  destruct Hi as [Hi|[]]; destruct Hj' as [Hj'|[]].
  inversion Hi; inversion Hj'; lia.
Qed.

Lemma trim_loop_fail : forall ls df l,
  In l ls -> col_index df l = None -> exists e, trim_loop ls df = inl e.
Proof.
  induction ls as [|l0 ls IH]; intros df l Hl Hn; [contradiction|]. simpl.
  destruct (col_index df l0) as [i|] eqn:Ei; [|eauto].
  destruct Hl as [<-|Hl]; [congruence|].
  destruct (dtype_eqb _ _); apply (IH _ l Hl); [|exact Hn].
  rewrite <- Hn. apply col_index_columns. reflexivity.
Qed.

(** Two column labels that are equal once converted with [str] and
    stripped make [load_and_clean] fail: the cleaner's [df[col]] then
    selects two columns, whose [.dtype] raises. *)
Theorem clean_duplicate_labels : forall df i j d,
  i < j -> j < length (columns df) ->
  strip (py_str (nth i (columns df) d)) = strip (py_str (nth j (columns df) d)) ->
  clean df = inl ColumnAccessFailure.
Proof.
  intros df i j d Hij Hj E. unfold clean, normalize. cbv zeta.
  set (f := fun c => VStr (strip (py_str c))).
  assert (Hn : col_index (clean_columns df) (nth j (columns (clean_columns df)) (f d)) = None).
  { apply (col_index_dup _ i); simpl; rewrite ?length_map; [lia|lia|].
    unfold f. rewrite (map_nth (fun c : value => VStr (strip (py_str c))) (columns df) d i).
    rewrite (map_nth (fun c : value => VStr (strip (py_str c))) (columns df) d j).
    now rewrite E. }
  assert (Hl : j < length (columns (clean_columns df))) by (simpl; rewrite length_map; lia).
  destruct (trim_loop_fail (columns (clean_columns df)) (clean_columns df) _
              (nth_In _ (f d) Hl) Hn) as [e He]. rewrite He. now rewrite (trim_loop_error _ _ _ He).
Qed.

Lemma clean_duplicate_labels_witness :
  0 < 1 /\ 1 < length (columns (read_csv_fields [" id"; "id"] [["1"; "2"]])) /\
  strip (py_str (nth 0 (columns (read_csv_fields [" id"; "id"] [["1"; "2"]])) (VStr "")))
    = strip (py_str (nth 1 (columns (read_csv_fields [" id"; "id"] [["1"; "2"]])) (VStr ""))) /\
  clean (read_csv_fields [" id"; "id"] [["1"; "2"]]) = inl ColumnAccessFailure.
Proof.
  split; [lia|]. split; [vm_compute; lia|]. split; [vm_compute; reflexivity|].
  apply (clean_duplicate_labels _ 0 1 (VStr "")); [lia | vm_compute; lia | vm_compute; reflexivity].
Defined.

Lemma analyze_loop_fail {argsort : list nat -> list nat} : forall ls df l,
  In l ls -> col_index df l = None -> analyze_loop argsort ls df = None.
Proof.
  induction ls as [|l0 ls IH]; intros df l Hl Hn; [contradiction|]. simpl.
  destruct (col_index df l0) as [i|] eqn:Ei; [|reflexivity].
  destruct Hl as [<-|Hl]; [congruence|].
  rewrite (IH df l Hl Hn). destruct (analyze_column argsort _ _ _); reflexivity.
Qed.

(** [analyze_dataframe] fails on a frame with a repeated column label:
    [df[col]] then selects two columns and [s.dtype] raises. *)
Theorem analyze_duplicate_labels : forall argsort df i j d,
  i < j -> j < length (columns df) ->
  nth i (columns df) d = nth j (columns df) d ->
  analyze_dataframe argsort df = None.
Proof.
  intros argsort df i j d Hij Hj E. unfold analyze_dataframe.
  apply (analyze_loop_fail _ _ (nth j (columns df) d)); [apply nth_In; lia|].
  now apply (col_index_dup _ i).
Qed.

Lemma analyze_duplicate_labels_witness :
  0 < 1 /\ 1 < length (columns (mkFrame [VStr "a"; VStr "a"] [DInt64; DObject] [])) /\
  analyze_dataframe argsort_stable (mkFrame [VStr "a"; VStr "a"] [DInt64; DObject] []) = None.
Proof.
  split; [lia|]. split; [simpl; lia|].
  apply (analyze_duplicate_labels argsort_stable _ 0 1 (VStr "")); simpl; [lia|lia|reflexivity].
Defined.

(** ** Shape of the cleaned frame *)

Lemma trim_loop_rows_length : forall ls df df',
  trim_loop ls df = inr df' -> length (rows df') = length (rows df).
Proof.
  induction ls as [|l ls IH]; intros df df' H; simpl in H; [now inversion H|].
  destruct (col_index df l) as [i|]; [|discriminate].
  destruct (dtype_eqb _ _); rewrite (IH _ _ H); [apply length_map|reflexivity].
Qed.

Lemma dedup_seen_length : forall rs seen, length (dedup_seen seen rs) <= length rs.
Proof.
  induction rs as [|r rs IH]; intro seen; simpl; [lia|].
  destruct (in_dec row_eq_dec r seen); simpl;
    [specialize (IH seen) | specialize (IH (r :: seen))]; lia.
Qed.

(** The cleaned frame has the stripped [str] of each original label, in
    order, the original dtypes, no more rows than the parsed frame, and no
    row made only of missing cells. *)
Theorem clean_frame_shape : forall df0 df,
  clean df0 = inr df ->
  columns df = map (fun c => VStr (strip (py_str c))) (columns df0) /\
  dtypes df = dtypes df0 /\
  length (rows df) <= length (rows df0) /\
  (forall r, In r (rows df) -> exists v, In (Some v) r).
Proof.
  intros df0 df H.
  assert (Hr : forall r, In r (rows df) -> forallb is_missing r = false).
  { intros r Hr. destruct (clean_inv _ _ H) as [df2 [_ [_ [_ [_ [_ Hx]]]]]]. apply Hx, Hr. }
  unfold clean, normalize in H. cbv zeta in H.
  destruct (trim_loop _ _) as [e|df2] eqn:Et; [discriminate|].
  inversion H; subst df; clear H.
  destruct (trim_loop_shape _ _ _ Et) as [Hc Hd].
  split; [exact Hc|]. split; [exact Hd|]. split.
  - simpl.
    pose proof (dedup_seen_length (filter (fun r => negb (forallb is_missing r)) (rows df2)) []).
    pose proof (filter_length_le (fun r => negb (forallb is_missing r)) (rows df2)).
    pose proof (trim_loop_rows_length _ _ _ Et) as HL.
    eapply Nat.le_trans; [exact H|]. eapply Nat.le_trans; [exact H0|].
    exact (Nat.eq_le_incl _ _ HL).
  - intros r Hin. specialize (Hr r Hin).
    destruct (existsb (fun c => negb (is_missing c)) r) eqn:Ex.
    + apply existsb_exists in Ex as [[v|] [Hv Hm]]; [eauto | discriminate].
    + exfalso. assert (forallb is_missing r = true); [|congruence].
      apply forallb_forall. intros c Hcr.
      destruct (is_missing c) eqn:Em; [reflexivity|].
      assert (existsb (fun c => negb (is_missing c)) r = true); [|congruence].
      apply existsb_exists. exists c. now rewrite Em.
Qed.

Lemma clean_frame_shape_witness :
  clean ex_edge_frame = inr (frame_of (clean ex_edge_frame)) /\
  length (rows (frame_of (clean ex_edge_frame))) <= length (rows ex_edge_frame).
Proof.
  assert (H : clean ex_edge_frame = inr (frame_of (clean ex_edge_frame)))
    by (vm_compute; reflexivity).
  split; [exact H|]. exact (proj1 (proj2 (proj2 (clean_frame_shape _ _ H)))).
Defined.

(** After cleaning, a column of dtype [object] holds no missing cell: every
    cell of it is a string that [strip] leaves unchanged. *)
Theorem clean_object_columns : forall df0 df j r,
  clean df0 = inr df ->
  j < length (columns df) -> nth j (dtypes df) DObject = DObject ->
  In r (rows df) -> j < length r ->
  exists s, nth j r None = Some (VStr s) /\ strip s = s.
Proof. exact clean_object_trimmed. Qed.

Lemma clean_object_columns_witness :
  clean (read_csv_fields ["name"] [[" Ann "]; [""]])
    = inr (frame_of (clean (read_csv_fields ["name"] [[" Ann "]; [""]]))) /\
  exists s, nth 0 (nth 1 (rows (frame_of (clean (read_csv_fields ["name"] [[" Ann "]; [""]])))) [])
              None = Some (VStr s) /\ strip s = s.
Proof.
  assert (H : clean (read_csv_fields ["name"] [[" Ann "]; [""]])
              = inr (frame_of (clean (read_csv_fields ["name"] [[" Ann "]; [""]]))))
    by (vm_compute; reflexivity).
  split; [exact H|].
  apply (clean_object_columns _ _ 0 _ H); vm_compute; auto.
Defined.

(** ** Numeric and text profiles *)

Lemma Forall2_In_r {A B} (R : A -> B -> Prop) : forall la lb b,
  Forall2 R la lb -> In b lb -> exists a, In a la /\ R a b.
Proof.
  intros la lb b H. induction H as [|a b' la lb Hab H IH]; intros Hb; [contradiction|].
  destruct Hb as [<-|Hb]; [exists a; simpl; auto|].
  destruct (IH Hb) as [a' [Ha' R']]. exists a'; simpl; auto.
Qed.

Lemma analyze_profile_column {argsort : list nat -> list nat} : forall df ps p,
  analyze_dataframe argsort df = Some ps -> In p ps ->
  exists l i, analyze_column argsort l (nth i (dtypes df) DObject) (col_cells df i) = Some p.
Proof.
  intros df ps p H Hp. apply analyze_loop_inv in H.
  destruct (Forall2_In_r _ _ _ _ H Hp) as [l [_ [i [_ Hi]]]]. eauto.
Qed.

Lemma count_missing_somes : forall cs, count_missing cs + length (somes cs) = length cs.
Proof. unfold count_missing. induction cs as [|[v|] cs IH]; simpl; lia. Qed.

Lemma filter_not_seen : forall xs (f g : string -> bool) x,
  (forall y, g y = if string_dec y x then false else f y) -> f x = true ->
  length (filter f xs) = count_occ string_dec xs x + length (filter g xs).
Proof.
  induction xs as [|y xs IH]; intros f g x Hg Hf; [reflexivity|].
  cbn [filter count_occ]. rewrite Hg.
  destruct (string_dec y x) as [->|Hne].
  - rewrite Hf. cbn [length]. rewrite (IH f g x Hg Hf). lia.
  - destruct (f y); cbn [length]; rewrite (IH f g x Hg Hf); lia.
Qed.

Lemma sum_uniq_counts : forall xs seen,
  list_sum (map (count_occ string_dec xs) (uniq_first seen xs))
  = length (filter (fun y => if in_dec string_dec y seen then false else true) xs).
Proof.
  induction xs as [|x xs IH]; intro seen; simpl; [reflexivity|].
  assert (Hout : forall s v, In v (uniq_first s xs) -> ~ In v s)
    by (intros s v Hv; exact (proj2 (proj2 (uniq_first_spec xs s) v Hv))).
  destruct (in_dec string_dec x seen) as [Hx|Hx].
  - rewrite <- IH. f_equal. apply map_ext_in. intros v Hv.
    destruct (string_dec x v) as [->|]; [|reflexivity].
    exfalso. exact (Hout _ _ Hv Hx).
  - simpl. destruct (string_dec x x); [|congruence].
    rewrite (filter_not_seen xs (fun y => if in_dec string_dec y seen then false else true)
               (fun y => if in_dec string_dec y (x :: seen) then false else true) x);
      [| intro y; destruct (string_dec y x) as [->|Hne];
           [destruct (in_dec string_dec x (x :: seen)) as [|Hn]; [reflexivity|simpl in Hn; tauto]
           |destruct (in_dec string_dec y (x :: seen)) as [Hy|Hy];
              destruct (in_dec string_dec y seen) as [Hy'|Hy']; simpl in Hy;
              try reflexivity; try tauto; destruct Hy as [->|]; [congruence|tauto]]
       | destruct (in_dec string_dec x seen); [contradiction|reflexivity]].
    rewrite <- (IH (x :: seen)).
    rewrite (map_ext_in (fun v => if string_dec x v then S (count_occ string_dec xs v)
                                  else count_occ string_dec xs v)
                        (count_occ string_dec xs)); [simpl; lia|].
    intros v Hv. destruct (string_dec x v) as [->|]; [|reflexivity].
    exfalso. apply (Hout _ _ Hv). simpl; auto.
Qed.

Lemma sum_firstn_le : forall n (l : list nat), list_sum (firstn n l) <= list_sum l.
Proof.
  induction n as [|n IH]; intros [|x l]; simpl; try lia. specialize (IH l). lia.
Qed.

Lemma sum_value_counts : forall argsort, argsort_spec argsort ->
  forall xs, list_sum (map snd (value_counts argsort xs)) = length xs.
Proof.
  intros argsort Ha xs.
  rewrite (Permutation_list_sum (Permutation_map snd (proj1 (value_counts_spec argsort Ha xs)))).
  unfold counts. rewrite map_map.
  transitivity (list_sum (map (count_occ string_dec xs) (uniq_first [] xs))); [reflexivity|].
  rewrite sum_uniq_counts.
  rewrite (filter_ext _ (fun _ => true)) by reflexivity. now rewrite filter_true.
Qed.

(** In every text profile, the counts of [top_values] and the missing
    count add up to at most the number of rows, and exactly to it when
    fewer than five values are listed (the list was not cut). *)
Theorem text_profile_counts : forall argsort df ps p top,
  argsort_spec argsort ->
  analyze_dataframe argsort df = Some ps -> In p ps -> pstats p = Text top ->
  list_sum (map snd top) + missing p <= length (rows df) /\
  (length top < 5 -> list_sum (map snd top) + missing p = length (rows df)).
Proof.
  intros argsort df ps p top Hsort H Hp Hs.
  destruct (analyze_profile_column _ _ _ H Hp) as [l [i Ha]].
  unfold analyze_column in Ha.
  destruct (is_numeric_dtype _).
  { destruct (all_some _) as [qs|]; [|discriminate].
    destruct (numeric_stats qs) as [[a b] c]. inversion Ha; subst. discriminate. }
  inversion Ha; subst; clear Ha. simpl in Hs. inversion Hs; subst; clear Hs. simpl.
  assert (Hlen : length (col_cells df i) = length (rows df)) by apply length_map.
  pose proof (count_missing_somes (col_cells df i)) as Hc.
  pose proof (sum_value_counts argsort Hsort (map py_str (somes (col_cells df i)))) as Hv.
  rewrite length_map in Hv. unfold top_values. rewrite <- firstn_map. split.
  - pose proof (sum_firstn_le 5 (map snd (value_counts argsort (map py_str (somes (col_cells df i)))))).
    lia.
  - intro H5. rewrite length_firstn in H5.
    rewrite firstn_all2 by (rewrite length_map; lia). lia.
Qed.

Lemma text_profile_counts_witness :
  analyze_dataframe argsort_stable (mkFrame [VStr "code"] [DObject] (map (fun c => [c]) ex_text_cells))
    = Some [mkProfile "code" "object" 1
              (Text [("b", 2); ("a", 2); ("c", 1); ("d", 1); ("e", 1)])] /\
  list_sum (map snd [("b", 2); ("a", 2); ("c", 1); ("d", 1); ("e", 1)]) + 1 <= 9.
Proof.
  assert (H : analyze_dataframe argsort_stable (mkFrame [VStr "code"] [DObject] (map (fun c => [c]) ex_text_cells))
    = Some [mkProfile "code" "object" 1
              (Text [("b", 2); ("a", 2); ("c", 1); ("d", 1); ("e", 1)])])
    by (vm_compute; reflexivity).
  split; [exact H|].
  exact (proj1 (text_profile_counts _ _ _ _ _ argsort_stable_spec H (or_introl eq_refl) eq_refl)).
Defined.

(** * Properties of the web handlers (backend/main.py) *)

(** ** Strings and paths *)

Lemma string_app_nil_r : forall s : string, String.append s "" = s.
Proof. induction s; simpl; [reflexivity | now rewrite IHs]. Qed.

Lemma prefix_one : forall c0 c s, String.prefix (String c0 "") (String c s) = Ascii.eqb c0 c.
Proof.
  intros c0 c s. unfold String.prefix. destruct (ascii_dec c0 c) as [->|Hne].
  - rewrite Ascii.eqb_refl. now destruct s.
  - symmetry. now apply Ascii.eqb_neq.
Qed.

Lemma lower_char_slash : forall c, Ascii.eqb (lower_char c) "/" = Ascii.eqb c "/".
Proof. intros [[] [] [] [] [] [] [] []]; reflexivity. Qed.

Lemma contains_slash_lower : forall x, contains "/" (lower x) = contains "/" x.
Proof.
  induction x as [|c x IH]; [reflexivity|].
  cbn [lower contains]. rewrite !prefix_one, IH.
  rewrite !(Ascii.eqb_sym "/"), lower_char_slash. reflexivity.
Qed.

Lemma contains_slash_cons : forall c s,
  contains "/" (String c s) = Ascii.eqb c "/" || contains "/" s.
Proof. intros c s. cbn [contains]. now rewrite prefix_one, Ascii.eqb_sym. Qed.

Lemma lower_split : forall a b x,
  lower x = String.append a b ->
  exists x1 x2, x = String.append x1 x2 /\ lower x1 = a /\ lower x2 = b.
Proof.
  induction a as [|c a IH]; intros b x H.
  - exists "", x. now split.
  - destruct x as [|c0 x]; [discriminate|]. simpl in H. inversion H; subst.
    destruct (IH b x H2) as (x1 & x2 & -> & H1 & H3).
    exists (String c0 x1), x2. simpl. now rewrite H1.
Qed.

Lemma path_name_aux_app : forall s t last cur,
  exists last' cur', path_name_aux last cur (String.append s t) = path_name_aux last' cur' t.
Proof.
  induction s as [|c s IH]; intros t last cur; simpl.
  - now exists last, cur.
  - destruct (Ascii.eqb c "/"); apply IH.
Qed.

Lemma path_name_aux_noslash : forall t last cur,
  contains "/" t = false -> t <> "" -> String.append cur t <> "." ->
  path_name_aux last cur t = String.append cur t.
Proof.
  induction t as [|c t IH]; intros last cur Hs Hne Hdot; [congruence|].
  rewrite contains_slash_cons in Hs. apply orb_false_iff in Hs as [Hc Ht].
  cbn [path_name_aux]. rewrite Hc.
  destruct t as [|c' t'].
  - cbn [path_name_aux]. unfold skip_component.
    destruct (String.eqb_spec (String.append cur (String c "")) "") as [E|_].
    + destruct cur; discriminate E.
    + destruct (String.eqb_spec (String.append cur (String c "")) ".") as [E|_];
        [contradiction | reflexivity].
  - assert (E : String.append (String.append cur (String c "")) (String c' t')
                = String.append cur (String c (String c' t')))
      by (now rewrite <- string_app_assoc).
    rewrite <- E in Hdot |- *. apply IH; (assumption || discriminate).
Qed.

Lemma path_name_slash : forall d n,
  contains "/" n = false -> n <> "" -> n <> "." ->
  path_name (String.append d (String "/" n)) = n.
Proof.
  intros d n Hs Hne Hdot. unfold path_name.
  destruct (path_name_aux_app d (String "/" n) "" "") as (l & c & ->).
  cbn [path_name_aux]. rewrite Ascii.eqb_refl.
  now rewrite path_name_aux_noslash.
Qed.

(** The lower-cased name of any path that ends in [x] ends in the same
    slash-free suffix as the lower-cased [x]. *)
Lemma path_name_suffix : forall a x suf,
  contains "/" suf = false -> suf <> "" -> suf <> "." -> ends_with suf (lower x) = true ->
  exists stem, lower (path_name (String.append a x)) = String.append stem suf.
Proof.
  intros a x suf Hs Hne Hdot He.
  apply ends_with_split in He as [pre He].
  destruct (lower_split pre suf x He) as (x1 & x2 & -> & _ & H2).
  assert (Hs2 : contains "/" x2 = false) by (rewrite <- contains_slash_lower, H2; exact Hs).
  assert (Hne2 : x2 <> "") by (intros ->; subst suf; contradiction).
  unfold path_name. rewrite string_app_assoc.
  destruct (path_name_aux_app (String.append a x1) x2 "" "") as (l & c & ->).
  assert (Hdot2 : String.append c x2 <> ".").
  { intro E. destruct c as [|ch c']; simpl in E.
    - subst x2. apply Hdot. rewrite <- H2. reflexivity.
    - inversion E as [E']. destruct c', x2; discriminate || congruence. }
  rewrite path_name_aux_noslash by assumption.
  exists (lower c). now rewrite lower_app, H2.
Qed.

Lemma path_join_app : forall d y, exists a, path_join d y = String.append a y.
Proof.
  intros d [|c y]; simpl.
  - exists d. now rewrite string_app_nil_r.
  - destruct (Ascii.eqb c "/"). + now exists "".
    + exists (String.append d "/"). now rewrite <- string_app_assoc.
Qed.

Lemma path_comps_cons : forall s, exists h t, path_comps s = h :: t.
Proof.
  induction s as [|c s (h & t & IH)]; simpl; [eauto|].
  rewrite IH. destruct (Ascii.eqb c "/"); eauto.
Qed.

Lemma path_comps_app : forall a b,
  path_comps (String.append a (String "/" b)) = path_comps a ++ path_comps b.
Proof.
  induction a as [|c a IH]; intro b; [reflexivity|].
  cbn [String.append path_comps]. rewrite IH.
  destruct (path_comps_cons a) as (h & t & Ea). rewrite Ea.
  destruct (Ascii.eqb c "/"); reflexivity.
Qed.

Lemma path_comps_noslash : forall n, contains "/" n = false -> path_comps n = [n].
Proof.
  induction n as [|c n IH]; intro Hs; [reflexivity|].
  rewrite contains_slash_cons in Hs. apply orb_false_iff in Hs as [Hc Hn].
  cbn [path_comps]. rewrite IH, Hc by assumption. reflexivity.
Qed.

Lemma path_join_noslash : forall d n,
  contains "/" n = false -> n <> "" -> path_join d n = String.append d (String "/" n).
Proof.
  intros d [|c n] Hs Hne; [congruence|].
  rewrite contains_slash_cons in Hs. apply orb_false_iff in Hs as [Hc _].
  simpl. now rewrite Hc.
Qed.

Lemma path_parts_join : forall d n,
  contains "/" n = false -> n <> "" ->
  path_parts (path_join d n) = path_parts d ++ path_parts n.
Proof.
  intros d n Hs Hne. rewrite path_join_noslash by assumption.
  unfold path_parts. now rewrite path_comps_app, filter_app.
Qed.

Lemma path_parts_noslash : forall n,
  contains "/" n = false -> n <> "" -> n <> "." -> path_parts n = [n].
Proof.
  intros n Hs Hne Hdot. unfold path_parts. rewrite path_comps_noslash by assumption.
  cbn [filter].
  destruct (String.eqb_spec n ""); [congruence|].
  destruct (String.eqb_spec n "."); [congruence|]. reflexivity.
Qed.

(** A string free of the character [c0] cannot hold any match of a
    pattern that starts with [c0]. *)
Lemma contains_app_skip : forall c0 rest a b,
  contains (String c0 "") a = false ->
  contains (String c0 rest) (String.append a b) = contains (String c0 rest) b.
Proof.
  induction a as [|c a IH]; intros b Ha; [reflexivity|].
  cbn [contains] in Ha. rewrite prefix_one in Ha. apply orb_false_iff in Ha as [Hc Ha].
  cbn [String.append contains].
  replace (String.prefix (String c0 rest) (String c (String.append a b))) with false.
  - now apply IH.
  - cbn. destruct (ascii_dec c0 c) as [->|]; [now rewrite Ascii.eqb_refl in Hc|reflexivity].
Qed.

Lemma string_app_inv_l : forall a b c : string,
  String.append a b = String.append a c -> b = c.
Proof. induction a; simpl; intros b c H; [exact H | inversion H; eauto]. Qed.

(** ** The file system *)

Lemma lookup_remove_same : forall k l, lookup_file k (remove_file k l) = None.
Proof.
  intro k; induction l as [|[q b] l IH]; [reflexivity|].
  unfold remove_file in *; cbn [filter fst].
  destruct (list_eq_dec string_dec k q) as [->|Hne]; [exact IH|].
  cbn [lookup_file]. destruct (list_eq_dec string_dec k q); [contradiction|exact IH].
Qed.

Lemma lookup_remove_other : forall k k' l,
  k <> k' -> lookup_file k (remove_file k' l) = lookup_file k l.
Proof.
  intros k k' l Hne; induction l as [|[q b] l IH]; [reflexivity|].
  unfold remove_file in *; cbn [filter fst lookup_file].
  destruct (list_eq_dec string_dec k' q) as [->|Hq].
  - destruct (list_eq_dec string_dec k q); [contradiction|exact IH].
  - cbn [lookup_file]. destruct (list_eq_dec string_dec k q); [reflexivity|exact IH].
Qed.

Lemma fs_write_lookup : forall p b f f' k,
  fs_write p b f = Some f' ->
  lookup_file k (fs_files f') =
    if list_eq_dec string_dec k (path_parts p) then Some b else lookup_file k (fs_files f).
Proof.
  intros p b f f' k H. unfold fs_write in H.
  destruct (fs_writable f (path_parts p)); [|discriminate]. inversion H; subst; clear H.
  cbn [fs_files lookup_file].
  destruct (list_eq_dec string_dec k (path_parts p)); [reflexivity|].
  now apply lookup_remove_other.
Qed.

Lemma fs_write_is_dir : forall p b f f', fs_write p b f = Some f' -> fs_is_dir f' = fs_is_dir f.
Proof.
  intros p b f f' H. unfold fs_write in H.
  destruct (fs_writable f (path_parts p)); [|discriminate]. now inversion H.
Qed.

Lemma opt_bind_some {A B} : forall (o : option A) (k : A -> option B) b,
  opt_bind o k = Some b -> exists a, o = Some a /\ k a = Some b.
Proof. intros [a|] k b H; [now exists a | discriminate]. Qed.

Section AppProofs.

Variable DATA_DIR : string.
Variable tokenize : list N -> option (list string * option (list (list string))).
Variable read_excel : list Byte.byte -> error + frame.
Variable to_excel : frame -> option (list Byte.byte).
Variable generate_pdf_report : frame -> list profile -> string -> option (list Byte.byte).
Variable json_dumps : list profile -> string.
Variable argsort : list nat -> list nat.

Local Abbreviation upload_body_ :=
  (upload_body DATA_DIR tokenize read_excel to_excel generate_pdf_report json_dumps argsort).
Local Abbreviation excel_path uid :=
  (path_join DATA_DIR (String.append uid "_cleaned.xlsx")).
Local Abbreviation pdf_path uid :=
  (path_join DATA_DIR (String.append uid "_report.pdf")).

(** What the body of the upload handler's [try] does, branch by branch. *)
Lemma upload_body_inv : forall fn content cu uid rec_id now ip f d tr f2 d2 res,
  upload_body_ fn content cu uid rec_id now ip f d = (tr, f2, d2, res) ->
  (exists rest, tr = map IOLoad (fst (load_and_clean tokenize (mkWorld content (read_excel content)) ip)) ++ rest) /\
  fs_is_dir f2 = fs_is_dir f /\
  (forall k, k <> path_parts (excel_path uid) -> k <> path_parts (pdf_path uid) ->
             lookup_file k (fs_files f2) = lookup_file k (fs_files f)) /\
  match res with
  | Uploaded r =>
      exists df b1 b2 f1,
        snd (load_and_clean tokenize (mkWorld content (read_excel content)) ip) = inr df /\
        analyze_dataframe argsort df = Some (resp_columns r) /\
        to_excel df = Some b1 /\ fs_write (excel_path uid) b1 f = Some f1 /\
        generate_pdf_report df (resp_columns r) fn = Some b2 /\
        fs_write (pdf_path uid) b2 f1 = Some f2 /\
        resp_rows r = length (rows df) /\ resp_cols r = length (columns df) /\
        preview r = preview_of df /\
        cleanedFile r = String.append "/download/" (path_name (excel_path uid)) /\
        reportPdf r = String.append "/download/" (path_name (pdf_path uid)) /\
        match cu with
        | None => d2 = d /\ resp_id r = uid
        | Some u =>
            resp_id r = rec_id /\
            d2 = mkDb (users d)
                   (uploaded_files d ++
                    [UploadedFile.mk rec_id (Some (User.id u)) fn
                       (Some (resp_rows r)) (Some (resp_cols r))
                       (Some (cleanedFile r)) (Some (reportPdf r))
                       (Some (json_dumps (resp_columns r))) now])
        end
  | ServerError _ => d2 = d
  | _ => False
  end.
Proof.
  intros fn content cu uid rec_id now ip f d tr f2 d2 res H.
  unfold upload_body in H.
  destruct (load_and_clean tokenize (mkWorld content (read_excel content)) ip) as [evs r] eqn:El. cbn [fst snd].
  destruct r as [e|df].
  { inversion H; subst. repeat split; auto. exists []; now rewrite app_nil_r. }
  destruct (analyze_dataframe argsort df) as [ins|] eqn:Ea.
  2:{ inversion H; subst. repeat split; auto. exists []; now rewrite app_nil_r. }
  destruct (opt_bind (to_excel df) _) as [f1|] eqn:E1.
  2:{ inversion H; subst. repeat split; auto. exists []; now rewrite app_nil_r. }
  apply opt_bind_some in E1 as (b1 & Eb1 & Ew1).
  assert (L1 : forall k, k <> path_parts (excel_path uid) ->
                 lookup_file k (fs_files f1) = lookup_file k (fs_files f)).
  { intros k Hk. rewrite (fs_write_lookup _ _ _ _ k Ew1).
    destruct (list_eq_dec string_dec k _); [contradiction|reflexivity]. }
  destruct (opt_bind (generate_pdf_report df ins fn) _) as [f3|] eqn:E2.
  2:{ inversion H; subst. repeat split; auto.
      - eexists; reflexivity.
      - eapply fs_write_is_dir; eauto. }
  apply opt_bind_some in E2 as (b2 & Eb2 & Ew2).
  assert (L2 : forall k, k <> path_parts (excel_path uid) -> k <> path_parts (pdf_path uid) ->
                 lookup_file k (fs_files f3) = lookup_file k (fs_files f)).
  { intros k Hk Hk'. rewrite (fs_write_lookup _ _ _ _ k Ew2).
    destruct (list_eq_dec string_dec k _); [contradiction|now apply L1]. }
  assert (D3 : fs_is_dir f3 = fs_is_dir f).
  { rewrite (fs_write_is_dir _ _ _ _ Ew2). eapply fs_write_is_dir; eauto. }
  destruct cu as [u|].
  - destruct (existsb _ (uploaded_files d)).
    + inversion H; subst. repeat split; auto. rewrite <- app_assoc. eexists; reflexivity.
    + inversion H; subst. repeat split; auto.
      * rewrite <- !app_assoc. eexists; reflexivity.
      * exists df, b1, b2, f1. cbn. repeat split; auto.
  - inversion H; subst. repeat split; auto.
    + rewrite <- app_assoc. eexists; reflexivity.
    + exists df, b1, b2, f1. cbn. repeat split; auto.
Qed.

Lemma upload_cases : forall fn content cu uid rec_id now f d tr f' d' res,
  upload DATA_DIR tokenize read_excel to_excel generate_pdf_report json_dumps argsort
    (Some fn) content cu uid rec_id now f d = (tr, f', d', res) ->
  fn <> "" -> (ends_with ".csv" (lower fn) || ends_with ".xlsx" (lower fn)) = true ->
  let ip := path_join DATA_DIR (String.append uid (String.append "_" fn)) in
  (fs_write ip content f = None /\ tr = [] /\ f' = f /\ d' = d /\ res = Unhandled) \/
  (exists f1 tr0 f2, fs_write ip content f = Some f1 /\
     upload_body_ fn content cu uid rec_id now ip f1 d = (tr0, f2, d', res) /\
     tr = IOWrite (path_parts ip) :: tr0 ++ [IOUnlink (path_parts ip)] /\
     f' = fs_unlink ip f2).
Proof.
  intros fn content cu uid rec_id now f d tr f' d' res H Hne Hext ip.
  destruct fn as [|c s]; [congruence|].
  unfold upload in H. cbn beta iota zeta in H. rewrite Hext in H. cbn [negb] in H.
  fold ip in H. destruct (fs_write ip content f) as [f1|] eqn:Ew.
  - right. destruct (upload_body_ _ _ _ _ _ _ ip f1 d) as [[[tr0 f2] d2] res0] eqn:Eb.
    inversion H; subst. eauto 7.
  - left. inversion H; subst. auto.
Qed.

Lemma ends_with_empty : forall suf, suf <> "" -> ends_with suf "" = false.
Proof. intros [|c s] H; [congruence|reflexivity]. Qed.

Lemma upload_path_name : forall uid fn suf,
  contains "/" suf = false -> suf <> "" -> suf <> "." -> ends_with suf (lower fn) = true ->
  exists stem, lower (path_name (path_join DATA_DIR (String.append uid (String.append "_" fn))))
               = String.append stem suf.
Proof.
  intros uid fn suf Hs Hne Hdot He.
  destruct (path_join_app DATA_DIR (String.append uid (String.append "_" fn))) as [a ->].
  rewrite !string_app_assoc. now apply path_name_suffix.
Qed.

Lemma load_events_csv : forall tok w p,
  ends_with ".csv" (lower (path_name p)) = true ->
  exists evs, fst (load_and_clean tok w p) = ReadCsv UTF8 :: evs.
Proof.
  intros tok w p H. unfold load_and_clean. rewrite H.
  destruct (load_csv tok w) as [ev r] eqn:E. cbn [fst]. unfold load_csv in E.
  destruct (read_csv tok UTF8 w) as [[| | |]|];
    try (inversion E; eauto; fail).
  destruct (read_csv tok Latin1 w) as [[| | |]|]; inversion E; eauto.
Qed.

Lemma load_events_xlsx : forall tok w p,
  ends_with ".csv" (lower (path_name p)) = false ->
  ends_with ".xlsx" (lower (path_name p)) = true ->
  fst (load_and_clean tok w p) = [ReadExcel].
Proof. intros tok w p H1 H2. unfold load_and_clean. now rewrite H1, H2. Qed.

(** ** Upload: rejection, the input file, the parser *)

(** An upload is answered with a rejection only for a missing or empty
    file name, or a name that, lower-cased, ends in neither ".csv" nor
    ".xlsx"; the rejection is a 400, and nothing is written, read or
    stored. *)
Theorem upload_rejected : forall filename content cu uid rec_id now f d tr f' d' e,
  upload DATA_DIR tokenize read_excel to_excel generate_pdf_report json_dumps argsort
    filename content cu uid rec_id now f d = (tr, f', d', Rejected e) ->
  tr = [] /\ f' = f /\ d' = d /\ status_code e = 400 /\
  (filename = None \/ filename = Some "" \/
   exists fn, filename = Some fn /\ ends_with ".csv" (lower fn) = false /\
              ends_with ".xlsx" (lower fn) = false).
Proof.
  intros filename content cu uid rec_id now f d tr f' d' e H.
  destruct filename as [fn|]; [|inversion H; subst; auto 8].
  destruct (String.eqb_spec fn "") as [->|Hne]; [inversion H; subst; auto 8|].
  destruct (ends_with ".csv" (lower fn) || ends_with ".xlsx" (lower fn)) eqn:Ex.
  - destruct (upload_cases _ _ _ _ _ _ _ _ _ _ _ _ H Hne Ex)
      as [(_ & _ & _ & _ & Hr)|(f1 & tr0 & f2 & _ & Eb & _)]; [discriminate|].
    apply upload_body_inv in Eb as (_ & _ & _ & Hr). contradiction.
  - apply orb_false_iff in Ex as [E1 E2].
    destruct fn as [|c s]; [congruence|].
    unfold upload in H. cbn beta iota zeta in H. rewrite E1, E2 in H. cbn [orb negb] in H.
    inversion H; subst. repeat split; eauto 8.
Qed.

(** Once the uploaded bytes are saved, the saved input file is removed
    whatever happens next: the first I/O is the write of the input path,
    the last its removal, and no file is left at that path. If the write
    fails, nothing else happens. *)
Theorem upload_input_removed : forall fn content cu uid rec_id now f d tr f' d' res,
  upload DATA_DIR tokenize read_excel to_excel generate_pdf_report json_dumps argsort
    (Some fn) content cu uid rec_id now f d = (tr, f', d', res) ->
  (forall e, res <> Rejected e) ->
  let K := path_parts (path_join DATA_DIR (String.append uid (String.append "_" fn))) in
  (res = Unhandled /\ tr = [] /\ f' = f /\ d' = d) \/
  (exists mid, tr = IOWrite K :: mid ++ [IOUnlink K] /\
               lookup_file K (fs_files f') = None /\ fs_is_dir f' = fs_is_dir f).
Proof.
  intros fn content cu uid rec_id now f d tr f' d' res H Hnr K.
  destruct (String.eqb_spec fn "") as [->|Hne].
  { inversion H; subst. exfalso; eapply Hnr; reflexivity. }
  destruct (ends_with ".csv" (lower fn) || ends_with ".xlsx" (lower fn)) eqn:Ex.
  2:{ destruct fn as [|c s]; [congruence|].
      unfold upload in H. cbn beta iota zeta in H. rewrite Ex in H. cbn [negb] in H.
      inversion H; subst. exfalso; eapply Hnr; reflexivity. }
  destruct (upload_cases _ _ _ _ _ _ _ _ _ _ _ _ H Hne Ex)
    as [(_ & -> & -> & -> & ->)|(f1 & tr0 & f2 & Ew & Eb & -> & ->)]; [left; auto|right].
  apply upload_body_inv in Eb as (_ & Hd & _ & _).
  exists tr0. split; [reflexivity|]. split.
  - apply lookup_remove_same.
  - cbn [fs_unlink fs_is_dir]. rewrite Hd. eapply fs_write_is_dir; eauto.
Qed.

(** The parser follows the check the handler made on the file name: the
    saved input file, whose name ends in the uploaded name, is read first
    with [pd.read_csv] in UTF-8 when the uploaded name ends in ".csv"
    (in any letter case), and with [pd.read_excel] when it ends in
    ".xlsx" instead. *)
Theorem upload_reads_by_extension : forall fn content cu uid rec_id now f d tr f' d' res,
  upload DATA_DIR tokenize read_excel to_excel generate_pdf_report json_dumps argsort
    (Some fn) content cu uid rec_id now f d = (tr, f', d', res) ->
  res <> Unhandled ->
  let K := path_parts (path_join DATA_DIR (String.append uid (String.append "_" fn))) in
  (ends_with ".csv" (lower fn) = true ->
     exists rest, tr = IOWrite K :: IOLoad (ReadCsv UTF8) :: rest) /\
  (ends_with ".csv" (lower fn) = false -> ends_with ".xlsx" (lower fn) = true ->
     exists rest, tr = IOWrite K :: IOLoad ReadExcel :: rest).
Proof.
  intros fn content cu uid rec_id now f d tr f' d' res H Hnu K.
  assert (Hbody : (ends_with ".csv" (lower fn) || ends_with ".xlsx" (lower fn)) = true ->
      exists tr0 rest, tr = IOWrite K :: tr0 ++ rest /\
        tr0 = map IOLoad (fst (load_and_clean tokenize (mkWorld content (read_excel content))
                (path_join DATA_DIR (String.append uid (String.append "_" fn)))))).
  { intro Ex. assert (Hne : fn <> "").
    { intros ->. rewrite !ends_with_empty in Ex by discriminate. discriminate. }
    destruct (upload_cases _ _ _ _ _ _ _ _ _ _ _ _ H Hne Ex)
      as [(_ & _ & _ & _ & Hr)|(f1 & tr0 & f2 & _ & Eb & -> & _)]; [contradiction|].
    apply upload_body_inv in Eb as ((rest & ->) & _).
    do 2 eexists. split; [|reflexivity]. now rewrite <- app_assoc. }
  split.
  - intro Ec. destruct Hbody as (tr0 & rest & -> & ->); [now rewrite Ec|].
    destruct (upload_path_name uid fn ".csv") as [stem Hs]; auto; try discriminate.
    destruct (load_events_csv tokenize (mkWorld content (read_excel content))
                (path_join DATA_DIR (String.append uid (String.append "_" fn))))
      as [evs ->]; [rewrite Hs; apply ends_with_app|].
    eexists; reflexivity.
  - intros Ec Ex. destruct Hbody as (tr0 & rest & -> & ->); [now rewrite Ec, Ex|].
    destruct (upload_path_name uid fn ".xlsx") as [stem Hs]; auto; try discriminate.
    rewrite load_events_xlsx by (rewrite Hs; apply xlsx_not_csv || apply ends_with_app).
    eexists; reflexivity.
Qed.

(** ** Upload: the response and the database *)

(** A successful upload describes the frame [load_and_clean] returned for
    the saved file: its row and column counts, one profile per column
    (the analyzer's result), and a preview of at most ten rows. *)
Theorem upload_response_shape : forall fn content cu uid rec_id now f d tr f' d' r,
  upload DATA_DIR tokenize read_excel to_excel generate_pdf_report json_dumps argsort
    (Some fn) content cu uid rec_id now f d = (tr, f', d', Uploaded r) ->
  exists df,
    snd (load_and_clean tokenize (mkWorld content (read_excel content)) (path_join DATA_DIR (String.append uid (String.append "_" fn))))
      = inr df /\
    analyze_dataframe argsort df = Some (resp_columns r) /\
    resp_rows r = length (rows df) /\ resp_cols r = length (columns df) /\
    length (resp_columns r) = resp_cols r /\
    length (preview r) = Nat.min 10 (resp_rows r).
Proof.
  intros fn content cu uid rec_id now f d tr f' d' r H.
  destruct (String.eqb_spec fn "") as [->|Hne]; [inversion H|].
  destruct (ends_with ".csv" (lower fn) || ends_with ".xlsx" (lower fn)) eqn:Ex.
  2:{ destruct fn as [|c s]; [congruence|].
      unfold upload in H. cbn beta iota zeta in H. rewrite Ex in H. inversion H. }
  destruct (upload_cases _ _ _ _ _ _ _ _ _ _ _ _ H Hne Ex)
    as [(_ & _ & _ & _ & Hr)|(f1 & tr0 & f2 & _ & Eb & _)]; [discriminate|].
  apply upload_body_inv in Eb
    as (_ & _ & _ & df & b1 & b2 & f3 & El & Ea & _ & _ & _ & _ & Hr & Hc & Hp & _).
  exists df. repeat split; auto.
  - rewrite (analyze_length _ _ Ea). auto.
  - rewrite Hp. unfold preview_of. now rewrite length_map, length_firstn, Hr.
Qed.

(** The database changes only on success with a signed-in user: exactly
    one [UploadedFile] row is appended, owned by that user and holding the
    response's id, counts and download links. An anonymous upload, and
    every failed one, leaves the database as it was. *)
Theorem upload_db_effect : forall filename content cu uid rec_id now f d tr f' d' res,
  upload DATA_DIR tokenize read_excel to_excel generate_pdf_report json_dumps argsort
    filename content cu uid rec_id now f d = (tr, f', d', res) ->
  match res, cu with
  | Uploaded r, Some u =>
      exists fn, filename = Some fn /\ resp_id r = rec_id /\
        d' = mkDb (users d)
               (uploaded_files d ++
                [UploadedFile.mk rec_id (Some (User.id u)) fn
                   (Some (resp_rows r)) (Some (resp_cols r))
                   (Some (cleanedFile r)) (Some (reportPdf r))
                   (Some (json_dumps (resp_columns r))) now])
  | Uploaded r, None => d' = d /\ resp_id r = uid
  | _, _ => d' = d
  end.
Proof.
  intros filename content cu uid rec_id now f d tr f' d' res H.
  destruct filename as [fn|]; [|inversion H; subst; destruct cu; reflexivity].
  destruct (String.eqb_spec fn "") as [->|Hne]; [inversion H; subst; destruct cu; reflexivity|].
  destruct (ends_with ".csv" (lower fn) || ends_with ".xlsx" (lower fn)) eqn:Ex.
  2:{ destruct fn as [|c s]; [congruence|].
      unfold upload in H. cbn beta iota zeta in H. rewrite Ex in H. cbn [negb] in H.
      inversion H; subst. destruct cu; reflexivity. }
  destruct (upload_cases _ _ _ _ _ _ _ _ _ _ _ _ H Hne Ex)
    as [(_ & _ & _ & -> & ->)|(f1 & tr0 & f2 & _ & Eb & _)]; [destruct cu; reflexivity|].
  apply upload_body_inv in Eb as (_ & _ & _ & Hr).
  destruct res as [r|e|e|]; try contradiction; [|destruct cu; exact Hr].
  destruct Hr as (df & b1 & b2 & f3 & _ & _ & _ & _ & _ & _ & _ & _ & _ & _ & _ & Hu).
  destruct cu as [u|]; [|exact Hu].
  destruct Hu as [Hid ->]. exists fn. auto.
Qed.

(** ** Upload, then download *)

Lemma download_found : forall n f b,
  contains ".." n = false -> contains "/" n = false ->
  lookup_file (path_parts (path_join DATA_DIR n)) (fs_files f) = Some b ->
  download DATA_DIR n f = Ok b.
Proof.
  intros n f b H1 H2 H3. unfold download. rewrite H1, H2. cbv zeta.
  unfold fs_exists. rewrite H3, orb_true_r. reflexivity.
Qed.

Lemma uid_name_ok : forall uid x,
  uid <> "" -> contains "/" uid = false -> contains "/" x = false -> x <> "" ->
  contains "/" (String.append uid x) = false /\ String.append uid x <> "" /\
  String.append uid x <> ".".
Proof.
  intros uid x Hu Hs Hx Hxe. split; [|split].
  - now rewrite (contains_app_skip "/" "" uid x Hs).
  - destruct uid; [congruence|discriminate].
  - destruct uid as [|c [|c' u]]; [congruence| |discriminate].
    destruct x; [congruence|discriminate].
Qed.

Lemma parts_join_name : forall n,
  contains "/" n = false -> n <> "" -> n <> "." ->
  path_parts (path_join DATA_DIR n) = path_parts DATA_DIR ++ [n].
Proof.
  intros n H1 H2 H3. rewrite path_parts_join by assumption.
  now rewrite (path_parts_noslash n).
Qed.

Lemma parts_join_inj : forall a b,
  contains "/" a = false -> a <> "" -> a <> "." ->
  contains "/" b = false -> b <> "" -> b <> "." ->
  path_parts (path_join DATA_DIR a) = path_parts (path_join DATA_DIR b) -> a = b.
Proof.
  intros a b Ha1 Ha2 Ha3 Hb1 Hb2 Hb3 E.
  rewrite !parts_join_name in E by assumption.
  apply app_inv_head in E. now inversion E.
Qed.

(** The two links a successful upload returns download the cleaned
    workbook and the report it wrote, provided the upload's [uid] (a hex
    string in the handler) has no "." or "/" and the uploaded name,
    free of "/", is not "cleaned.xlsx". *)
Theorem upload_then_download : forall fn content cu uid rec_id now f d tr f' d' r,
  upload DATA_DIR tokenize read_excel to_excel generate_pdf_report json_dumps argsort
    (Some fn) content cu uid rec_id now f d = (tr, f', d', Uploaded r) ->
  uid <> "" -> contains "." uid = false -> contains "/" uid = false ->
  contains "/" fn = false -> fn <> "cleaned.xlsx" ->
  exists df b1 b2,
    snd (load_and_clean tokenize (mkWorld content (read_excel content)) (path_join DATA_DIR (String.append uid (String.append "_" fn))))
      = inr df /\
    to_excel df = Some b1 /\ generate_pdf_report df (resp_columns r) fn = Some b2 /\
    cleanedFile r = String.append "/download/" (String.append uid "_cleaned.xlsx") /\
    reportPdf r = String.append "/download/" (String.append uid "_report.pdf") /\
    download DATA_DIR (String.append uid "_cleaned.xlsx") f' = Ok b1 /\
    download DATA_DIR (String.append uid "_report.pdf") f' = Ok b2.
Proof.
  intros fn content cu uid rec_id now f d tr f' d' r H Hu Hdot Hsl Hfs Hfn.
  destruct (String.eqb_spec fn "") as [->|Hne]; [inversion H|].
  destruct (ends_with ".csv" (lower fn) || ends_with ".xlsx" (lower fn)) eqn:Ex.
  2:{ destruct fn as [|c s]; [congruence|].
      unfold upload in H. cbn beta iota zeta in H. rewrite Ex in H. inversion H. }
  destruct (upload_cases _ _ _ _ _ _ _ _ _ _ _ _ H Hne Ex)
    as [(_ & _ & _ & _ & Hr)|(f1 & tr0 & f2 & _ & Eb & _ & ->)]; [discriminate|].
  apply upload_body_inv in Eb as (_ & _ & _ & df & b1 & b2 & fx & El & _ & Eb1 & Ew1 & Eb2
                                    & Ew2 & _ & _ & _ & Hc & Hp & _).
  exists df, b1, b2. do 3 (split; [assumption|]).
  destruct (uid_name_ok uid "_cleaned.xlsx") as (N1a & N1b & N1c); auto; try discriminate.
  destruct (uid_name_ok uid "_report.pdf") as (N2a & N2b & N2c); auto; try discriminate.
  destruct (uid_name_ok uid (String.append "_" fn)) as (N3a & N3b & N3c); auto;
    try discriminate.
  assert (K13 : path_parts (path_join DATA_DIR (String.append uid "_cleaned.xlsx")) <>
                path_parts (path_join DATA_DIR (String.append uid (String.append "_" fn)))).
  { intro E. apply parts_join_inj in E; auto.
    apply string_app_inv_l in E. inversion E. congruence. }
  assert (K23 : path_parts (path_join DATA_DIR (String.append uid "_report.pdf")) <>
                path_parts (path_join DATA_DIR (String.append uid (String.append "_" fn)))).
  { intro E. apply parts_join_inj in E; auto.
    apply string_app_inv_l in E. inversion E. subst fn. discriminate Ex. }
  assert (K12 : path_parts (path_join DATA_DIR (String.append uid "_cleaned.xlsx")) <>
                path_parts (path_join DATA_DIR (String.append uid "_report.pdf"))).
  { intro E. apply parts_join_inj in E; auto. apply string_app_inv_l in E. discriminate. }
  repeat split.
  - rewrite Hc, path_join_noslash, path_name_slash by assumption. reflexivity.
  - rewrite Hp, path_join_noslash, path_name_slash by assumption. reflexivity.
  - apply download_found; auto.
    + now rewrite (contains_app_skip "." "." uid _ Hdot).
    + cbn [fs_unlink fs_files]. rewrite lookup_remove_other by exact K13.
      rewrite (fs_write_lookup _ _ _ _ _ Ew2).
      destruct (list_eq_dec string_dec _ _); [contradiction|].
      rewrite (fs_write_lookup _ _ _ _ _ Ew1).
      destruct (list_eq_dec string_dec _ _); [reflexivity|contradiction].
  - apply download_found; auto.
    + now rewrite (contains_app_skip "." "." uid _ Hdot).
    + cbn [fs_unlink fs_files]. rewrite lookup_remove_other by exact K23.
      rewrite (fs_write_lookup _ _ _ _ _ Ew2).
      destruct (list_eq_dec string_dec _ _); [reflexivity|contradiction].
Qed.

(** An upload named "cleaned.xlsx" is saved at the very path the cleaned
    workbook is then written to, so the handler's final removal of its
    input deletes the workbook: the response still links to it, but the
    download answers 404. *)
Theorem upload_cleaned_xlsx_lost : forall content cu uid rec_id now f d tr f' d' r,
  upload DATA_DIR tokenize read_excel to_excel generate_pdf_report json_dumps argsort
    (Some "cleaned.xlsx") content cu uid rec_id now f d = (tr, f', d', Uploaded r) ->
  uid <> "" -> contains "." uid = false -> contains "/" uid = false ->
  fs_is_dir f (path_parts (path_join DATA_DIR (String.append uid "_cleaned.xlsx"))) = false ->
  cleanedFile r = String.append "/download/" (String.append uid "_cleaned.xlsx") /\
  download DATA_DIR (String.append uid "_cleaned.xlsx") f'
    = Raise (HTTPException 404 "File not found").
Proof.
  intros content cu uid rec_id now f d tr f' d' r H Hu Hdot Hsl Hdir.
  destruct (upload_cases _ _ _ _ _ _ _ _ _ _ _ _ H ltac:(discriminate) eq_refl)
    as [(_ & _ & _ & _ & Hr)|(f1 & tr0 & f2 & Ew & Eb & _ & ->)]; [discriminate|].
  apply upload_body_inv in Eb as (_ & Hd & _ & df & b1 & b2 & fx & _ & _ & _ & _ & _
                                    & _ & _ & _ & _ & Hc & _ & _).
  destruct (uid_name_ok uid "_cleaned.xlsx") as (N1a & N1b & N1c); auto; try discriminate.
  split.
  - rewrite Hc, path_join_noslash, path_name_slash by assumption. reflexivity.
  - unfold download. rewrite (contains_app_skip "." "." uid _ Hdot), N1a. cbv zeta.
    unfold fs_exists. cbn [fs_unlink fs_files fs_is_dir].
    rewrite lookup_remove_same, Hd, (fs_write_is_dir _ _ _ _ Ew), Hdir. reflexivity.
Qed.

(** ** Download *)

(** A download that succeeds serves the file stored at [DATA_DIR/name]
    for a name with no "/" and no "..": a direct child of the data
    directory (or the directory's own path, for "" and "."), never a file
    elsewhere. *)
Theorem download_confined : forall n f b,
  download DATA_DIR n f = Ok b ->
  contains "/" n = false /\ contains ".." n = false /\
  (path_parts (path_join DATA_DIR n) = path_parts DATA_DIR \/
   path_parts (path_join DATA_DIR n) = path_parts DATA_DIR ++ [n]) /\
  lookup_file (path_parts (path_join DATA_DIR n)) (fs_files f) = Some b.
Proof.
  intros n f b H. unfold download in H.
  destruct (contains ".." n) eqn:E1; [discriminate|].
  destruct (contains "/" n) eqn:E2; [discriminate|]. cbv zeta in H.
  destruct (negb (fs_exists (path_join DATA_DIR n) f)); [discriminate|].
  destruct (lookup_file _ _) as [b'|] eqn:El; [|discriminate].
  inversion H; subst. repeat split; auto.
  destruct (String.eqb_spec n "") as [->|Hne].
  - left. reflexivity.
  - rewrite path_parts_join by assumption.
    destruct (String.eqb_spec n ".") as [->|Hdot].
    + left. now rewrite app_nil_r.
    + right. now rewrite (path_parts_noslash n).
Qed.

(** ** Accounts and sessions *)

Variable jwt_encode : claims -> string.
Variable jwt_decode : Z -> string -> option claims.
Variable verify_password : string -> string -> bool.

Lemma existsb_false_map {A} : forall (g : A -> string) x l,
  existsb (fun a => String.eqb (g a) x) l = false -> ~ In x (map g l).
Proof.
  intros g x l H Hin. apply in_map_iff in Hin as (a & Ha & Hin).
  assert (existsb (fun a => String.eqb (g a) x) l = true)
    by (apply existsb_exists; exists a; split; [exact Hin | now apply String.eqb_eq]).
  congruence.
Qed.

Lemma NoDup_snoc {A} : forall (l : list A) x, NoDup l -> ~ In x l -> NoDup (l ++ [x]).
Proof.
  intros l x H Hx. apply (Permutation_NoDup (Permutation_cons_append l x)).
  now constructor.
Qed.

(** Registration keeps e-mail addresses and user ids unique, leaves the
    uploaded files alone, and refuses an address already registered
    with a 400, changing nothing. *)
Theorem register_unique : forall email name hashed new_id now d d' res,
  register jwt_encode email name hashed new_id now d = (d', res) ->
  NoDup (map User.email (users d)) -> NoDup (map User.id (users d)) ->
  NoDup (map User.email (users d')) /\ NoDup (map User.id (users d')) /\
  uploaded_files d' = uploaded_files d /\
  (In email (map User.email (users d)) ->
   d' = d /\ res = Raise (HTTPException 400 "Email already registered")).
Proof.
  intros email name hashed new_id now d d' res H He Hi. unfold register in H.
  destruct (existsb (fun u => String.eqb (User.email u) email) (users d)) eqn:Ee.
  { inversion H; subst. auto. }
  destruct (existsb (fun u => String.eqb (User.id u) new_id) (users d)) eqn:Ei.
  { inversion H; subst. split; [exact He|]. split; [exact Hi|]. split; [reflexivity|].
    intro Hin. contradiction (existsb_false_map _ _ _ Ee). }
  inversion H; subst; clear H. cbn [users uploaded_files]. rewrite !map_app. cbn [map].
  split; [|split; [|split; [reflexivity|]]].
  - apply NoDup_snoc; [exact He | exact (existsb_false_map _ _ _ Ee)].
  - apply NoDup_snoc; [exact Hi | exact (existsb_false_map _ _ _ Ei)].
  - intro Hin. contradiction (existsb_false_map _ _ _ Ee).
Qed.

Lemma find_app_none {A} : forall (p : A -> bool) l x,
  (forall y, In y l -> p y = false) -> p x = true -> find p (l ++ [x]) = Some x.
Proof.
  intros p l x H Hx. induction l as [|y l IH]; cbn.
  - now rewrite Hx.
  - rewrite H by now left. apply IH. intros z Hz. apply H. now right.
Qed.

Lemma existsb_false_forall {A} : forall (p : A -> bool) l,
  existsb p l = false -> forall y, In y l -> p y = false.
Proof.
  intros p l H y Hy. destruct (p y) eqn:E; [|reflexivity].
  assert (existsb p l = true) by (apply existsb_exists; eauto). congruence.
Qed.

(** After a successful registration, logging in with a password that
    matches the stored hash yields a fresh token for the new user; the
    token registration returned identifies that user for one week (as
    long as the JWT codec decodes it to its claims until their expiry
    time), and is refused with a 401 afterwards. *)
Theorem register_login_session : forall email name hashed new_id now d d' tok pw,
  register jwt_encode email name hashed new_id now d = (d', Ok tok) ->
  verify_password pw hashed = true ->
  let c := mkClaims (Some new_id) (now + ACCESS_TOKEN_EXPIRE_MINUTES * 60) in
  (forall t, jwt_decode t (jwt_encode c) = if (exp c <? t)%Z then None else Some c) ->
  jwt_encode c <> "" ->
  (forall now', login jwt_encode verify_password email pw now' d'
                = Ok (create_access_token jwt_encode (Some new_id) now')) /\
  (forall t, (t <= now + 604800)%Z ->
     get_current_user jwt_decode (Some tok) t d' = Some (User.mk new_id email name hashed now)) /\
  (forall t, (now + 604800 < t)%Z ->
     require_user (get_current_user jwt_decode (Some tok) t d')
       = Raise (HTTPException 401 "Not authenticated")).
Proof.
  intros email name hashed new_id now d d' tok pw H Hpw c Hdec Hne.
  unfold register in H.
  destruct (existsb (fun u => String.eqb (User.email u) email) (users d)) eqn:Ee;
    [discriminate|].
  destruct (existsb (fun u => String.eqb (User.id u) new_id) (users d)) eqn:Ei;
    [discriminate|].
  inversion H; subst; clear H.
  assert (Htok : create_access_token jwt_encode (Some new_id) now = jwt_encode c) by reflexivity.
  rewrite Htok. split; [|split].
  - intro now'. unfold login. cbn [users].
    rewrite find_app_none.
    + cbn [User.hashed_password User.id]. now rewrite Hpw.
    + exact (existsb_false_forall _ _ Ee).
    + apply String.eqb_refl.
  - intros t Ht. unfold get_current_user.
    destruct (jwt_encode c) as [|ch rest] eqn:Ec; [congruence|]. cbv beta iota.
    rewrite Hdec.
    unfold c at 1; cbn [exp]. unfold ACCESS_TOKEN_EXPIRE_MINUTES.
    replace (now + 60 * 24 * 7 * 60 <? t)%Z with false by (symmetry; apply Z.ltb_ge; lia).
    unfold c; cbn [sub users]. apply find_app_none.
    + exact (existsb_false_forall _ _ Ei).
    + apply String.eqb_refl.
  - intros t Ht. unfold get_current_user.
    destruct (jwt_encode c) as [|ch rest] eqn:Ec; [congruence|]. cbv beta iota.
    rewrite Hdec.
    unfold c at 1; cbn [exp]. unfold ACCESS_TOKEN_EXPIRE_MINUTES.
    replace (now + 60 * 24 * 7 * 60 <? t)%Z with true by (symmetry; apply Z.ltb_lt; lia).
    reflexivity.
Qed.

(** ** Deleting and listing files *)

Lemma NoDup_map_inj {A B} : forall (g : A -> B) l x y,
  NoDup (map g l) -> In x l -> In y l -> g x = g y -> x = y.
Proof.
  intros g l x y; induction l as [|a l IH]; intros Hn Hx Hy E; [contradiction|].
  inversion Hn as [|? ? Hnin Hn']; subst.
  destruct Hx as [<-|Hx], Hy as [<-|Hy]; auto.
  - exfalso. apply Hnin. rewrite E. now apply in_map.
  - exfalso. apply Hnin. rewrite <- E. now apply in_map.
Qed.

(** With file ids unique (they are the table's primary key), deleting a
    file removes exactly the caller's record with that id: records of
    other users, and other records of the caller, are kept; when the
    caller owns no record with that id the answer is 404 and nothing
    changes. *)
Theorem delete_file_owned_only : forall fid u d d' res,
  delete_file fid u d = (d', res) ->
  NoDup (map UploadedFile.id (uploaded_files d)) ->
  users d' = users d /\
  (forall r, In r (uploaded_files d') -> In r (uploaded_files d)) /\
  (forall r, In r (uploaded_files d) -> ~ In r (uploaded_files d') ->
             UploadedFile.id r = fid /\ owned_by (User.id u) r = true) /\
  ((exists r, In r (uploaded_files d) /\ UploadedFile.id r = fid /\
              owned_by (User.id u) r = true) ->
   res = Ok true /\ forall r, In r (uploaded_files d') -> UploadedFile.id r <> fid) /\
  ((forall r, In r (uploaded_files d) -> UploadedFile.id r = fid ->
              owned_by (User.id u) r = false) ->
   d' = d /\ res = Raise (HTTPException 404 "File not found")).
Proof using.
  intros fid u d d' res H Hnd. unfold delete_file in H.
  destruct (find _ (uploaded_files d)) as [r0|] eqn:Ef.
  - apply find_some in Ef as [Hin0 Hp0]. apply andb_true_iff in Hp0 as [Hid0 Ho0].
    apply String.eqb_eq in Hid0. inversion H; subst; clear H. cbn [users uploaded_files].
    split; [reflexivity|]. split; [|split; [|split]].
    + intros r Hr. apply filter_In in Hr. exact (proj1 Hr).
    + intros r Hr Hnr.
      destruct (String.eqb_spec (UploadedFile.id r) (UploadedFile.id r0)) as [E|E].
      * rewrite (NoDup_map_inj _ _ _ _ Hnd Hr Hin0 E). auto.
      * exfalso. apply Hnr. apply filter_In. split; [exact Hr|].
        apply negb_true_iff. now apply String.eqb_neq.
    + intros _. split; [reflexivity|]. intros r Hr E.
      apply filter_In in Hr as [_ Hr]. rewrite E in Hr.
      now rewrite String.eqb_refl in Hr.
    + intro Hno. exfalso. rewrite (Hno r0 Hin0 eq_refl) in Ho0. discriminate.
  - inversion H; subst; clear H.
    split; [reflexivity|]. split; [intros r Hr; exact Hr|].
    split; [intros r Hr Hnr; contradiction|].
    split; [|intros _; split; reflexivity].
    intros (r & Hr & Hid & Ho). pose proof (find_none _ _ Ef r Hr) as Hf.
    cbn beta in Hf. rewrite Hid, String.eqb_refl, Ho in Hf. discriminate.
Qed.

Variable J : Type.
Variable json_loads : string -> option J.
Variable json_empty_list : J.

Lemma StronglySorted_app_inv {A} (R : A -> A -> Prop) : forall l1 l2,
  StronglySorted R (l1 ++ l2) ->
  StronglySorted R l1 /\ (forall x y, In x l1 -> In y l2 -> R x y).
Proof.
  induction l1 as [|a l1 IH]; intros l2 H.
  - split; [constructor | intros x y []].
  - inversion H as [|? ? Hs Hf]; subst. destruct (IH l2 Hs) as [Hs1 Hr].
    apply Forall_app in Hf as [Hf1 Hf2]. split.
    + now constructor.
    + intros x y [<-|Hx] Hy; [|now apply Hr].
      rewrite Forall_forall in Hf2. now apply Hf2.
Qed.

(** The history lists the caller's own records, newest first, at most
    twenty of them: every record of the caller that is left out is no
    newer than any record listed. The database's ordering is taken to
    return the caller's records sorted by decreasing [created_at]. *)
Theorem file_history_recent_owned : forall order_desc cu d,
  let own := filter (owned_by (User.id cu)) (uploaded_files d) in
  Permutation own (order_desc own) ->
  Sorted (fun a b => (UploadedFile.created_at b <= UploadedFile.created_at a)%Z)
         (order_desc own) ->
  exists recs,
    file_history J json_loads json_empty_list order_desc cu d
      = map (history_item_of J json_loads json_empty_list) recs /\
    length recs = Nat.min 20 (length own) /\
    (forall r, In r recs -> In r (uploaded_files d) /\ owned_by (User.id cu) r = true) /\
    Sorted (fun a b => (UploadedFile.created_at b <= UploadedFile.created_at a)%Z) recs /\
    (forall r r', In r recs -> In r' own -> ~ In r' recs ->
       (UploadedFile.created_at r' <= UploadedFile.created_at r)%Z).
Proof.
  intros order_desc cu d own Hp Hs.
  set (R := fun a b : UploadedFile.t =>
              (UploadedFile.created_at b <= UploadedFile.created_at a)%Z) in *.
  assert (Htr : Transitive R) by (intros x y z; unfold R; lia).
  apply (Sorted_StronglySorted Htr) in Hs.
  rewrite <- (firstn_skipn 20 (order_desc own)) in Hs.
  apply StronglySorted_app_inv in Hs as [Hs1 Hrel].
  exists (firstn 20 (order_desc own)). split; [reflexivity|]. split; [|split; [|split]].
  - rewrite length_firstn. now rewrite <- (Permutation_length Hp).
  - intros r Hr'.
    assert (Hin : In r (order_desc own)).
    { rewrite <- (firstn_skipn 20 (order_desc own)). apply in_or_app. now left. }
    apply (Permutation_in _ (Permutation_sym Hp)) in Hin.
    unfold own in Hin. now apply filter_In in Hin.
  - now apply StronglySorted_Sorted.
  - intros r r' Hr Hr' Hnr. apply (Hrel r r' Hr).
    apply (Permutation_in _ Hp) in Hr'.
    rewrite <- (firstn_skipn 20 (order_desc own)) in Hr'.
    apply in_app_or in Hr' as [Hr'|Hr']; [contradiction|exact Hr'].
Qed.

End AppProofs.

(** ** Examples for the handler properties *)

Lemma upload_rejected_witness :
  ex_upload (Some "notes.txt") None
    = ([], ex_fs, ex_db, Rejected (HTTPException 400 "Only CSV or XLSX files are supported")) /\
  (([] : list io) = [] /\ ex_fs = ex_fs /\ ex_db = ex_db /\
   status_code (HTTPException 400 "Only CSV or XLSX files are supported") = 400 /\
   (Some "notes.txt" = None \/ Some "notes.txt" = Some "" \/
    exists fn, Some "notes.txt" = Some fn /\ ends_with ".csv" (lower fn) = false /\
               ends_with ".xlsx" (lower fn) = false)).
Proof.
  assert (H : ex_upload (Some "notes.txt") None
    = ([], ex_fs, ex_db, Rejected (HTTPException 400 "Only CSV or XLSX files are supported")))
    by (vm_compute; reflexivity).
  split; [exact H|].
  exact (upload_rejected ex_dir simple_tokenize ex_read_excel ex_to_excel ex_pdf ex_json_dumps argsort_stable
           _ _ _ _ _ _ _ _ _ _ _ _ H).
Defined.

Lemma ex_up_user_eq :
  ex_upload (Some "people.csv") (Some ex_user)
    = (out_tr ex_up_user, out_fs ex_up_user, out_db ex_up_user, Uploaded (out_resp ex_up_user)).
Proof. vm_compute. reflexivity. Qed.

Lemma upload_input_removed_witness :
  (forall e, Uploaded (out_resp ex_up_user) <> Rejected e) /\
  let K := path_parts (path_join ex_dir (String.append "ab12" (String.append "_" "people.csv"))) in
  (Uploaded (out_resp ex_up_user) = Unhandled /\ out_tr ex_up_user = [] /\
   out_fs ex_up_user = ex_fs /\ out_db ex_up_user = ex_db) \/
  (exists mid, out_tr ex_up_user = IOWrite K :: mid ++ [IOUnlink K] /\
               lookup_file K (fs_files (out_fs ex_up_user)) = None /\
               fs_is_dir (out_fs ex_up_user) = fs_is_dir ex_fs).
Proof.
  assert (Hn : forall e, Uploaded (out_resp ex_up_user) <> Rejected e) by discriminate.
  split; [exact Hn|].
  exact (upload_input_removed ex_dir simple_tokenize ex_read_excel ex_to_excel ex_pdf
           ex_json_dumps argsort_stable _ _ _ _ _ _ _ _ _ _ _ _ ex_up_user_eq Hn).
Defined.

Lemma upload_reads_by_extension_witness :
  Uploaded (out_resp ex_up_user) <> Unhandled /\
  let K := path_parts (path_join ex_dir (String.append "ab12" (String.append "_" "people.csv"))) in
  (ends_with ".csv" (lower "people.csv") = true ->
     exists rest, out_tr ex_up_user = IOWrite K :: IOLoad (ReadCsv UTF8) :: rest) /\
  (ends_with ".csv" (lower "people.csv") = false -> ends_with ".xlsx" (lower "people.csv") = true ->
     exists rest, out_tr ex_up_user = IOWrite K :: IOLoad ReadExcel :: rest).
Proof.
  assert (Hn : Uploaded (out_resp ex_up_user) <> Unhandled) by discriminate.
  split; [exact Hn|].
  exact (upload_reads_by_extension ex_dir simple_tokenize ex_read_excel ex_to_excel ex_pdf
           ex_json_dumps argsort_stable _ _ _ _ _ _ _ _ _ _ _ _ ex_up_user_eq Hn).
Defined.

Lemma upload_response_shape_witness :
  ex_upload (Some "people.csv") (Some ex_user)
    = (out_tr ex_up_user, out_fs ex_up_user, out_db ex_up_user, Uploaded (out_resp ex_up_user)) /\
  exists df,
    snd (load_and_clean simple_tokenize
           (mkWorld (bytes_of_string ex_csv) (ex_read_excel (bytes_of_string ex_csv)))
           (path_join ex_dir (String.append "ab12" (String.append "_" "people.csv"))))
      = inr df /\
    analyze_dataframe argsort_stable df = Some (resp_columns (out_resp ex_up_user)) /\
    resp_rows (out_resp ex_up_user) = length (rows df) /\
    resp_cols (out_resp ex_up_user) = length (columns df) /\
    length (resp_columns (out_resp ex_up_user)) = resp_cols (out_resp ex_up_user) /\
    length (preview (out_resp ex_up_user)) = Nat.min 10 (resp_rows (out_resp ex_up_user)).
Proof.
  split; [exact ex_up_user_eq|].
  exact (upload_response_shape ex_dir simple_tokenize ex_read_excel ex_to_excel ex_pdf
           ex_json_dumps argsort_stable _ _ _ _ _ _ _ _ _ _ _ _ ex_up_user_eq).
Defined.

Lemma upload_db_effect_witness :
  ex_upload (Some "people.csv") (Some ex_user)
    = (out_tr ex_up_user, out_fs ex_up_user, out_db ex_up_user, Uploaded (out_resp ex_up_user)) /\
  exists fn, Some "people.csv" = Some fn /\ resp_id (out_resp ex_up_user) = "f1" /\
    out_db ex_up_user = mkDb (users ex_db)
      (uploaded_files ex_db ++
       [UploadedFile.mk "f1" (Some (User.id ex_user)) fn
          (Some (resp_rows (out_resp ex_up_user))) (Some (resp_cols (out_resp ex_up_user)))
          (Some (cleanedFile (out_resp ex_up_user))) (Some (reportPdf (out_resp ex_up_user)))
          (Some (ex_json_dumps (resp_columns (out_resp ex_up_user)))) 100]).
Proof.
  split; [exact ex_up_user_eq|].
  exact (upload_db_effect ex_dir simple_tokenize ex_read_excel ex_to_excel ex_pdf
           ex_json_dumps argsort_stable _ _ _ _ _ _ _ _ _ _ _ _ ex_up_user_eq).
Defined.

Lemma upload_then_download_witness :
  ex_upload (Some "people.csv") (Some ex_user)
    = (out_tr ex_up_user, out_fs ex_up_user, out_db ex_up_user, Uploaded (out_resp ex_up_user)) /\
  "ab12" <> "" /\ contains "." "ab12" = false /\ contains "/" "ab12" = false /\
  contains "/" "people.csv" = false /\ "people.csv" <> "cleaned.xlsx" /\
  exists df b1 b2,
    snd (load_and_clean simple_tokenize
           (mkWorld (bytes_of_string ex_csv) (ex_read_excel (bytes_of_string ex_csv)))
           (path_join ex_dir (String.append "ab12" (String.append "_" "people.csv"))))
      = inr df /\
    ex_to_excel df = Some b1 /\ ex_pdf df (resp_columns (out_resp ex_up_user)) "people.csv" = Some b2 /\
    cleanedFile (out_resp ex_up_user) = String.append "/download/" (String.append "ab12" "_cleaned.xlsx") /\
    reportPdf (out_resp ex_up_user) = String.append "/download/" (String.append "ab12" "_report.pdf") /\
    download ex_dir (String.append "ab12" "_cleaned.xlsx") (out_fs ex_up_user) = Ok b1 /\
    download ex_dir (String.append "ab12" "_report.pdf") (out_fs ex_up_user) = Ok b2.
Proof.
  assert (H1 : "ab12" <> "") by discriminate.
  assert (H2 : contains "." "ab12" = false) by reflexivity.
  assert (H3 : contains "/" "ab12" = false) by reflexivity.
  assert (H4 : contains "/" "people.csv" = false) by reflexivity.
  assert (H5 : "people.csv" <> "cleaned.xlsx") by discriminate.
  split; [exact ex_up_user_eq|]. do 5 (split; [assumption|]).
  exact (upload_then_download ex_dir simple_tokenize ex_read_excel ex_to_excel ex_pdf
           ex_json_dumps argsort_stable _ _ _ _ _ _ _ _ _ _ _ _ ex_up_user_eq H1 H2 H3 H4 H5).
Defined.

Lemma upload_cleaned_xlsx_lost_witness :
  ex_upload (Some "cleaned.xlsx") None
    = (out_tr ex_up_lost, out_fs ex_up_lost, out_db ex_up_lost, Uploaded (out_resp ex_up_lost)) /\
  fs_is_dir ex_fs (path_parts (path_join ex_dir (String.append "ab12" "_cleaned.xlsx"))) = false /\
  cleanedFile (out_resp ex_up_lost) = String.append "/download/" (String.append "ab12" "_cleaned.xlsx") /\
  download ex_dir (String.append "ab12" "_cleaned.xlsx") (out_fs ex_up_lost)
    = Raise (HTTPException 404 "File not found").
Proof.
  assert (H : ex_upload (Some "cleaned.xlsx") None
    = (out_tr ex_up_lost, out_fs ex_up_lost, out_db ex_up_lost, Uploaded (out_resp ex_up_lost)))
    by (vm_compute; reflexivity).
  assert (Hd : fs_is_dir ex_fs (path_parts (path_join ex_dir (String.append "ab12" "_cleaned.xlsx")))
               = false) by reflexivity.
  split; [exact H|]. split; [exact Hd|].
  exact (upload_cleaned_xlsx_lost ex_dir simple_tokenize ex_read_excel ex_to_excel ex_pdf
           ex_json_dumps argsort_stable _ _ _ _ _ _ _ _ _ _ _ H ltac:(discriminate) eq_refl eq_refl Hd).
Defined.

Lemma download_confined_witness :
  download ex_dir "ab12_cleaned.xlsx" (out_fs ex_up_user) = Ok (bytes_of_string "xlsx") /\
  contains "/" "ab12_cleaned.xlsx" = false /\ contains ".." "ab12_cleaned.xlsx" = false /\
  (path_parts (path_join ex_dir "ab12_cleaned.xlsx") = path_parts ex_dir \/
   path_parts (path_join ex_dir "ab12_cleaned.xlsx") = path_parts ex_dir ++ ["ab12_cleaned.xlsx"]) /\
  lookup_file (path_parts (path_join ex_dir "ab12_cleaned.xlsx")) (fs_files (out_fs ex_up_user))
    = Some (bytes_of_string "xlsx").
Proof.
  assert (H : download ex_dir "ab12_cleaned.xlsx" (out_fs ex_up_user) = Ok (bytes_of_string "xlsx"))
    by (vm_compute; reflexivity).
  split; [exact H|]. exact (download_confined ex_dir _ _ _ H).
Defined.

Lemma register_unique_witness :
  register ex_jwt_encode "bob@example.com" (Some "Bob") "hashed:pw2" "u2" 100 ex_db
    = (fst ex_reg, snd ex_reg) /\
  NoDup (map User.email (users ex_db)) /\ NoDup (map User.id (users ex_db)) /\
  (NoDup (map User.email (users (fst ex_reg))) /\ NoDup (map User.id (users (fst ex_reg))) /\
   uploaded_files (fst ex_reg) = uploaded_files ex_db /\
   (In "bob@example.com" (map User.email (users ex_db)) ->
    fst ex_reg = ex_db /\ snd ex_reg = Raise (HTTPException 400 "Email already registered"))).
Proof.
  assert (H : register ex_jwt_encode "bob@example.com" (Some "Bob") "hashed:pw2" "u2" 100 ex_db
              = (fst ex_reg, snd ex_reg)) by reflexivity.
  assert (He : NoDup (map User.email (users ex_db))) by (repeat constructor; intros []).
  assert (Hi : NoDup (map User.id (users ex_db))) by (repeat constructor; intros []).
  split; [exact H|]. split; [exact He|]. split; [exact Hi|].
  exact (register_unique ex_jwt_encode _ _ _ _ _ _ _ _ H He Hi).
Defined.

Lemma register_login_session_witness :
  register ex_jwt_encode "bob@example.com" (Some "Bob") "hashed:pw2" "u2" 100 ex_db
    = (fst ex_reg, Ok (create_access_token ex_jwt_encode (Some "u2") 100)) /\
  ex_verify "pw2" "hashed:pw2" = true /\
  (forall t, ex_jwt_decode t (ex_jwt_encode (mkClaims (Some "u2") (100 + ACCESS_TOKEN_EXPIRE_MINUTES * 60)))
     = if (exp (mkClaims (Some "u2") (100 + ACCESS_TOKEN_EXPIRE_MINUTES * 60)) <? t)%Z then None
       else Some (mkClaims (Some "u2") (100 + ACCESS_TOKEN_EXPIRE_MINUTES * 60))) /\
  ex_jwt_encode (mkClaims (Some "u2") (100 + ACCESS_TOKEN_EXPIRE_MINUTES * 60)) <> "" /\
  ((forall now', login ex_jwt_encode ex_verify "bob@example.com" "pw2" now' (fst ex_reg)
                 = Ok (create_access_token ex_jwt_encode (Some "u2") now')) /\
   (forall t, (t <= 100 + 604800)%Z ->
      get_current_user ex_jwt_decode (Some (create_access_token ex_jwt_encode (Some "u2") 100)) t
        (fst ex_reg) = Some (User.mk "u2" "bob@example.com" (Some "Bob") "hashed:pw2" 100)) /\
   (forall t, (100 + 604800 < t)%Z ->
      require_user (get_current_user ex_jwt_decode
                      (Some (create_access_token ex_jwt_encode (Some "u2") 100)) t (fst ex_reg))
        = Raise (HTTPException 401 "Not authenticated"))).
Proof.
  assert (H : register ex_jwt_encode "bob@example.com" (Some "Bob") "hashed:pw2" "u2" 100 ex_db
              = (fst ex_reg, Ok (create_access_token ex_jwt_encode (Some "u2") 100)))
    by (vm_compute; reflexivity).
  assert (Hpw : ex_verify "pw2" "hashed:pw2" = true) by reflexivity.
  assert (Hdec : forall t,
    ex_jwt_decode t (ex_jwt_encode (mkClaims (Some "u2") (100 + ACCESS_TOKEN_EXPIRE_MINUTES * 60)))
     = if (exp (mkClaims (Some "u2") (100 + ACCESS_TOKEN_EXPIRE_MINUTES * 60)) <? t)%Z then None
       else Some (mkClaims (Some "u2") (100 + ACCESS_TOKEN_EXPIRE_MINUTES * 60)))
    by (intro t; vm_compute; reflexivity).
  assert (Hne : ex_jwt_encode (mkClaims (Some "u2") (100 + ACCESS_TOKEN_EXPIRE_MINUTES * 60)) <> "")
    by (vm_compute; discriminate).
  split; [exact H|]. split; [exact Hpw|]. split; [exact Hdec|]. split; [exact Hne|].
  exact (register_login_session ex_jwt_encode ex_jwt_decode ex_verify _ _ _ _ _ _ _ _ _
           H Hpw Hdec Hne).
Defined.

Lemma delete_file_owned_only_witness :
  delete_file "f3" ex_user ex_files_db
    = (mkDb [ex_user] [ex_file "f2" "u9" 20; ex_file "f1" "u1" 10], Ok true) /\
  NoDup (map UploadedFile.id (uploaded_files ex_files_db)) /\
  (users (mkDb [ex_user] [ex_file "f2" "u9" 20; ex_file "f1" "u1" 10]) = users ex_files_db /\
   (forall r, In r [ex_file "f2" "u9" 20; ex_file "f1" "u1" 10] ->
              In r (uploaded_files ex_files_db)) /\
   (forall r, In r (uploaded_files ex_files_db) ->
              ~ In r [ex_file "f2" "u9" 20; ex_file "f1" "u1" 10] ->
              UploadedFile.id r = "f3" /\ owned_by (User.id ex_user) r = true) /\
   ((exists r, In r (uploaded_files ex_files_db) /\ UploadedFile.id r = "f3" /\
               owned_by (User.id ex_user) r = true) ->
    @Ok bool true = Ok true /\
    forall r, In r [ex_file "f2" "u9" 20; ex_file "f1" "u1" 10] -> UploadedFile.id r <> "f3") /\
   ((forall r, In r (uploaded_files ex_files_db) -> UploadedFile.id r = "f3" ->
               owned_by (User.id ex_user) r = false) ->
    mkDb [ex_user] [ex_file "f2" "u9" 20; ex_file "f1" "u1" 10] = ex_files_db /\
    @Ok bool true = Raise (HTTPException 404 "File not found"))).
Proof.
  assert (H : delete_file "f3" ex_user ex_files_db
              = (mkDb [ex_user] [ex_file "f2" "u9" 20; ex_file "f1" "u1" 10], Ok true))
    by (vm_compute; reflexivity).
  assert (Hn : NoDup (map UploadedFile.id (uploaded_files ex_files_db)))
    by (vm_compute; repeat constructor; cbn; intuition discriminate).
  split; [exact H|]. split; [exact Hn|].
  exact (delete_file_owned_only _ _ _ _ _ H Hn).
Defined.

Lemma file_history_recent_owned_witness :
  Permutation (filter (owned_by (User.id ex_user)) (uploaded_files ex_files_db))
              (filter (owned_by (User.id ex_user)) (uploaded_files ex_files_db)) /\
  Sorted (fun a b => (UploadedFile.created_at b <= UploadedFile.created_at a)%Z)
         (filter (owned_by (User.id ex_user)) (uploaded_files ex_files_db)) /\
  exists recs,
    file_history string (fun s => Some s) "[]" (fun l => l) ex_user ex_files_db
      = map (history_item_of string (fun s => Some s) "[]") recs /\
    length recs = Nat.min 20 (length (filter (owned_by (User.id ex_user))
                                              (uploaded_files ex_files_db))) /\
    (forall r, In r recs -> In r (uploaded_files ex_files_db) /\
                            owned_by (User.id ex_user) r = true) /\
    Sorted (fun a b => (UploadedFile.created_at b <= UploadedFile.created_at a)%Z) recs /\
    (forall r r', In r recs ->
       In r' (filter (owned_by (User.id ex_user)) (uploaded_files ex_files_db)) ->
       ~ In r' recs -> (UploadedFile.created_at r' <= UploadedFile.created_at r)%Z).
Proof.
  assert (Hp : Permutation (filter (owned_by (User.id ex_user)) (uploaded_files ex_files_db))
                           (filter (owned_by (User.id ex_user)) (uploaded_files ex_files_db)))
    by apply Permutation_refl.
  assert (Hs : Sorted (fun a b => (UploadedFile.created_at b <= UploadedFile.created_at a)%Z)
                      (filter (owned_by (User.id ex_user)) (uploaded_files ex_files_db))).
  { vm_compute. repeat constructor; cbn; discriminate. }
  split; [exact Hp|]. split; [exact Hs|].
  exact (file_history_recent_owned string (fun s => Some s) "[]" (fun l => l) ex_user ex_files_db
           Hp Hs).
Defined.
